(** * BOOK-YOU-SHOW server: seat reservation, expiry and payment reconciliation

    A shallow embedding of the reservation core of the NestJS server
    (seats.service.ts, bookings.service.ts, the seat-lock expiry service,
    payments.service.ts, the phone and hash helpers of dialog-esms.service.ts
    and the Mongoose schemas they use), followed by the
    properties of the specification stated and settled against it.

    Conventions of the embedding.
    - A MongoDB collection is a finite map from the document [_id] to the
      remaining fields of the document; the booking collection, whose ids are
      generated by the store and whose query results are returned as arrays,
      is a list in insertion order, a booking's [_id] being its index.
    - A JavaScript [number] holding money is a binary64 float ([PrimFloat]);
      [numericState] and timestamps (milliseconds since the epoch) are [Z].
    - An optional field is an [option]; JavaScript truthiness of an optional
      string is [truthy].
    - Every service method is a computation in the monad [M]: it threads the
      database and either returns a value or throws an exception; a store
      write made before a [throw] stays written, as in the source.
    - A string is the UTF-8 encoding of the JavaScript string; equality of
      strings is equality of their bytes.
    - The outcomes of the external collaborators (Firebase, SMS, the payment
      gateway, the clock, the uuid generator) are inputs, collected in [Env].
    - A document id is a string, and every id handed to the store is a
      well-formed one: [new Types.ObjectId(id)] does not throw.
    - Service calls are served one after the other; the interleaving of the
      store calls of concurrent requests is not modelled. *)

From Stdlib Require Import PrimFloat SpecFloat FloatOps FloatAxioms ZArith Bool Lia.
From stdpp Require Import base option list gmap strings pretty.

Local Open Scope string_scope.
Local Open Scope Z_scope.

(** ** JavaScript helpers *)

(** [if (s)] on an optional string: [undefined] and the empty string are falsy. *)
Definition truthy (o : option string) : bool :=
  match o with
  | Some s => negb (String.eqb s "")
  | None => false
  end.

(** [a || b] on optional strings. *)
Definition orElse (a b : option string) : option string :=
  if truthy a then a else b.

(** [if (x)] on a number: [0], [-0] and [NaN] are falsy. *)
Definition truthyNum (x : float) : bool :=
  negb (PrimFloat.eqb x 0%float || PrimFloat.is_nan x).

(** [x || 0] on a number. *)
Definition numOrZero (x : float) : float :=
  if truthyNum x then x else 0%float.

(** *** String.prototype.trim

    A string is kept as the bytes of its UTF-8 encoding, which is how a
    string literal of this file is read. *)

(** The UTF-8 encoding of a code point below U+10000. *)
Definition utf8 (c : N) : list Ascii.ascii :=
  (if c <? 128 then [Ascii.ascii_of_N c]
   else if c <? 2048 then [Ascii.ascii_of_N (192 + c / 64); Ascii.ascii_of_N (128 + c mod 64)]
   else [Ascii.ascii_of_N (224 + c / 4096);
         Ascii.ascii_of_N (128 + (c / 64) mod 64);
         Ascii.ascii_of_N (128 + c mod 64)])%N.

(** The code points that [trim] removes (ECMAScript, TrimString): the
    WhiteSpace code points TAB, VT, FF, ZWNBSP (U+FEFF) and the category Zs
    (SP, NBSP, U+1680, U+2000 to U+200A, U+202F, U+205F, U+3000), and the
    LineTerminator code points LF, CR, LS (U+2028) and PS (U+2029). *)
Definition whiteSpaceCodePoints : list N :=
  [9; 11; 12; 65279;
   32; 160; 5760;
   8192; 8193; 8194; 8195; 8196; 8197; 8198; 8199; 8200; 8201; 8202;
   8239; 8287; 12288;
   10; 13; 8232; 8233]%N.

Definition whiteSpace : list (list Ascii.ascii) := map utf8 whiteSpaceCodePoints.

(** [s] begins with the bytes [w]. *)
Fixpoint startsWith (w s : list Ascii.ascii) : bool :=
  match w, s with
  | [], _ => true
  | a :: w', b :: s' => Ascii.eqb a b && startsWith w' s'
  | _ :: _, [] => false
  end.

(** Remove the characters of [ws] that [s] begins with, one after the
    other; [fuel] bounds their number, which the length of [s] bounds. *)
Fixpoint dropLeading (ws : list (list Ascii.ascii)) (fuel : nat) (s : list Ascii.ascii) :
    list Ascii.ascii :=
  match fuel with
  | O => s
  | S fuel' =>
      match List.find (λ w, startsWith w s) ws with
      | Some w => dropLeading ws fuel' (drop (length w) s)
      | None => s
      end
  end.

Definition trimStart (s : string) : string :=
  let cs := String.list_ascii_of_string s in
  String.string_of_list_ascii (dropLeading whiteSpace (length cs) cs).

Definition trimEnd (s : string) : string :=
  let cs := rev (String.list_ascii_of_string s) in
  String.string_of_list_ascii (rev (dropLeading (map (@rev _) whiteSpace) (length cs) cs)).

Definition trim (s : string) : string := trimEnd (trimStart s).

(** [array.includes(x)] on strings. *)
Definition includes (x : string) (l : list string) : bool :=
  bool_decide (x ∈ l).

(** ** Schemas *)

(** [Seat] and [SeatState]: src/src/schemas/seat.schema.ts *)
Inductive SeatState :=
  | AVAILABLE | PAYMENT_PENDING | BOOKED | BROKEN | AISLE | BLOCKED.

Global Instance SeatState_eq_dec : EqDecision SeatState.
Proof. solve_decision. Defined.

Definition SeatState_eqb (a b : SeatState) : bool :=
  match a, b with
  | AVAILABLE, AVAILABLE | PAYMENT_PENDING, PAYMENT_PENDING | BOOKED, BOOKED
  | BROKEN, BROKEN | AISLE, AISLE | BLOCKED, BLOCKED => true
  | _, _ => false
  end.

Module Seat.
(** The fields of a seat document that the reservation flow reads or
    writes (the layout fields [section], [row], [x], [y], ... are never
    touched by it). *)
Record t := mk {
  eventId : string;
  label : string;
  ticketType : option string;
  basePrice : option float;
  state : SeatState;
  pendingReservationId : option string;
}.

(** [{ $set: { state: st } }] *)
Definition setState (st : SeatState) (s : t) : t :=
  mk (eventId s) (label s) (ticketType s) (basePrice s) st (pendingReservationId s).

(** [{ $set: { state: st, pendingReservationId: r } }] *)
Definition setHold (st : SeatState) (r : string) (s : t) : t :=
  mk (eventId s) (label s) (ticketType s) (basePrice s) st (Some r).

(** [{ $set: { state: st }, $unset: { pendingReservationId: '' } }] *)
Definition setStateUnset (st : SeatState) (s : t) : t :=
  mk (eventId s) (label s) (ticketType s) (basePrice s) st None.

Definition isState (st : SeatState) (s : t) : bool := SeatState_eqb (state s) st.

Definition heldBy (r : string) (s : t) : bool :=
  match pendingReservationId s with
  | Some r' => String.eqb r' r
  | None => false
  end.
End Seat.

(** [SeatLock], [ReservationStatus] and [ReservationNumericState]: the
    seat-lock schema, whose text is in src/src/schemas/user.schema.ts *)
Inductive ReservationStatus := PENDING_PAYMENT | COMPLETED | CANCELLED.

(** The string value of a member of the enum. *)
Definition ReservationStatus_value (s : ReservationStatus) : string :=
  match s with
  | PENDING_PAYMENT => "pending_payment"
  | COMPLETED => "completed"
  | CANCELLED => "cancelled"
  end.

Global Instance ReservationStatus_eq_dec : EqDecision ReservationStatus.
Proof. solve_decision. Defined.

Definition ReservationStatus_eqb (a b : ReservationStatus) : bool :=
  match a, b with
  | PENDING_PAYMENT, PENDING_PAYMENT | COMPLETED, COMPLETED | CANCELLED, CANCELLED => true
  | _, _ => false
  end.

(** [enum ReservationNumericState] *)
Module ReservationNumericState.
Definition CART_TO_PAYMENT : Z := -1.
Definition IN_PAYMENT_GATEWAY : Z := -2.
Definition TIMEOUT : Z := -3.
Definition PAYMENT_SUCCESS : Z := 1.
End ReservationNumericState.

Module AmountSummary.
Record t := mk {
  subtotal : float;
  commission : float;
  taxes : float;
  total : float;
}.
End AmountSummary.

Module SeatLock.
Record t := mk {
  eventId : string;
  buyerId : option string;
  sessionId : option string;
  seatIds : list string;
  status : ReservationStatus;
  numericState : Z;
  expiresAt : Z;
  amountSummary : option AmountSummary.t;
  paymentIntentId : option string;
  phoneNumber : option string;
  customerName : option string;
  customerEmail : option string;
  billingEmail : option string;
  billingAddress1 : option string;
  billingCity : option string;
  billingCountry : option string;
  billingPostCode : option string;
}.

Definition setStatus (v : ReservationStatus) (l : t) : t :=
  mk (eventId l) (buyerId l) (sessionId l) (seatIds l) v (numericState l)
     (expiresAt l) (amountSummary l) (paymentIntentId l) (phoneNumber l)
     (customerName l) (customerEmail l) (billingEmail l) (billingAddress1 l)
     (billingCity l) (billingCountry l) (billingPostCode l).

Definition setNumericState (v : Z) (l : t) : t :=
  mk (eventId l) (buyerId l) (sessionId l) (seatIds l) (status l) v
     (expiresAt l) (amountSummary l) (paymentIntentId l) (phoneNumber l)
     (customerName l) (customerEmail l) (billingEmail l) (billingAddress1 l)
     (billingCity l) (billingCountry l) (billingPostCode l).

Definition setAmountSummary (v : AmountSummary.t) (l : t) : t :=
  mk (eventId l) (buyerId l) (sessionId l) (seatIds l) (status l) (numericState l)
     (expiresAt l) (Some v) (paymentIntentId l) (phoneNumber l)
     (customerName l) (customerEmail l) (billingEmail l) (billingAddress1 l)
     (billingCity l) (billingCountry l) (billingPostCode l).

Definition setPaymentIntentId (v : string) (l : t) : t :=
  mk (eventId l) (buyerId l) (sessionId l) (seatIds l) (status l) (numericState l)
     (expiresAt l) (amountSummary l) (Some v) (phoneNumber l)
     (customerName l) (customerEmail l) (billingEmail l) (billingAddress1 l)
     (billingCity l) (billingCountry l) (billingPostCode l).

(** The customer block written by [createPaymentIntent]. *)
Definition setCustomer (phone : option string)
    (name email bEmail bAddr bCity bCountry bPost : string) (l : t) : t :=
  mk (eventId l) (buyerId l) (sessionId l) (seatIds l) (status l) (numericState l)
     (expiresAt l) (amountSummary l) (paymentIntentId l) phone
     (Some name) (Some email) (Some bEmail) (Some bAddr)
     (Some bCity) (Some bCountry) (Some bPost).

Definition isStatus (v : ReservationStatus) (l : t) : bool :=
  ReservationStatus_eqb (status l) v.
End SeatLock.

(** [SeatLockBackup]: src/src/schemas/event.schema.ts *)
Module SeatLockBackup.
Record t := mk {
  eventId : string;
  buyerId : option string;
  sessionId : option string;
  seatIds : list string;
  numericState : Z;
  expiresAt : Z;
  amountSummary : option AmountSummary.t;
  paymentIntentId : option string;
  phoneNumber : option string;
  customerName : option string;
  customerEmail : option string;
  billingEmail : option string;
  billingAddress1 : option string;
  billingCity : option string;
  billingCountry : option string;
  billingPostCode : option string;
  backedUpAt : Z;
}.
End SeatLockBackup.

(** [Booking] and [PaymentState]: src/src/schemas/event.schema.ts. The
    field [qrData], which only the ticket service reads and writes, is left
    out. *)
Inductive PaymentState := PENDING | PROCESSING | SUCCESS | FAILED.

Module Booking.
Record t := mk {
  reservationId : string;
  eventId : string;
  buyerId : option string;
  seatId : string;
  pricePaid : float;
  commissionAmount : float;
  paymentState : PaymentState;
  adultCount : Z;
  kidCount : Z;
  phoneNumber : option string;
  dialogPaymentId : option string;
  customerName : option string;
  customerEmail : option string;
  billingEmail : option string;
  billingAddress1 : option string;
  billingCity : option string;
  billingCountry : option string;
  billingPostCode : option string;
}.

(** [{ paymentState: ps }] *)
Definition setPaymentState (ps : PaymentState) (b : t) : t :=
  mk (reservationId b) (eventId b) (buyerId b) (seatId b) (pricePaid b)
     (commissionAmount b) ps (adultCount b) (kidCount b) (phoneNumber b)
     (dialogPaymentId b) (customerName b) (customerEmail b) (billingEmail b)
     (billingAddress1 b) (billingCity b) (billingCountry b) (billingPostCode b).

(** [{ paymentState: ps, dialogPaymentId: pid }] *)
Definition setPayment (ps : PaymentState) (pid : string) (b : t) : t :=
  mk (reservationId b) (eventId b) (buyerId b) (seatId b) (pricePaid b)
     (commissionAmount b) ps (adultCount b) (kidCount b) (phoneNumber b)
     (Some pid) (customerName b) (customerEmail b) (billingEmail b)
     (billingAddress1 b) (billingCity b) (billingCountry b) (billingPostCode b).
End Booking.

(** [Event]: src/src/schemas/event.schema.ts *)
Inductive CommissionType := percentage | flat.

Module Commission.
Record t := mk { type : CommissionType; value : float }.
End Commission.

Module TicketType.
Record t := mk { name : string; adultPrice : float; childPrice : float }.
End TicketType.

Module Event.
Record t := mk {
  title : string;
  venueName : option string;
  startAt : Z;
  defaultPrice : float;
  ticketTypes : list TicketType.t;
  commission : option Commission.t;
  ticketSaleStartDate : option Z;
  ticketSaleEndDate : option Z;
  isTicketSaleEnabled : bool;
}.
End Event.

(** ** The database and the service monad *)

Inductive Exn :=
  | NotFoundException (message : string)
  | BadRequestException (message : string)
  | BadRequestSeats (message : string) (seatIds : list string)
  | Error (message : string).

Record Db := mkDb {
  seats : gmap string Seat.t;
  seatLocks : gmap string SeatLock.t;
  seatLockBackups : gmap string SeatLockBackup.t;
  bookings : list Booking.t;
  events : gmap string Event.t;
}.

Definition withSeats (f : gmap string Seat.t → gmap string Seat.t) (db : Db) : Db :=
  mkDb (f (seats db)) (seatLocks db) (seatLockBackups db) (bookings db) (events db).
Definition withSeatLocks (f : gmap string SeatLock.t → gmap string SeatLock.t) (db : Db) : Db :=
  mkDb (seats db) (f (seatLocks db)) (seatLockBackups db) (bookings db) (events db).
Definition withBackups (f : gmap string SeatLockBackup.t → gmap string SeatLockBackup.t)
    (db : Db) : Db :=
  mkDb (seats db) (seatLocks db) (f (seatLockBackups db)) (bookings db) (events db).
Definition withBookings (f : list Booking.t → list Booking.t) (db : Db) : Db :=
  mkDb (seats db) (seatLocks db) (seatLockBackups db) (f (bookings db)) (events db).

(** A service call: runs on a database, leaves a database, and either
    throws or returns. *)
Definition M (A : Type) : Type := Db → (Exn + A) * Db.

Definition ret {A} (a : A) : M A := λ db, (inr a, db).
Definition throw {A} (e : Exn) : M A := λ db, (inl e, db).
Definition bind {A B} (m : M A) (k : A → M B) : M B :=
  λ db, match m db with
        | (inr a, db') => k a db'
        | (inl e, db') => (inl e, db')
        end.
(** [try { m } catch (error) { h error }] *)
Definition tryCatch {A} (m : M A) (h : Exn → M A) : M A :=
  λ db, match m db with
        | (inr a, db') => (inr a, db')
        | (inl e, db') => h e db'
        end.
Definition get {A} (f : Db → A) : M A := λ db, (inr (f db), db).
Definition modify (f : Db → Db) : M unit := λ db, (inr tt, f db).

Global Instance M_ret : MRet M := @ret.
Global Instance M_bind : MBind M := λ A B k m, bind m k.

(** [for (const x of xs) { body x }] *)
Fixpoint forEach {A} (xs : list A) (body : A → M unit) : M unit :=
  match xs with
  | [] => ret tt
  | x :: xs' => body x ;; forEach xs' body
  end.

(** [Promise.all(xs.map(f))]: the results are in the order of [xs], and
    here the callbacks also run in that order.  The callbacks of the source
    may interleave, so of what they write only what does not depend on their
    order is stated as a property. *)
Fixpoint mapAll {A B} (xs : list A) (f : A → M B) : M (list B) :=
  match xs with
  | [] => ret []
  | x :: xs' => y ← f x; ys ← mapAll xs' f; ret (y :: ys)
  end.

(** *** Collection primitives *)

(** [updateMany(filter, update)] on a collection keyed by [_id]. *)
Definition updateMany {A} (filter : string → A → bool) (update : A → A)
    (m : gmap string A) : gmap string A :=
  map_imap (λ k d, Some (if filter k d then update d else d)) m.

(** [find(filter)]: the matching documents with their ids. *)
Definition findDocs {A} (filter : string → A → bool) (m : gmap string A) :
    list (string * A) :=
  List.filter (λ kd, filter kd.1 kd.2) (map_to_list m).

(** The number of documents a filter matches. *)
Definition countDocs {A} (filter : string → A → bool) (m : gmap string A) : nat :=
  length (findDocs filter m).

(** [findOne(filter)] *)
Definition findOneDoc {A} (filter : string → A → bool) (m : gmap string A) :
    option (string * A) :=
  head (findDocs filter m).

(** ** seats.service.ts *)

Module SeatsService.

(** [findOne(id)] *)
Definition findOne (id : string) : M Seat.t :=
  seat ← get (λ db, seats db !! id);
  match seat with
  | None => throw (NotFoundException ("Seat with ID " +:+ id +:+ " not found"))
  | Some s => ret s
  end.

(** [findByEventAndIds(eventId, seatIds)] *)
Definition findByEventAndIds (eventId : string) (seatIds : list string)
    (m : gmap string Seat.t) : list (string * Seat.t) :=
  findDocs (λ id s, String.eqb (Seat.eventId s) eventId && includes id seatIds) m.

(** The conditional [updateOne({ _id, state: AVAILABLE }, { $set: ... })] of
    the locking loop; the second component is [matchedCount]. *)
Definition lockOne (seatId reservationId : string) (m : gmap string Seat.t) :
    gmap string Seat.t * nat :=
  match m !! seatId with
  | Some s =>
      if Seat.isState AVAILABLE s
      then (<[seatId := Seat.setHold PAYMENT_PENDING reservationId s]> m, 1%nat)
      else (m, 0%nat)
  | None => (m, 0%nat)
  end.

Record LockLoop := mkLoop {
  loopSeats : gmap string Seat.t;
  failedIds : list string;
  lockedIds : list string;
}.

(** One iteration of [for (const seatId of seatIds)]. *)
Definition lockStep (reservationId : string) (acc : LockLoop) (seatId : string) : LockLoop :=
  let '(m', matchedCount) := lockOne seatId reservationId (loopSeats acc) in
  if Nat.eqb matchedCount 0
  then mkLoop m' (failedIds acc ++ [seatId]) (lockedIds acc)
  else mkLoop m' (failedIds acc) (lockedIds acc ++ [seatId]).

Definition lockLoop (seatIds : list string) (reservationId : string)
    (m : gmap string Seat.t) : LockLoop :=
  foldl (lockStep reservationId) (mkLoop m [] []) seatIds.

(** The rollback [updateMany({ _id: { $in: lockedSeatIds } }, ...)]. *)
Definition rollback (lockedSeatIds : list string) (m : gmap string Seat.t) :
    gmap string Seat.t :=
  updateMany (λ id _, includes id lockedSeatIds) (Seat.setStateUnset AVAILABLE) m.

Record LockResult := mkLockResult { success : bool; failedSeatIds : list string }.

(** [atomicLockSeats(seatIds, reservationId)] *)
Definition atomicLockSeats (seatIds : list string) (reservationId : string)
    (m : gmap string Seat.t) : gmap string Seat.t * LockResult :=
  let r := lockLoop seatIds reservationId m in
  if (0 <? length (failedIds r))%nat then
    let m' := if (0 <? length (lockedIds r))%nat
              then rollback (lockedIds r) (loopSeats r)
              else loopSeats r in
    (m', mkLockResult false (failedIds r))
  else (loopSeats r, mkLockResult true []).

Definition confirmFilter (seatIds : list string) (reservationId : string)
    (id : string) (s : Seat.t) : bool :=
  includes id seatIds && Seat.isState PAYMENT_PENDING s && Seat.heldBy reservationId s.

(** [atomicConfirmSeats(seatIds, reservationId)]; the second component is
    [modifiedCount] (every matched seat changes state). *)
Definition atomicConfirmSeats (seatIds : list string) (reservationId : string)
    (m : gmap string Seat.t) : gmap string Seat.t * nat :=
  (updateMany (confirmFilter seatIds reservationId) (Seat.setStateUnset BOOKED) m,
   countDocs (confirmFilter seatIds reservationId) m).

Definition pendingFilter (seatIds : list string) (id : string) (s : Seat.t) : bool :=
  includes id seatIds && (Seat.isState AVAILABLE s || Seat.isState PAYMENT_PENDING s).

(** [setSeatsToPaymentPending(seatIds, reservationId)]; a matched seat that
    is already pending under [reservationId] is not counted as modified. *)
Definition setSeatsToPaymentPending (seatIds : list string) (reservationId : string)
    (m : gmap string Seat.t) : gmap string Seat.t * nat :=
  (updateMany (pendingFilter seatIds) (Seat.setHold PAYMENT_PENDING reservationId) m,
   countDocs (λ id s, pendingFilter seatIds id s
                      && negb (Seat.isState PAYMENT_PENDING s && Seat.heldBy reservationId s)) m).

Definition releaseFilter (reservationId : string) (_ : string) (s : Seat.t) : bool :=
  Seat.heldBy reservationId s && Seat.isState PAYMENT_PENDING s.

(** [releaseSeatsByReservation(reservationId)] *)
Definition releaseSeatsByReservation (reservationId : string)
    (m : gmap string Seat.t) : gmap string Seat.t * nat :=
  (updateMany (releaseFilter reservationId) (Seat.setStateUnset AVAILABLE) m,
   countDocs (releaseFilter reservationId) m).

(** [setSeatBroken(seatId, broken)]:
    [findByIdAndUpdate(seatId, { state: broken ? BROKEN : AVAILABLE }, { new: true })]. *)
Definition setSeatBroken (seatId : string) (broken : bool) : M Seat.t :=
  seat ← get (λ db, seats db !! seatId);
  match seat with
  | None => throw (NotFoundException ("Seat with ID " +:+ seatId +:+ " not found"))
  | Some s =>
      let s' := Seat.setState (if broken then BROKEN else AVAILABLE) s in
      modify (withSeats (λ m, <[seatId := s']> m));;
      ret s'
  end.


(** [String.fromCharCode(65 + k)] *)
Definition letter (k : Z) : Ascii.ascii := Ascii.ascii_of_N (Z.to_N (65 + k)).

(** The [while (num >= 0)] loop of [getRowName]; [fuel] bounds the number
    of iterations, which [num] itself bounds. *)
Fixpoint rowNameLoop (fuel : nat) (num : Z) (result : string) : string :=
  match fuel with
  | O => result
  | S fuel' =>
      if num <? 0 then result
      else
        let result := String (letter (num mod 26)) result in
        let num := num / 26 - 1 in
        if num <? 0 then result else rowNameLoop fuel' num result
  end.

(** [getRowName(index)]: A, B, ..., Z, AA, AB, ... *)
Definition getRowName (index : Z) : string :=
  rowNameLoop (S (Z.to_nat index)) index "".

End SeatsService.

(** ** External collaborators *)

(** [DialogGenieCustomerDto] *)
Module Customer.
Record t := mk {
  name : string;
  email : string;
  billingEmail : option string;
  billingAddress1 : option string;
  billingCity : option string;
  billingCountry : option string;
  billingPostCode : option string;
  phoneNumber : string;
}.
End Customer.

(** What the outside world answers during one service call. *)
Record Env := mkEnv {
  (** [new Date()] / [Date.now()] *)
  now : Z;
  (** [uuidv4()] *)
  uuid : string;
  (** [firebaseAdminService.isInitialized()] *)
  firebaseInitialized : bool;
  (** [firebaseAdminService.getFirestore()] is not null *)
  firestoreAvailable : bool;
  (** [firebaseMessageService.sendBookingMessage(...)]: throws or answers *)
  sendBookingMessage : Exn + bool;
  (** the configuration checks of [createPaymentIntent] (API url and key) *)
  gatewayConfigError : option Exn;
  (** the phone number of the buyer's Firestore profile *)
  profilePhone : option string;
  (** the [axios.post] to the gateway with the checks on its answer:
      an exception, or the payment url and the transaction id, if any *)
  gatewayResponse : Exn + (string * option string);
}.

(** [o || d] for an optional string and a string. *)
Definition strOr (o : option string) (d : string) : string :=
  match o with
  | Some s => if String.eqb s "" then d else s
  | None => d
  end.

(** [seats.length] and the like, as a JavaScript number. *)
Fixpoint floatOfNat (n : nat) : float :=
  match n with
  | O => 0%float
  | S n' => (floatOfNat n' + 1)%float
  end.

(** ** bookings.service.ts: pricing *)

Inductive AgeClass := adult | child.

Module SeatAssignment.
Record t := mk { seatId : string; ticketType : AgeClass }.
End SeatAssignment.

Module Pricing.

(** [ticketTypeMap]: the tiers of the event by name, a later tier of the
    same name replacing an earlier one; a tier without a name is skipped. *)
Definition ticketTypeMap (e : Event.t) : gmap string (float * float) :=
  foldl (λ m tier,
           if String.eqb (TicketType.name tier) "" then m
           else <[TicketType.name tier
                  := (TicketType.adultPrice tier, TicketType.childPrice tier)]> m)
        ∅ (Event.ticketTypes e).

(** [seatObj.ticketType ? String(seatObj.ticketType).trim() : null] *)
Definition seatTicketType (s : Seat.t) : option string :=
  if truthy (Seat.ticketType s) then trim <$> Seat.ticketType s else None.

(** [seatTicketType && ticketTypeMap.has(seatTicketType)], with the entry. *)
Definition tierOf (e : Event.t) (s : Seat.t) : option (float * float) :=
  if truthy (seatTicketType s)
  then seatTicketType s ≫= λ n, ticketTypeMap e !! n
  else None.

(** [seatObj.basePrice && seatObj.basePrice > 0] *)
Definition hasBasePrice (s : Seat.t) : option float :=
  match Seat.basePrice s with
  | Some p => if truthyNum p && PrimFloat.ltb 0 p then Some p else None
  | None => None
  end.

(** The body of [seats.map(seat => ...)] in [calculateAmount]. *)
Definition seatPrice (e : Event.t) (s : Seat.t) : float :=
  match tierOf e s with
  | Some ticketPrices => ticketPrices.1
  | None =>
      match hasBasePrice s with
      | Some p => p
      | None => numOrZero (Event.defaultPrice e)
      end
  end.

(** [if (event.commission) { ... }] *)
Definition commissionOf (e : Event.t) (subtotal : float) (nSeats : nat) : float :=
  match Event.commission e with
  | Some c =>
      match Commission.type c with
      | percentage => (subtotal * (Commission.value c / 100))%float
      | flat => (Commission.value c * floatOfNat nSeats)%float
      end
  | None => 0%float
  end.

Definition summary (e : Event.t) (subtotal : float) (nSeats : nat) : AmountSummary.t :=
  let commission := commissionOf e subtotal nSeats in
  let taxes := 0%float in
  AmountSummary.mk subtotal commission taxes (subtotal + commission + taxes)%float.

(** [calculateAmount(seats, event, adults, kids)] *)
Definition calculateAmount (seats : list (string * Seat.t)) (e : Event.t)
    (adults kids : float) : AmountSummary.t :=
  let adultMultiplier := 1%float in
  let kidMultiplier := 0.5%float in
  let seatPrices := map (λ seat, seatPrice e seat.2) seats in
  let baseSubtotal := foldl (λ sum price, (sum + price)%float) 0%float seatPrices in
  let totalPersons := (adults + kids)%float in
  let adjustedSubtotal :=
    if PrimFloat.ltb 0 totalPersons
       && negb (PrimFloat.eqb totalPersons (floatOfNat (length seats)))
    then
      let avgSeatPrice := (baseSubtotal / floatOfNat (length seats))%float in
      ((adults * avgSeatPrice * adultMultiplier) + (kids * avgSeatPrice * kidMultiplier))%float
    else baseSubtotal in
  summary e adjustedSubtotal (length seats).

(** [assignmentMap]: the age class assigned to each seat id, a later
    assignment of the same seat replacing an earlier one. *)
Definition assignmentMap (seatAssignments : list SeatAssignment.t) : gmap string AgeClass :=
  foldl (λ m a, <[SeatAssignment.seatId a := SeatAssignment.ticketType a]> m)
        ∅ seatAssignments.

(** The body of [seats.forEach(seat => ...)] in
    [calculateAmountWithSeatAssignments], before [subtotal += price]. *)
Definition assignedPrice (e : Event.t) (assignments : gmap string AgeClass)
    (seat : string * Seat.t) : float :=
  let ticketType := default adult (assignments !! seat.1) in
  match tierOf e seat.2 with
  | Some prices =>
      match ticketType with
      | adult => prices.1
      | child => prices.2
      end
  | None =>
      match hasBasePrice seat.2 with
      | Some p => p
      | None => numOrZero (Event.defaultPrice e)
      end
  end.

(** [calculateAmountWithSeatAssignments(seats, event, seatAssignments)] *)
Definition calculateAmountWithSeatAssignments (seats : list (string * Seat.t))
    (e : Event.t) (seatAssignments : list SeatAssignment.t) : AmountSummary.t :=
  let assignments := assignmentMap seatAssignments in
  let subtotal :=
    foldl (λ subtotal seat, (subtotal + assignedPrice e assignments seat)%float)
          0%float seats in
  summary e subtotal (length seats).

End Pricing.

(** ** events.service.ts *)

Module EventsService.
(** [findOne(id)] *)
Definition findOne (id : string) : M Event.t :=
  event ← get (λ db, events db !! id);
  match event with
  | None => throw (NotFoundException ("Event with ID " +:+ id +:+ " not found"))
  | Some e => ret e
  end.
End EventsService.

(** ** bookings.service.ts *)

Module CreateBookingDto.
Record t := mk {
  eventId : string;
  seatIds : list string;
  buyerId : option string;
  sessionId : option string;
  holdSeconds : option Z;
}.
End CreateBookingDto.

Module UpdateTicketsDto.
Record t := mk {
  adults : option float;
  kids : option float;
  seatAssignments : list SeatAssignment.t;
}.
End UpdateTicketsDto.

Module BookingsService.

Record Reservation := mkReservation {
  reservationId : string;
  expiresAt : Z;
  amountEstimate : AmountSummary.t;
  reservedSeatIds : list string;
}.

Record Confirmation := mkConfirmation {
  confirmedReservationId : string;
  confirmedBookings : list nat;
  confirmedSeats : list string;
}.

(** [seatLockModel.findById(id)] *)
Definition findById (id : string) : M (option SeatLock.t) :=
  get (λ db, seatLocks db !! id).

(** [seatLock.save()] of a document that was read from the collection. *)
Definition save (id : string) (l : SeatLock.t) : M unit :=
  modify (withSeatLocks (λ m, <[id := l]> m)).

(** [new this.seatLockModel({ _id, ... }).save()]: an insert, refused
    with a duplicate-key error when the id is taken. *)
Definition insertNew (id : string) (l : SeatLock.t) : M unit :=
  existing ← findById id;
  match existing with
  | Some _ => throw (Error "E11000 duplicate key error")
  | None => modify (withSeatLocks (λ m, <[id := l]> m))
  end.

(** [bookingModel.find({ reservationId })], each booking with its [_id]. *)
Definition findBookings (reservationId : string) (bs : list Booking.t) :
    list (nat * Booking.t) :=
  List.filter (λ ib, String.eqb (Booking.reservationId ib.2) reservationId)
              (imap pair bs).

(** Lift a seat-store primitive. *)
Definition onSeats {A} (f : gmap string Seat.t → gmap string Seat.t * A) : M A :=
  r ← get (λ db, f (seats db));
  modify (withSeats (λ _, r.1));;
  ret r.2.

Definition isSalePeriodActive (e : Event.t) (now : Z) : bool :=
  match Event.ticketSaleStartDate e with
  | Some start => bool_decide (start ≤ now)
  | None => true
  end
  && match Event.ticketSaleEndDate e with
     | Some stop => bool_decide (now ≤ stop)
     | None => true
     end.

Definition salePeriodMessage (e : Event.t) (now : Z) : string :=
  match Event.ticketSaleStartDate e with
  | Some start =>
      if bool_decide (now < start) then "Ticket sales start on " +:+ pretty start
      else match Event.ticketSaleEndDate e with
           | Some stop =>
               if bool_decide (stop < now) then "Ticket sales ended on " +:+ pretty stop
               else "Ticket sales are not currently available"
           | None => "Ticket sales are not currently available"
           end
  | None =>
      match Event.ticketSaleEndDate e with
      | Some stop =>
          if bool_decide (stop < now) then "Ticket sales ended on " +:+ pretty stop
          else "Ticket sales are not currently available"
      | None => "Ticket sales are not currently available"
      end
  end.

(** The body of the [try] of [createReservation]. *)
Definition createReservationBody (env : Env) (dto : CreateBookingDto.t) : M Reservation :=
  let eventId := CreateBookingDto.eventId dto in
  let seatIds := CreateBookingDto.seatIds dto in
  let holdSeconds := default 600 (CreateBookingDto.holdSeconds dto) in
  if String.eqb eventId "" then throw (BadRequestException "eventId is required")
  else if (length seatIds =? 0)%nat
  then throw (BadRequestException "seatIds must be a non-empty array")
  else
    event ← EventsService.findOne eventId;
    if negb (Event.isTicketSaleEnabled event)
    then throw (BadRequestException "Ticket sales are currently disabled for this event")
    else if negb (isSalePeriodActive event (now env))
    then throw (BadRequestException (salePeriodMessage event (now env)))
    else
      seats ← get (λ db, SeatsService.findByEventAndIds eventId seatIds (seats db));
      if negb (length seats =? length seatIds)%nat
      then
        let foundSeatIds := map fst seats in
        throw (BadRequestSeats "Some seats not found or do not belong to this event"
                 (List.filter (λ id, negb (includes id foundSeatIds)) seatIds))
      else
        let reservationId := "reservation_" +:+ uuid env in
        let expiresAt := now env + holdSeconds * 1000 in
        lockResult ← onSeats (SeatsService.atomicLockSeats seatIds reservationId);
        if negb (SeatsService.success lockResult)
        then throw (BadRequestSeats "Some seats are no longer available"
                      (SeatsService.failedSeatIds lockResult))
        else
          let amountSummary :=
            Pricing.calculateAmount seats event (floatOfNat (length seats)) 0%float in
          insertNew reservationId
            (SeatLock.mk eventId (CreateBookingDto.buyerId dto)
               (CreateBookingDto.sessionId dto) seatIds PENDING_PAYMENT
               ReservationNumericState.CART_TO_PAYMENT expiresAt (Some amountSummary)
               None None None None None None None None None);;
          ret (mkReservation reservationId expiresAt amountSummary seatIds).

(** [createReservation(createBookingDto)]: the [catch] rethrows the Nest
    exceptions and wraps any other error in a [BadRequestException]. The
    SMS notice sent afterwards touches no collection. *)
Definition createReservation (env : Env) (dto : CreateBookingDto.t) : M Reservation :=
  tryCatch (createReservationBody env dto)
    (λ error, match error with
              | Error message => throw (BadRequestException message)
              | _ => throw error
              end).

(** [updateTickets(reservationId, updateTicketsDto)] *)
Definition updateTickets (reservationId : string) (dto : UpdateTicketsDto.t) :
    M AmountSummary.t :=
  found ← findById reservationId;
  match found with
  | None => throw (NotFoundException ("Reservation with ID " +:+ reservationId +:+ " not found"))
  | Some seatLock =>
      if negb (SeatLock.isStatus PENDING_PAYMENT seatLock)
      then throw (BadRequestException "Reservation is not in pending payment state")
      else
        event ← EventsService.findOne (SeatLock.eventId seatLock);
        seats ← get (λ db, SeatsService.findByEventAndIds (SeatLock.eventId seatLock)
                             (SeatLock.seatIds seatLock) (seats db));
        let adults := numOrZero (default 0%float (UpdateTicketsDto.adults dto)) in
        let kids := numOrZero (default 0%float (UpdateTicketsDto.kids dto)) in
        let amountSummary :=
          if (0 <? length (UpdateTicketsDto.seatAssignments dto))%nat
          then Pricing.calculateAmountWithSeatAssignments seats event
                 (UpdateTicketsDto.seatAssignments dto)
          else Pricing.calculateAmount seats event adults kids in
        save reservationId (SeatLock.setAmountSummary amountSummary seatLock);;
        ret amountSummary
  end.

(** [cancelReservation(reservationId)] *)
Definition cancelReservation (reservationId : string) : M unit :=
  found ← findById reservationId;
  match found with
  | None => throw (NotFoundException ("Reservation with ID " +:+ reservationId +:+ " not found"))
  | Some seatLock =>
      onSeats (SeatsService.releaseSeatsByReservation reservationId);;
      save reservationId (SeatLock.setStatus CANCELLED seatLock)
  end.

(** One [seatLock.seatIds.map(async (seatId) => ...)] callback of
    [confirmBooking]: build and save the booking of a seat. *)
Definition createBooking (reservationId : string) (seatLock : SeatLock.t)
    (seatId : string) : M (nat * Booking.t) :=
  seat ← SeatsService.findOne seatId;
  let total := default 0%float (AmountSummary.total <$> SeatLock.amountSummary seatLock) in
  let commission :=
    default 0%float (AmountSummary.commission <$> SeatLock.amountSummary seatLock) in
  let n := floatOfNat (length (SeatLock.seatIds seatLock)) in
  let seatPrice :=
    match Seat.basePrice seat with
    | Some p => if truthyNum p then p else (total / n)%float
    | None => (total / n)%float
    end in
  let commissionAmount := (commission / n)%float in
  let booking :=
    Booking.mk reservationId (SeatLock.eventId seatLock) (SeatLock.buyerId seatLock)
      seatId seatPrice commissionAmount PENDING 1 0 (SeatLock.phoneNumber seatLock) None
      (SeatLock.customerName seatLock) (SeatLock.customerEmail seatLock)
      (SeatLock.billingEmail seatLock) (SeatLock.billingAddress1 seatLock)
      (SeatLock.billingCity seatLock) (SeatLock.billingCountry seatLock)
      (SeatLock.billingPostCode seatLock) in
  id ← get (λ db, length (bookings db));
  modify (withBookings (λ bs, (bs ++ [booking])%list));;
  ret (id, booking).

(** STEP 2 of [confirmBooking]: the message handed to Firebase. The SMS
    sent after it is best effort and touches no collection. *)
Definition notifyFirebase (env : Env) (reservationId : string) (seatLock : SeatLock.t) :
    M unit :=
  if negb (truthy (SeatLock.phoneNumber seatLock))
  then throw (Error ("Phone number is required to save booking to Firebase. Reservation ID: "
                     +:+ reservationId))
  else if negb (firebaseInitialized env)
  then throw (Error ("Firebase is not initialized. Cannot save booking to Firestore. Reservation ID: "
                     +:+ reservationId))
  else if negb (firestoreAvailable env)
  then throw (Error ("Firestore is not available. Cannot save booking to Firestore. Reservation ID: "
                     +:+ reservationId))
  else
    EventsService.findOne (SeatLock.eventId seatLock);;
    mapAll (SeatLock.seatIds seatLock) SeatsService.findOne;;
    match sendBookingMessage env with
    | inl error => throw error
    | inr true => ret tt
    | inr false =>
        throw (Error "Failed to save booking message to Firebase. sendBookingMessage returned false.")
    end.

(** The early return of [confirmBooking] for a reservation that is
    already [COMPLETED] and has bookings. *)
Definition alreadyConfirmed (reservationId : string) (paymentIntentId : option string)
    (seatLock : SeatLock.t) : M (option Confirmation) :=
  if SeatLock.isStatus COMPLETED seatLock then
    existingBookings ← get (λ db, findBookings reservationId (bookings db));
    if (0 <? length existingBookings)%nat then
      match paymentIntentId with
      | Some pid =>
          if truthy paymentIntentId && negb (truthy (SeatLock.paymentIntentId seatLock))
          then save reservationId (SeatLock.setPaymentIntentId pid seatLock)
          else ret tt
      | None => ret tt
      end;;
      ret (Some (mkConfirmation reservationId (map fst existingBookings)
                   (SeatLock.seatIds seatLock)))
    else ret None
  else ret None.

(** [confirmBooking(reservationId, paymentIntentId)] *)
Definition confirmBooking (env : Env) (reservationId : string)
    (paymentIntentId : option string) : M Confirmation :=
  found ← findById reservationId;
  match found with
  | None => throw (NotFoundException ("Reservation with ID " +:+ reservationId +:+ " not found"))
  | Some seatLock =>
      early ← alreadyConfirmed reservationId paymentIntentId seatLock;
      match early with
      | Some confirmation => ret confirmation
      | None =>
          if negb (SeatLock.isStatus PENDING_PAYMENT seatLock)
             && negb (SeatLock.isStatus COMPLETED seatLock)
          then throw (BadRequestException
                        ("Reservation is not in pending payment state. Current status: "
                         +:+ ReservationStatus_value (SeatLock.status seatLock)))
          else if bool_decide (SeatLock.expiresAt seatLock < now env)
          then cancelReservation reservationId;;
               throw (BadRequestException "Reservation has expired")
          else
            confirmedCount ← onSeats (SeatsService.atomicConfirmSeats
                                        (SeatLock.seatIds seatLock) reservationId);
            if negb (confirmedCount =? length (SeatLock.seatIds seatLock))%nat
            then throw (BadRequestException "Some seats could not be confirmed")
            else
              let seatLock' :=
                let completed := SeatLock.setStatus COMPLETED seatLock in
                match paymentIntentId with
                | Some pid =>
                    if truthy paymentIntentId
                    then SeatLock.setPaymentIntentId pid completed else completed
                | None => completed
                end in
              save reservationId seatLock';;
              existingBookings ← get (λ db, findBookings reservationId (bookings db));
              created ← (if (0 <? length existingBookings)%nat
                         then ret existingBookings
                         else mapAll (SeatLock.seatIds seatLock')
                                (createBooking reservationId seatLock'));
              notifyFirebase env reservationId seatLock';;
              ret (mkConfirmation reservationId (map fst created)
                     (SeatLock.seatIds seatLock'))
      end
  end.

Record ReservationView := mkReservationView {
  viewReservationId : string;
  viewEventId : string;
  viewSeatIds : list string;
  viewStatus : ReservationStatus;
  viewExpiresAt : Z;
  viewAmountEstimate : option AmountSummary.t;
}.

(** [getReservation(reservationId)] *)
Definition getReservation (reservationId : string) : M ReservationView :=
  found ← findById reservationId;
  match found with
  | None => throw (NotFoundException ("Reservation with ID " +:+ reservationId +:+ " not found"))
  | Some seatLock =>
      ret (mkReservationView reservationId (SeatLock.eventId seatLock)
             (SeatLock.seatIds seatLock) (SeatLock.status seatLock)
             (SeatLock.expiresAt seatLock) (SeatLock.amountSummary seatLock))
  end.



End BookingsService.

(** ** The seat-lock expiry service (src/unnamed/part_010) *)

Module SeatLockExpiryService.

(** The query of [checkExpiredReservations]. *)
Definition expiredFilter (now : Z) (_ : string) (l : SeatLock.t) : bool :=
  SeatLock.isStatus PENDING_PAYMENT l
  && (SeatLock.numericState l =? ReservationNumericState.CART_TO_PAYMENT)
  && bool_decide (SeatLock.expiresAt l < now).

(** The body of [for (const lock of expiredLocks)]; no store call of the
    [try] throws, so the [catch] is not entered. *)
Definition expire (lock : string * SeatLock.t) : M unit :=
  let reservationId := lock.1 in
  BookingsService.onSeats (SeatsService.releaseSeatsByReservation reservationId);;
  BookingsService.save reservationId
    (SeatLock.setNumericState ReservationNumericState.TIMEOUT
       (SeatLock.setStatus CANCELLED lock.2)).

(** [checkExpiredReservations()] *)
Definition checkExpiredReservations (now : Z) : M unit :=
  expiredLocks ← get (λ db, findDocs (expiredFilter now) (seatLocks db));
  forEach expiredLocks expire.

End SeatLockExpiryService.

(** ** payments.service.ts *)

Module RedirectQuery.
(** The query parameters the redirect handler reads. *)
Record t := mk {
  id : option string;
  transactionId : option string;
  paymentId : option string;
  transactionReference : option string;
  status : option string;
  success : option string;
  localId : option string;
  reservationId : option string;
}.
End RedirectQuery.

Module PaymentsService.

Record PaymentIntent := mkPaymentIntent {
  intentId : string;
  paymentUrl : string;
}.

Record CallbackResult := mkCallbackResult {
  callbackSuccess : bool;
  callbackReservationId : string;
  confirmation : option BookingsService.Confirmation;
}.

(** Where [res.redirect] sends the browser. *)
Inductive Redirect :=
  | SuccessPage (reservationId : string)
  | PaymentFailedPage (reservationId : string)
  | ErrorPage (message : string).

Definition exnMessage (e : Exn) : string :=
  match e with
  | NotFoundException m | BadRequestException m | BadRequestSeats m _ | Error m => m
  end.

(** [bookingModel.updateMany({ reservationId }, update)] *)
Definition updateBookings (reservationId : string) (update : Booking.t → Booking.t) : M unit :=
  modify (withBookings
            (map (λ b, if String.eqb (Booking.reservationId b) reservationId
                       then update b else b))).

(** [seatLockModel.findOne({ paymentIntentId })] *)
Definition findByPaymentIntent (paymentId : string) (m : gmap string SeatLock.t) :
    option (string * SeatLock.t) :=
  findOneDoc (λ _ l, match SeatLock.paymentIntentId l with
                     | Some p => String.eqb p paymentId
                     | None => false
                     end) m.

(** [seatLockBackupModel.findOne({ paymentIntentId })] *)
Definition findBackupByPaymentIntent (paymentId : string)
    (m : gmap string SeatLockBackup.t) : option (string * SeatLockBackup.t) :=
  findOneDoc (λ _ l, match SeatLockBackup.paymentIntentId l with
                     | Some p => String.eqb p paymentId
                     | None => false
                     end) m.

(** [seatLockBackupModel.create(backupData)] inside its [try]: a backup
    whose id is taken is refused by the store and the error is only logged. *)
Definition backup (reservationId : string) (b : SeatLockBackup.t) : M unit :=
  modify (withBackups (λ m, match m !! reservationId with
                            | Some _ => m
                            | None => <[reservationId := b]> m
                            end)).

(** [createPaymentIntent(reservationId, customerInfo)]. The Firestore
    document and the SMS written at the end are best effort and touch no
    collection. *)
Definition createPaymentIntent (env : Env) (reservationId : string)
    (customerInfo : option Customer.t) : M PaymentIntent :=
  found ← BookingsService.findById reservationId;
  match found with
  | None => throw (BadRequestException "Reservation not found")
  | Some seatLock =>
      if negb (SeatLock.isStatus PENDING_PAYMENT seatLock)
      then throw (BadRequestException "Reservation is not in pending payment state")
      else if negb (bool_decide (is_Some (SeatLock.amountSummary seatLock)))
      then throw (BadRequestException "Reservation amount not calculated")
      else
        BookingsService.onSeats
          (SeatsService.setSeatsToPaymentPending (SeatLock.seatIds seatLock) reservationId);;
        updateBookings reservationId (Booking.setPaymentState PENDING);;
        match gatewayConfigError env with
        | Some error => throw error
        | None =>
            let userPhoneNumber :=
              if truthy (SeatLock.buyerId seatLock) then profilePhone env else None in
            seatLock1 ← match customerInfo with
                        | Some c =>
                            let updated :=
                              SeatLock.setCustomer
                                (orElse userPhoneNumber
                                   (orElse (Some (Customer.phoneNumber c))
                                      (SeatLock.phoneNumber seatLock)))
                                (Customer.name c) (Customer.email c)
                                (strOr (Customer.billingEmail c) (Customer.email c))
                                (strOr (Customer.billingAddress1 c) "")
                                (strOr (Customer.billingCity c) "")
                                (strOr (Customer.billingCountry c) "Sri Lanka")
                                (strOr (Customer.billingPostCode c) "")
                                seatLock in
                            BookingsService.save reservationId updated;;
                            ret updated
                        | None => ret seatLock
                        end;
            let paymentId :=
              "dialog_pi_" +:+ reservationId +:+ "_" +:+ pretty (now env) in
            match gatewayResponse env with
            | inl error => throw error
            | inr (url, responseId) =>
                let dialogGenieTransactionId := strOr responseId paymentId in
                let seatLock2 :=
                  SeatLock.setPaymentIntentId dialogGenieTransactionId
                    (SeatLock.setNumericState ReservationNumericState.IN_PAYMENT_GATEWAY
                       seatLock1) in
                BookingsService.save reservationId seatLock2;;
                backup reservationId
                  (SeatLockBackup.mk (SeatLock.eventId seatLock2) (SeatLock.buyerId seatLock2)
                     (SeatLock.sessionId seatLock2) (SeatLock.seatIds seatLock2)
                     ReservationNumericState.IN_PAYMENT_GATEWAY
                     (SeatLock.expiresAt seatLock2) (SeatLock.amountSummary seatLock2)
                     (Some dialogGenieTransactionId) (SeatLock.phoneNumber seatLock2)
                     (SeatLock.customerName seatLock2) (SeatLock.customerEmail seatLock2)
                     (SeatLock.billingEmail seatLock2) (SeatLock.billingAddress1 seatLock2)
                     (SeatLock.billingCity seatLock2) (SeatLock.billingCountry seatLock2)
                     (SeatLock.billingPostCode seatLock2) (now env));;
                ret (mkPaymentIntent dialogGenieTransactionId url)
            end
        end
  end.

(** The lookup that opens [handleDialogGenieCallback]: by payment id in
    the seat locks, then by payment id in the backups and back to the
    seat lock of the backup's id. *)
Definition resolveByPaymentId (paymentId : string) (db : Db) :
    option (string * SeatLock.t) :=
  match findByPaymentIntent paymentId (seatLocks db) with
  | Some found => Some found
  | None =>
      match findBackupByPaymentIntent paymentId (seatLockBackups db) with
      | Some backupLock =>
          match seatLocks db !! backupLock.1 with
          | Some seatLock => Some (backupLock.1, seatLock)
          | None => None
          end
      | None => None
      end
  end.

(** [handleDialogGenieCallback({ paymentId, status })]. The updates of the
    Firestore document are best effort and touch no collection. *)
Definition handleDialogGenieCallback (env : Env) (paymentId status : string) :
    M CallbackResult :=
  resolved ← get (resolveByPaymentId paymentId);
  match resolved with
  | None => throw (NotFoundException ("Reservation not found for payment ID: " +:+ paymentId))
  | Some (reservationId, _) =>
      if String.eqb status "SUCCESS" then
        fresh ← BookingsService.findById reservationId;
        match fresh with
        | None => throw (Error ("Failed to reload seat lock from MongoDB for reservation "
                                +:+ reservationId))
        | Some seatLock =>
            BookingsService.save reservationId
              (SeatLock.setNumericState ReservationNumericState.PAYMENT_SUCCESS seatLock);;
            confirmation ←
              tryCatch
                (confirmation ← BookingsService.confirmBooking env reservationId (Some paymentId);
                 updateBookings reservationId (Booking.setPayment SUCCESS paymentId);;
                 ret confirmation)
                (λ error,
                   existingBookings ←
                     get (λ db, BookingsService.findBookings reservationId (bookings db));
                   (if (0 <? length existingBookings)%nat
                    then tryCatch
                           (BookingsService.confirmBooking env reservationId (Some paymentId);;
                            ret tt)
                           (λ _, ret tt)
                    else ret tt);;
                   updateBookings reservationId (Booking.setPayment SUCCESS paymentId);;
                   throw error);
            ret (mkCallbackResult true reservationId (Some confirmation))
        end
      else
        updateBookings reservationId (Booking.setPayment FAILED paymentId);;
        ret (mkCallbackResult false reservationId None)
  end.

(** The lookup that opens [handleDialogGenieRedirect]: by [localId], the
    payment id being written to a seat lock that has none, then by payment
    id in the seat locks. *)
Definition resolveRedirect (localId paymentId : option string) :
    M (option (string * SeatLock.t)) :=
  byId ← (match localId with
          | Some lid =>
              if truthy localId then
                foundLock ← BookingsService.findById lid;
                match foundLock with
                | Some seatLock =>
                    match paymentId with
                    | Some pid =>
                        if truthy paymentId && negb (truthy (SeatLock.paymentIntentId seatLock))
                        then
                          let updated := SeatLock.setPaymentIntentId pid seatLock in
                          BookingsService.save lid updated;;
                          ret (Some (lid, updated))
                        else ret (Some (lid, seatLock))
                    | None => ret (Some (lid, seatLock))
                    end
                | None => ret None
                end
              else ret None
          | None => ret None
          end);
  match byId, paymentId with
  | None, Some pid =>
      if truthy paymentId
      then get (λ db, findByPaymentIntent pid (seatLocks db))
      else ret None
  | _, _ => ret byId
  end.

(** [handleDialogGenieRedirect(query, res)] *)
Definition handleDialogGenieRedirect (env : Env) (query : RedirectQuery.t) : M Redirect :=
  let paymentId :=
    orElse (RedirectQuery.id query)
      (orElse (RedirectQuery.transactionId query)
         (orElse (RedirectQuery.paymentId query) (RedirectQuery.transactionReference query))) in
  let status :=
    match RedirectQuery.status query with
    | Some s => if String.eqb s "" then None else Some s
    | None => None
    end in
  let status :=
    match status with
    | Some s => s
    | None =>
        match RedirectQuery.success query with
        | Some "false" => "FAILED"
        | _ => "SUCCESS"
        end
    end in
  let localId := orElse (RedirectQuery.localId query) (RedirectQuery.reservationId query) in
  resolved ← resolveRedirect localId paymentId;
  match resolved with
  | None => ret (ErrorPage "Reservation not found. Please contact support.")
  | Some (reservationId, seatLock) =>
      tryCatch
        (let finalPaymentId :=
           strOr paymentId (strOr (SeatLock.paymentIntentId seatLock) "") in
         result ← handleDialogGenieCallback env finalPaymentId status;
         if callbackSuccess result
         then ret (SuccessPage reservationId)
         else ret (PaymentFailedPage reservationId))
        (λ error,
           ret (ErrorPage (strOr (Some (exnMessage error))
                             "An error occurred processing your payment")))
  end.

(** The lookup that opens [checkAndConfirmBooking]. *)
Definition resolveManual (reservationId : string) (paymentId : option string) (db : Db) :
    option (string * SeatLock.t) :=
  match seatLocks db !! reservationId with
  | Some seatLock => Some (reservationId, seatLock)
  | None =>
      match paymentId with
      | Some pid =>
          if truthy paymentId then resolveByPaymentId pid db else None
      | None => None
      end
  end.

Record ManualResult := mkManualResult {
  manualReservationId : string;
  manualPaymentId : string;
  manualConfirmation : CallbackResult;
}.

(** [checkAndConfirmBooking(reservationId, paymentId)]; the status asked
    from the gateway is only logged. *)
Definition checkAndConfirmBooking (env : Env) (reservationId : string)
    (paymentId : option string) : M ManualResult :=
  resolved ← get (resolveManual reservationId paymentId);
  match resolved with
  | None => throw (NotFoundException ("Reservation with ID " +:+ reservationId +:+ " not found. "))
  | Some (foundId, seatLock) =>
      let finalPaymentId := orElse paymentId (SeatLock.paymentIntentId seatLock) in
      match finalPaymentId with
      | Some pid =>
          if truthy finalPaymentId
          then result ← handleDialogGenieCallback env pid "SUCCESS";
               ret (mkManualResult foundId pid result)
          else throw (BadRequestException "Payment ID is required.")
      | None => throw (BadRequestException "Payment ID is required.")
      end
  end.

Record FoundReservation := mkFoundReservation {
  found : bool;
  foundReservationId : string;
  foundPaymentId : string;
  foundStatus : ReservationStatus;
  foundPhoneNumber : option string;
  foundCustomerName : option string;
}.

(** [findReservationByPaymentId(paymentId)] *)
Definition findReservationByPaymentId (paymentId : string) : M FoundReservation :=
  seatLock ← get (λ db, findByPaymentIntent paymentId (seatLocks db));
  match seatLock with
  | None =>
      backupLock ← get (λ db, findBackupByPaymentIntent paymentId (seatLockBackups db));
      originalLock ← match backupLock with
                     | Some b => l ← BookingsService.findById b.1; ret (pair b.1 <$> l)
                     | None => ret None
                     end;
      match originalLock with
      | Some (id, l) =>
          ret (mkFoundReservation true id paymentId (SeatLock.status l)
                 (SeatLock.phoneNumber l) (SeatLock.customerName l))
      | None =>
          throw (NotFoundException
                   ("Reservation with payment ID " +:+ paymentId +:+ " not found"))
      end
  | Some (id, l) =>
      ret (mkFoundReservation true id paymentId (SeatLock.status l)
             (SeatLock.phoneNumber l) (SeatLock.customerName l))
  end.

End PaymentsService.

(** ** dialog-esms.service.ts *)

Module DialogEsmsService.

(** [toInt32]: the value of a whole number as a signed 32-bit integer. *)
Definition toInt32 (z : Z) : Z := (z + 2 ^ 31) mod 2 ^ 32 - 2 ^ 31.

(** The body of the [for] loop of [hashString]:
    [hash = ((hash << 5) - hash) + char; hash = hash & hash]. *)
Definition hashStep (hash char : Z) : Z :=
  let hash := toInt32 (Z.shiftl (toInt32 hash) 5) - hash + char in
  toInt32 hash.

(** [hashString(str)], the string given by its UTF-16 code units
    [str.charCodeAt(0)], [str.charCodeAt(1)], ... *)
Definition hashString (str : list Z) : Z :=
  Z.abs (foldl hashStep 0 str).

Definition isDigit (c : Ascii.ascii) : bool :=
  (48 <=? Ascii.N_of_ascii c)%N && (Ascii.N_of_ascii c <=? 57)%N.

(** [phone.replace(/\D/g, '')] *)
Fixpoint removeNonDigits (phone : string) : string :=
  match phone with
  | EmptyString => EmptyString
  | String c rest =>
      if isDigit c then String c (removeNonDigits rest) else removeNonDigits rest
  end.

(** [s.substring(n)] *)
Fixpoint substring (n : nat) (s : string) : string :=
  match n, s with
  | O, _ => s
  | S n', String _ rest => substring n' rest
  | S _, EmptyString => EmptyString
  end.

(** [length === 9 && startsWith('7')] *)
Definition isLocalMobile (s : string) : bool :=
  (String.length s =? 9)%nat && String.prefix "7" s.

(** The phone formatting of [sendSmsViaDialog]: from
    [let formattedPhone = phone.replace(...)] to the validation that
    throws. *)
Definition formatPhone (phone : string) : Exn + string :=
  let formattedPhone := removeNonDigits phone in
  let formattedPhone :=
    if negb (isLocalMobile formattedPhone) then
      let formattedPhone :=
        if String.prefix "94" formattedPhone && (9 <? String.length formattedPhone)%nat
        then substring 2 formattedPhone else formattedPhone in
      if String.prefix "0" formattedPhone
      then substring 1 formattedPhone else formattedPhone
    else formattedPhone in
  if negb (String.length formattedPhone =? 9)%nat || negb (String.prefix "7" formattedPhone)
  then inl (Error ("Invalid phone number format. Expected 9-digit number starting with 7, got: "
                   +:+ formattedPhone +:+ " (length: "
                   +:+ pretty (String.length formattedPhone) +:+ ")"))
  else inr formattedPhone.

End DialogEsmsService.

(** ** The time-to-live index of the seat locks *)

Module TtlIndex.

(** A TTL index on a date field of the seat locks:
    [index({ field: 1 }, { expireAfterSeconds, partialFilterExpression })]. *)
Record t := mk {
  field : SeatLock.t → Z;
  expireAfterSeconds : Z;
  partialFilterExpression : option (SeatLock.t → bool);
}.

(** [SeatLockSchema.index({ expiresAt: 1 }, { expireAfterSeconds: 0 })] *)
Definition seatLockTtl : t := mk SeatLock.expiresAt 0 None.

(** Whether the store's TTL monitor removes a document at time [now]:
    the indexed date plus [expireAfterSeconds] has passed, and the
    document is covered by the index. *)
Definition expired (idx : t) (now : Z) (l : SeatLock.t) : bool :=
  bool_decide (field idx l + expireAfterSeconds idx * 1000 ≤ now)
  && match partialFilterExpression idx with
     | Some covers => covers l
     | None => true
     end.

(** One pass of the TTL monitor over the seat locks. *)
Definition purge (idx : t) (now : Z) (m : gmap string SeatLock.t) : gmap string SeatLock.t :=
  map_imap (λ _ l, if expired idx now l then None else Some l) m.

End TtlIndex.

(** ** The system as a whole *)

Module System.

(** The calls that write to the seats, the seat locks or the bookings. *)
Inductive Op :=
  | Create (dto : CreateBookingDto.t)
  | UpdateTickets (reservationId : string) (dto : UpdateTicketsDto.t)
  | CreatePaymentIntent (reservationId : string) (customerInfo : option Customer.t)
  | Confirm (reservationId : string) (paymentIntentId : option string)
  | Cancel (reservationId : string)
  | Sweep
  | Callback (paymentId status : string)
  | RedirectBack (query : RedirectQuery.t)
  | CheckAndConfirm (reservationId : string) (paymentId : option string)
  | SetSeatBroken (seatId : string) (broken : bool).

(** The database a call leaves, whether it returned or threw. *)
Definition after {A} (m : M A) (db : Db) : Db := (m db).2.

Definition step (db : Db) (call : Env * Op) : Db :=
  let env := call.1 in
  match call.2 with
  | Create dto => after (BookingsService.createReservation env dto) db
  | UpdateTickets reservationId dto =>
      after (BookingsService.updateTickets reservationId dto) db
  | CreatePaymentIntent reservationId customerInfo =>
      after (PaymentsService.createPaymentIntent env reservationId customerInfo) db
  | Confirm reservationId paymentIntentId =>
      after (BookingsService.confirmBooking env reservationId paymentIntentId) db
  | Cancel reservationId => after (BookingsService.cancelReservation reservationId) db
  | Sweep => after (SeatLockExpiryService.checkExpiredReservations (now env)) db
  | Callback paymentId status =>
      after (PaymentsService.handleDialogGenieCallback env paymentId status) db
  | RedirectBack query => after (PaymentsService.handleDialogGenieRedirect env query) db
  | CheckAndConfirm reservationId paymentId =>
      after (PaymentsService.checkAndConfirmBooking env reservationId paymentId) db
  | SetSeatBroken seatId broken => after (SeatsService.setSeatBroken seatId broken) db
  end.

(** A run of the system: the calls served one after the other. *)
Definition run (db : Db) (calls : list (Env * Op)) : Db := foldl step db calls.


(** What happens to the store: a call is served, or the TTL monitor
    passes. *)
Inductive Event :=
  | Served (env : Env) (op : Op)
  | TtlPass (now : Z).



End System.

(** * Properties *)

Local Open Scope list_scope.

(** ** Sample data *)

Module Examples.
Definition seat (label : string) (st : SeatState) (r : option string) : Seat.t :=
  Seat.mk "ev1" label None (Some 1000%float) st r.

(** Seat [s1] is free, seat [s2] is held by reservation [r0]. *)
Definition hall : gmap string Seat.t :=
  <["s1" := seat "A1" AVAILABLE None]>
    (<["s2" := seat "A2" PAYMENT_PENDING (Some "r0")]> ∅).

(** Seat [s1] is already held by reservation [r1]. *)
Definition heldHall : gmap string Seat.t :=
  <["s1" := seat "A1" PAYMENT_PENDING (Some "r1")]> ∅.

Definition emptyDb : Db := mkDb ∅ ∅ ∅ [] ∅.

Definition concert : Event.t :=
  Event.mk "Concert" (Some "Town Hall") 0 500%float
    [TicketType.mk "VIP" 2000%float 1000%float]
    (Some (Commission.mk percentage 10%float)) None None true.

(** A reservation of seat [s1], expiring at time 1000, with a phone number
    and a price summary. *)
Definition lock (status : ReservationStatus) (numericState : Z)
    (paymentIntentId : option string) : SeatLock.t :=
  SeatLock.mk "ev1" None None ["s1"] status numericState 1000
    (Some (AmountSummary.mk 1000%float 100%float 0%float 1100%float))
    paymentIntentId (Some "0771234567") None None None None None None None.

(** Reservation [r1] holds seat [s1]. *)
Definition dbWith (l : SeatLock.t) : Db :=
  mkDb heldHall (<["r1" := l]> ∅) ∅ [] (<["ev1" := concert]> ∅).

(** The hall before any reservation: seat [s1] is free. *)
Definition openDb : Db :=
  mkDb (<["s1" := seat "A1" AVAILABLE None]> ∅) ∅ ∅ [] (<["ev1" := concert]> ∅).

(** A request to hold seat [s1], and the customer who pays for it. *)
Definition dto : CreateBookingDto.t := CreateBookingDto.mk "ev1" ["s1"] None None None.

Definition customer : Customer.t :=
  Customer.mk "Nimal" "nimal@example.com" None None None None None "0771234567".

(** Every collaborator answers; the clock shows [now]. *)
Definition envAt (now : Z) : Env :=
  mkEnv now "u1" true true (inr true) None None (inr ("https://pay.example/1", Some "txn1")).

(** The same, but the gateway's answer carries no transaction id. *)
Definition envWithoutId (now : Z) : Env :=
  mkEnv now "u1" true true (inr true) None None (inr ("https://pay.example/1", None)).
End Examples.

(** ** Properties of the seat store *)

(** A seat's hold reference is set exactly when the seat is pending. *)
Definition holdConsistent (s : Seat.t) : Prop :=
  is_Some (Seat.pendingReservationId s) ↔ Seat.state s = PAYMENT_PENDING.

Definition HoldInvariant (m : gmap string Seat.t) : Prop :=
  ∀ id s, m !! id = Some s → holdConsistent s.


(** What the locking loop has done after a prefix [p] of the request. *)
Definition lockedView (rid : string) (p : list string) (m : gmap string Seat.t)
  (id : string) : option Seat.t :=
  (λ s, if Seat.isState AVAILABLE s && includes id p
        then Seat.setHold PAYMENT_PENDING rid s else s) <$> m !! id.

(** ** What every call keeps *)

Definition CART : Z := ReservationNumericState.CART_TO_PAYMENT.

(** The seats of the bookings of a reservation, in the order of the
    collection. *)
Definition seatsBooked (rid : string) (bs : list Booking.t) : list string :=
  map (λ ib, Booking.seatId ib.2) (BookingsService.findBookings rid bs).

(** Every seat lock of [m] is still in [m'], with the same seats and with a
    numeric state that is the same or is not the cart state; and a seat lock
    that is new in [m'] has at least one seat. *)
Definition LocksGrow (m m' : gmap string SeatLock.t) : Prop :=
  (∀ id l, m !! id = Some l →
     ∃ l', m' !! id = Some l'
           ∧ SeatLock.seatIds l' = SeatLock.seatIds l
           ∧ (SeatLock.numericState l' = SeatLock.numericState l
              ∨ SeatLock.numericState l' ≠ CART))
  ∧ (∀ id l', m' !! id = Some l' → m !! id = None → SeatLock.seatIds l' ≠ []).

(** The bookings of a reservation are for the same seats as before, or
    there were none and there is now one for each seat of its seat lock,
    which names no seat twice. *)
Definition BookingsGrow (bs bs' : list Booking.t) (m' : gmap string SeatLock.t) : Prop :=
  ∀ rid, seatsBooked rid bs' = seatsBooked rid bs
         ∨ (seatsBooked rid bs = []
            ∧ ∃ l', m' !! rid = Some l' ∧ seatsBooked rid bs' = SeatLock.seatIds l'
                    ∧ NoDup (SeatLock.seatIds l')).

Definition Grows (db db' : Db) : Prop :=
  LocksGrow (seatLocks db) (seatLocks db')
  ∧ BookingsGrow (bookings db) (bookings db') (seatLocks db').

(** ** Confirmation *)





(** What a confirmation of reservation [rid], with seat lock [l] in [db],
    has done when it returns [c] and leaves [db1]. *)
Definition Confirmed (rid : string) (db : Db) (l : SeatLock.t)
    (c : BookingsService.Confirmation) (db1 : Db) : Prop :=
  ∃ l1, seatLocks db1 !! rid = Some l1
        ∧ SeatLock.status l1 = COMPLETED
        ∧ SeatLock.seatIds l1 = SeatLock.seatIds l
        ∧ c = BookingsService.mkConfirmation rid
                (BookingsService.findBookings rid (bookings db1)).*1 (SeatLock.seatIds l)
        ∧ (SeatLock.seatIds l ≠ [] → BookingsService.findBookings rid (bookings db1) ≠ [])
        ∧ (BookingsService.findBookings rid (bookings db) = [] →
           seatsBooked rid (bookings db1) = SeatLock.seatIds l)
        ∧ (BookingsService.findBookings rid (bookings db) ≠ [] → bookings db1 = bookings db).

(** ** The expiry sweep *)

(** The seat lock the sweeper writes back. *)
Definition timedOut (l : SeatLock.t) : SeatLock.t :=
  SeatLock.setNumericState ReservationNumericState.TIMEOUT (SeatLock.setStatus CANCELLED l).

(** A seat that is pending under one of the reservations [rids]. *)
Definition heldByAny (rids : list string) (s : Seat.t) : bool :=
  Seat.isState PAYMENT_PENDING s
  && match Seat.pendingReservationId s with
     | Some r => includes r rids
     | None => false
     end.

(** A seat that is pending under a reservation the sweep selects. *)
Definition sweptSeat (now : Z) (db : Db) (s : Seat.t) : bool :=
  Seat.isState PAYMENT_PENDING s
  && match Seat.pendingReservationId s with
     | Some r =>
         match seatLocks db !! r with
         | Some l => SeatLockExpiryService.expiredFilter now r l
         | None => false
         end
     | None => false
     end.

(** ** Pricing, as the specification words it *)

Module PricingSpec.

(** The tier of the event with a given name; of several, the last one. *)
Definition tierNamed (e : Event.t) (n : string) : option TicketType.t :=
  last (List.filter (λ tier, String.eqb (TicketType.name tier) n) (Event.ticketTypes e)).

(** A run of the characters [ws], one after the other. *)
Inductive Run (ws : list (list Ascii.ascii)) : list Ascii.ascii → Prop :=
| Run_nil : Run ws []
| Run_cons w l : w ∈ ws → Run ws l → Run ws (w ++ l).

(** [n] is [t] trimmed of white space: [t] is [n] between two runs of
    white-space characters (line terminators and the Unicode spaces
    included), and [n] neither begins nor ends with one. *)
Definition Trimmed (t n : string) : Prop :=
  ∃ l r,
    String.list_ascii_of_string t = l ++ String.list_ascii_of_string n ++ r
    ∧ Run whiteSpace l ∧ Run whiteSpace r
    ∧ ∀ c, c ∈ whiteSpaceCodePoints →
        ¬ utf8 c `prefix_of` String.list_ascii_of_string n
        ∧ ¬ utf8 c `suffix_of` String.list_ascii_of_string n.

(** The tier a seat is assigned to, when it exists on the event: the
    tier named by the seat's ticket type, trimmed of white space. *)
Definition assignedTier (e : Event.t) (s : Seat.t) : option TicketType.t :=
  match Seat.ticketType s with
  | Some t => if String.eqb (trim t) "" then None else tierNamed e (trim t)
  | None => None
  end.

(** The age class assigned to a seat: its last assignment, adult when it
    has none. *)
Definition ageClassOf (seatAssignments : list SeatAssignment.t) (seatId : string) : AgeClass :=
  default adult
    (SeatAssignment.ticketType
       <$> last (List.filter (λ a, String.eqb (SeatAssignment.seatId a) seatId)
                   seatAssignments)).

Definition tierPrice (tier : TicketType.t) (age : AgeClass) : float :=
  match age with
  | adult => TicketType.adultPrice tier
  | child => TicketType.childPrice tier
  end.

(** The unit price of the claim: tier price, else the seat's own price,
    else the event's default price. *)
Definition claimedUnitPrice (e : Event.t) (seatAssignments : list SeatAssignment.t)
    (seat : string * Seat.t) : float :=
  match assignedTier e seat.2 with
  | Some tier => tierPrice tier (ageClassOf seatAssignments seat.1)
  | None =>
      match Seat.basePrice seat.2 with
      | Some p => p
      | None => Event.defaultPrice e
      end
  end.

(** The unit price of the amended claim: the seat's own price counts only
    when it is greater than 0, and a default price that is zero or not a
    number counts as 0. *)
Definition unitPrice (e : Event.t) (seatAssignments : list SeatAssignment.t)
    (seat : string * Seat.t) : float :=
  match assignedTier e seat.2 with
  | Some tier => tierPrice tier (ageClassOf seatAssignments seat.1)
  | None =>
      match Seat.basePrice seat.2 with
      | Some p => if PrimFloat.ltb 0 p then p else numOrZero (Event.defaultPrice e)
      | None => numOrZero (Event.defaultPrice e)
      end
  end.

(** The sum of a list of prices, added from left to right. *)
Definition sum (prices : list float) : float :=
  foldl (λ acc p, (acc + p)%float) 0%float prices.

(** Percentage of the subtotal, or a flat value per seat; nothing when
    the event has no commission. *)
Definition commission (e : Event.t) (subtotal : float) (nSeats : nat) : float :=
  match Event.commission e with
  | Some (Commission.mk percentage value) => (subtotal * (value / 100))%float
  | Some (Commission.mk flat value) => (value * floatOfNat nSeats)%float
  | None => 0%float
  end.

(** The price summary, given the unit price of a seat. *)
Definition summaryWith (price : string * Seat.t → float) (e : Event.t)
    (seats : list (string * Seat.t)) : AmountSummary.t :=
  let subtotal := sum (price <$> seats) in
  let fee := commission e subtotal (length seats) in
  AmountSummary.mk subtotal fee 0%float (subtotal + fee + 0)%float.

End PricingSpec.

(** ** Making a reservation *)

(** The id [createReservation] gives to the reservation it makes. *)
Definition newReservationId (env : Env) : string := "reservation_" +:+ uuid env.

(** What [createReservation] asks of a request. *)
Definition Reservable (env : Env) (dto : CreateBookingDto.t) (db : Db) : Prop :=
  CreateBookingDto.eventId dto ≠ ""
  ∧ CreateBookingDto.seatIds dto ≠ []
  ∧ (∃ e, events db !! CreateBookingDto.eventId dto = Some e
          ∧ Event.isTicketSaleEnabled e = true
          ∧ BookingsService.isSalePeriodActive e (now env) = true)
  ∧ NoDup (CreateBookingDto.seatIds dto)
  ∧ (∀ id, id ∈ CreateBookingDto.seatIds dto →
       ∃ s, seats db !! id = Some s
            ∧ Seat.eventId s = CreateBookingDto.eventId dto
            ∧ Seat.state s = AVAILABLE)
  ∧ seatLocks db !! newReservationId env = None.

(** The reservation that [createReservation] answers and the seat lock it
    stores, for a request on an event [e]. *)
Definition reservationFor (env : Env) (dto : CreateBookingDto.t) (db : Db) (e : Event.t) :
    BookingsService.Reservation :=
  let seats := SeatsService.findByEventAndIds (CreateBookingDto.eventId dto)
                 (CreateBookingDto.seatIds dto) (seats db) in
  BookingsService.mkReservation (newReservationId env)
    (now env + default 600 (CreateBookingDto.holdSeconds dto) * 1000)
    (Pricing.calculateAmount seats e (floatOfNat (length seats)) 0%float)
    (CreateBookingDto.seatIds dto).

Definition seatLockFor (dto : CreateBookingDto.t) (r : BookingsService.Reservation) :
    SeatLock.t :=
  SeatLock.mk (CreateBookingDto.eventId dto) (CreateBookingDto.buyerId dto)
    (CreateBookingDto.sessionId dto) (CreateBookingDto.seatIds dto) PENDING_PAYMENT
    ReservationNumericState.CART_TO_PAYMENT (BookingsService.expiresAt r)
    (Some (BookingsService.amountEstimate r))
    None None None None None None None None None.

(** * Proofs *)

(** * Seat store *)

Ltac mem_solver :=
  intros; rewrite ?elem_of_app, ?list_elem_of_singleton, ?elem_of_nil in *;
  intuition (subst; eauto).

Section SeatStore.
Implicit Types (m : gmap string Seat.t) (s : Seat.t) (id rid : string).

Lemma SeatState_eqb_eq (a b : SeatState) : SeatState_eqb a b = true ↔ a = b.
Proof. destruct a, b; simpl; split; (done || discriminate). Qed.

Lemma isState_true st s : Seat.isState st s = true ↔ Seat.state s = st.
Proof. apply SeatState_eqb_eq. Qed.

Lemma heldBy_true rid s :
  Seat.heldBy rid s = true ↔ Seat.pendingReservationId s = Some rid.
Proof.
  unfold Seat.heldBy. destruct (Seat.pendingReservationId s) as [r|]; [|done].
  rewrite String.eqb_eq. split; congruence.
Qed.

Lemma includes_true id (l : list string) : includes id l = true ↔ id ∈ l.
Proof. unfold includes. apply bool_decide_eq_true. Qed.

Lemma lookup_updateMany {A} (P : string → A → bool) (f : A → A) (c : gmap string A) k :
  updateMany P f c !! k = (λ d, if P k d then f d else d) <$> c !! k.
Proof. unfold updateMany. rewrite map_lookup_imap. by destruct (c !! k). Qed.

Lemma includes_snoc id (p : list string) x :
  includes id (p ++ [x]) = includes id p || bool_decide (id = x).
Proof.
  unfold includes. apply eq_true_iff_eq.
  rewrite orb_true_iff, !bool_decide_eq_true.
  rewrite elem_of_app, list_elem_of_singleton. tauto.
Qed.

Lemma lockLoop_snoc p x rid m :
  SeatsService.lockLoop (p ++ [x]) rid m
  = SeatsService.lockStep rid (SeatsService.lockLoop p rid m) x.
Proof. unfold SeatsService.lockLoop. by rewrite foldl_app. Qed.

Lemma lockStep_acquire rid r x s :
  SeatsService.loopSeats r !! x = Some s → Seat.state s = AVAILABLE →
  SeatsService.lockStep rid r x
  = SeatsService.mkLoop (<[x := Seat.setHold PAYMENT_PENDING rid s]> (SeatsService.loopSeats r))
      (SeatsService.failedIds r) (SeatsService.lockedIds r ++ [x]).
Proof.
  intros Hx Hs. unfold SeatsService.lockStep, SeatsService.lockOne.
  rewrite Hx. by rewrite (proj2 (isState_true AVAILABLE s) Hs).
Qed.

Lemma lockStep_fail rid r x :
  (∀ s, SeatsService.loopSeats r !! x = Some s → Seat.state s ≠ AVAILABLE) →
  SeatsService.lockStep rid r x
  = SeatsService.mkLoop (SeatsService.loopSeats r)
      (SeatsService.failedIds r ++ [x]) (SeatsService.lockedIds r).
Proof.
  intros Hx. unfold SeatsService.lockStep, SeatsService.lockOne.
  destruct (SeatsService.loopSeats r !! x) as [s|]; [|done].
  destruct (Seat.isState AVAILABLE s) eqn:E; [|done].
  apply isState_true in E. by destruct (Hx s).
Qed.

Lemma lockedView_snoc_same rid p x m :
  lockedView rid (p ++ [x]) m x
  = (λ s, if Seat.isState AVAILABLE s
          then Seat.setHold PAYMENT_PENDING rid s else s) <$> m !! x.
Proof.
  unfold lockedView. rewrite includes_snoc, bool_decide_eq_true_2 by done.
  rewrite orb_true_r. destruct (m !! x) as [s|]; simpl; [|done].
  by rewrite andb_true_r.
Qed.

Lemma lockedView_snoc_other rid p x m id :
  id ≠ x → lockedView rid (p ++ [x]) m id = lockedView rid p m id.
Proof.
  intros Hne. unfold lockedView.
  by rewrite includes_snoc, bool_decide_eq_false_2, orb_false_r.
Qed.

Lemma lockLoop_spec p rid m :
  let r := SeatsService.lockLoop p rid m in
  (∀ id, SeatsService.loopSeats r !! id = lockedView rid p m id)
  ∧ (∀ id, id ∈ SeatsService.lockedIds r
           ↔ id ∈ p ∧ ∃ s, m !! id = Some s ∧ Seat.state s = AVAILABLE)
  ∧ (∀ id, id ∈ SeatsService.failedIds r → id ∈ p)
  ∧ (∀ id, id ∈ p → (∀ s, m !! id = Some s → Seat.state s ≠ AVAILABLE)
           → id ∈ SeatsService.failedIds r).
Proof.
  induction p as [|x p IH] using rev_ind; simpl.
  - split_and!; [|mem_solver..].
    intros id. unfold lockedView. destruct (m !! id) as [s|]; simpl; [|done].
    by rewrite andb_false_r.
  - rewrite lockLoop_snoc. destruct IH as (Hm & Hl & Hf & Hf').
    set (r := SeatsService.lockLoop p rid m) in *.
    destruct (decide (x ∈ p)) as [Hin|Hnin].
    + (* a repeated id: the seat is no longer available *)
      rewrite lockStep_fail.
      2:{ intros s. rewrite Hm. unfold lockedView.
          rewrite (proj2 (includes_true x p) Hin).
          destruct (m !! x) as [s0|]; simpl; [|done].
          destruct (Seat.isState AVAILABLE s0) eqn:E; simpl.
          - intros [= <-]. done.
          - intros [= <-] Hs. apply isState_true in Hs. congruence. }
      simpl. split_and!.
      * intros id. rewrite Hm. destruct (decide (id = x)) as [->|Hne].
        -- rewrite lockedView_snoc_same. unfold lockedView.
           rewrite (proj2 (includes_true x p) Hin).
           destruct (m !! x) as [s0|]; simpl; [|done]. by rewrite andb_true_r.
        -- by rewrite lockedView_snoc_other.
      * intros id. rewrite Hl. mem_solver.
      * mem_solver.
      * intros id Hid Hna. apply elem_of_app in Hid as [Hid|Hid]; mem_solver.
    + destruct (m !! x) as [s|] eqn:Hmx.
      * destruct (decide (Seat.state s = AVAILABLE)) as [Hav|Hnav].
        -- (* acquired now *)
           assert (SeatsService.loopSeats r !! x = Some s) as Hrx.
           { rewrite Hm. unfold lockedView. rewrite Hmx. simpl.
             destruct (includes x p) eqn:E; [by apply includes_true in E|].
             by rewrite andb_false_r. }
           rewrite (lockStep_acquire rid r x s Hrx Hav). simpl. split_and!.
           ++ intros id. destruct (decide (id = x)) as [->|Hne].
              ** rewrite lookup_insert_eq, lockedView_snoc_same, Hmx. simpl.
                 by rewrite (proj2 (isState_true AVAILABLE s) Hav).
              ** rewrite lookup_insert_ne by done.
                 by rewrite lockedView_snoc_other, Hm.
           ++ intros id. rewrite elem_of_app, Hl, list_elem_of_singleton.
              rewrite elem_of_app, list_elem_of_singleton. split.
              ** intros [[? ?]| ->]; [tauto|]. split; [tauto|eauto].
              ** intros [[?| ->] ?]; tauto.
           ++ mem_solver.
           ++ intros id Hid Hna. apply elem_of_app in Hid as [Hid|Hid]; [mem_solver|].
              apply list_elem_of_singleton in Hid. subst. by destruct (Hna s).
        -- (* the seat is not available *)
           rewrite lockStep_fail.
           2:{ intros s0. rewrite Hm. unfold lockedView. rewrite Hmx. simpl.
               destruct (Seat.isState AVAILABLE s) eqn:E;
                 [by apply isState_true in E|]. simpl. by intros [= <-]. }
           simpl. split_and!.
           ++ intros id. rewrite Hm. destruct (decide (id = x)) as [->|Hne].
              ** rewrite lockedView_snoc_same. unfold lockedView. rewrite Hmx. simpl.
                 destruct (Seat.isState AVAILABLE s) eqn:E;
                   [by apply isState_true in E|done].
              ** by rewrite lockedView_snoc_other.
           ++ intros id. rewrite Hl, elem_of_app, list_elem_of_singleton. split.
              ** intros [? ?]; tauto.
              ** intros [[?| ->] (s0 & Hs0 & ?)]; [eauto|]. congruence.
           ++ mem_solver.
           ++ intros id Hid Hna. apply elem_of_app in Hid as [Hid|Hid]; mem_solver.
      * (* no such seat *)
        rewrite lockStep_fail.
        2:{ intros s0. rewrite Hm. unfold lockedView. by rewrite Hmx. }
        simpl. split_and!.
        -- intros id. rewrite Hm. destruct (decide (id = x)) as [->|Hne].
           ++ rewrite lockedView_snoc_same. unfold lockedView. by rewrite Hmx.
           ++ by rewrite lockedView_snoc_other.
        -- intros id. rewrite Hl, elem_of_app, list_elem_of_singleton. split.
           ++ intros [? ?]; tauto.
           ++ intros [[?| ->] (s0 & Hs0 & ?)]; [eauto|]. congruence.
        -- mem_solver.
        -- intros id Hid Hna. apply elem_of_app in Hid as [Hid|Hid]; mem_solver.
Qed.

(** The locking loop fails on no seat exactly when it is given distinct
    ids of available seats. *)
Lemma lockLoop_failed_nil p rid m :
  SeatsService.failedIds (SeatsService.lockLoop p rid m) = []
  ↔ NoDup p ∧ ∀ id, id ∈ p → ∃ s, m !! id = Some s ∧ Seat.state s = AVAILABLE.
Proof.
  induction p as [|x p IH] using rev_ind.
  - split; [|done]. intros _. split; [constructor|]. intros id Hid. by apply elem_of_nil in Hid.
  - rewrite lockLoop_snoc. destruct (lockLoop_spec p rid m) as (Hm & _).
    set (r := SeatsService.lockLoop p rid m) in *.
    rewrite NoDup_app. setoid_rewrite elem_of_app. setoid_rewrite list_elem_of_singleton.
    destruct (SeatsService.loopSeats r !! x) as [s|] eqn:Hrx.
    + destruct (decide (Seat.state s = AVAILABLE)) as [Hav|Hnav].
      * rewrite (lockStep_acquire rid r x s Hrx Hav). simpl. rewrite IH.
        rewrite Hm in Hrx. unfold lockedView in Hrx.
        destruct (m !! x) as [s0|] eqn:Hmx; simpl in Hrx; [|done].
        destruct (Seat.isState AVAILABLE s0) eqn:E0, (includes x p) eqn:Ex;
          simpl in Hrx; injection Hrx as <-; try done.
        -- apply isState_true in E0.
           assert (x ∉ p) as Hx by (intros Hx; apply includes_true in Hx; congruence).
           split.
           ++ intros [Hnd Hall]. split.
              ** split_and!; [done| |apply NoDup_singleton].
                 intros y Hy Hy'. by subst.
              ** intros id [Hid| ->]; eauto.
           ++ intros [(Hnd & _ & _) Hall]. split; [done|]. intros id Hid. apply Hall. by left.
        -- apply isState_true in Hav. congruence.
        -- apply isState_true in Hav. congruence.
      * rewrite lockStep_fail by (intros s'; rewrite Hrx; by intros [= <-]).
        simpl. split; [by intros [_ [=]]%app_nil|].
        intros [(_ & Hx & _) Hall]. exfalso.
        destruct (Hall x (or_intror eq_refl)) as (s0 & Hs0 & Hav0).
        rewrite Hm in Hrx. unfold lockedView in Hrx. rewrite Hs0 in Hrx. simpl in Hrx.
        destruct (includes x p) eqn:Ex.
        -- apply includes_true in Ex. by apply (Hx x Ex).
        -- rewrite andb_false_r in Hrx. injection Hrx as <-. done.
    + rewrite lockStep_fail by (intros s'; by rewrite Hrx).
      simpl. split; [by intros [_ [=]]%app_nil|].
      intros [_ Hall]. exfalso.
      destruct (Hall x (or_intror eq_refl)) as (s0 & Hs0 & _).
      rewrite Hm in Hrx. unfold lockedView in Hrx. by rewrite Hs0 in Hrx.
Qed.





(** *** The hold invariant *)

Lemma holdConsistent_setHold rid s : holdConsistent (Seat.setHold PAYMENT_PENDING rid s).
Proof. unfold holdConsistent. simpl. split; eauto. Qed.

Lemma holdConsistent_setStateUnset st s :
  st ≠ PAYMENT_PENDING → holdConsistent (Seat.setStateUnset st s).
Proof.
  intros Hst. unfold holdConsistent. simpl. split; [by intros [? [=]]|done].
Qed.

Lemma HoldInvariant_updateMany P f m :
  (∀ id s, m !! id = Some s → holdConsistent s → P id s = true → holdConsistent (f s)) →
  HoldInvariant m → HoldInvariant (updateMany P f m).
Proof.
  intros Hf Hm id s. rewrite lookup_updateMany.
  destruct (m !! id) as [s0|] eqn:Hs0; simpl; [|done]. intros [= <-].
  destruct (P id s0) eqn:HP; eauto.
Qed.

Lemma atomicConfirmSeats_preserves seatIds rid m :
  HoldInvariant m → HoldInvariant (SeatsService.atomicConfirmSeats seatIds rid m).1.
Proof.
  apply HoldInvariant_updateMany. intros. by apply holdConsistent_setStateUnset.
Qed.

Lemma releaseSeatsByReservation_preserves rid m :
  HoldInvariant m → HoldInvariant (SeatsService.releaseSeatsByReservation rid m).1.
Proof.
  apply HoldInvariant_updateMany. intros. by apply holdConsistent_setStateUnset.
Qed.

Lemma setSeatsToPaymentPending_preserves seatIds rid m :
  HoldInvariant m → HoldInvariant (SeatsService.setSeatsToPaymentPending seatIds rid m).1.
Proof.
  apply HoldInvariant_updateMany. intros. apply holdConsistent_setHold.
Qed.

Lemma lockLoop_preserves seatIds rid m :
  HoldInvariant m →
  HoldInvariant (SeatsService.loopSeats (SeatsService.lockLoop seatIds rid m)).
Proof.
  intros Hm id s. destruct (lockLoop_spec seatIds rid m) as (Hl & _). rewrite Hl.
  unfold lockedView. destruct (m !! id) as [s0|] eqn:Hs0; simpl; [|done]. intros [= <-].
  destruct (_ && _); [apply holdConsistent_setHold|eauto].
Qed.

Lemma atomicLockSeats_preserves seatIds rid m :
  HoldInvariant m → HoldInvariant (SeatsService.atomicLockSeats seatIds rid m).1.
Proof.
  intros Hm. unfold SeatsService.atomicLockSeats.
  pose proof (lockLoop_preserves seatIds rid m Hm) as Hloop.
  destruct (0 <? length _)%nat; simpl; [|done].
  destruct (0 <? length _)%nat; simpl; [|done].
  revert Hloop. apply HoldInvariant_updateMany. intros.
  by apply holdConsistent_setStateUnset.
Qed.

(** C5, the failing input: on a seat held by reservation [r1],
    [setSeatBroken] changes the state and leaves the hold reference, so the
    seat store no longer satisfies the hold invariant. *)
Theorem setSeatBroken_keeps_hold_reference :
  let db := withSeats (λ _, Examples.heldHall) Examples.emptyDb in
  let after := SeatsService.setSeatBroken "s1" true db in
  HoldInvariant (seats db)
  ∧ after.1 = inr (Examples.seat "A1" BROKEN (Some "r1"))
  ∧ seats after.2 !! "s1" = Some (Examples.seat "A1" BROKEN (Some "r1"))
  ∧ ¬ HoldInvariant (seats after.2).
Proof.
  split_and!.
  - intros id s. simpl. unfold Examples.heldHall.
    destruct (decide (id = "s1")) as [->|Hne].
    + rewrite lookup_insert_eq. intros [= <-]. unfold holdConsistent. simpl. split; eauto.
    + rewrite lookup_insert_ne by done. by rewrite lookup_empty.
  - reflexivity.
  - reflexivity.
  - intros H. specialize (H "s1" _ eq_refl). unfold holdConsistent in H. simpl in H.
    assert (BROKEN = PAYMENT_PENDING) as E by (apply H; eauto). discriminate.
Qed.

(** [setSeatsToPaymentPending] rewrites every requested seat that is
    available or pending, whatever hold the seat had. *)
Lemma setSeatsToPaymentPending_lookup seatIds rid m id s :
  id ∈ seatIds → m !! id = Some s →
  Seat.state s = AVAILABLE ∨ Seat.state s = PAYMENT_PENDING →
  (SeatsService.setSeatsToPaymentPending seatIds rid m).1 !! id
  = Some (Seat.setHold PAYMENT_PENDING rid s).
Proof.
  intros Hid Hs Hst. unfold SeatsService.setSeatsToPaymentPending. simpl.
  rewrite lookup_updateMany, Hs. simpl. f_equal.
  unfold SeatsService.pendingFilter.
  rewrite (proj2 (includes_true id seatIds) Hid). simpl.
  destruct Hst as [Hst|Hst]; rewrite (proj2 (isState_true _ s) Hst);
    by rewrite ?orb_true_r.
Qed.
End SeatStore.

Section Run.
Context {A B : Type}.
Implicit Types (k : A → M B) (db : Db).

Lemma run_bind (m : M A) k db :
  (m ≫= k) db = match m db with
                | (inr a, db') => k a db'
                | (inl e, db') => (inl e, db')
                end.
Proof. reflexivity. Qed.

Lemma run_get (f : Db → A) k db : (get f ≫= k) db = k (f db) db.
Proof. reflexivity. Qed.

Lemma run_ret (a : A) k db : (ret a ≫= k) db = k a db.
Proof. reflexivity. Qed.

Lemma run_throw e k db : (throw e ≫= k) db = (inl e, db).
Proof. reflexivity. Qed.
End Run.

Lemma run_modify {B} f (k : unit → M B) db : (modify f ≫= k) db = k tt (f db).
Proof. reflexivity. Qed.

Lemma run_onSeats {A B} (f : gmap string Seat.t → gmap string Seat.t * A) (k : A → M B) db :
  (BookingsService.onSeats f ≫= k) db = k (f (seats db)).2 (withSeats (λ _, (f (seats db)).1) db).
Proof. reflexivity. Qed.

Ltac mrun :=
  repeat first
    [ rewrite run_get | rewrite run_ret | rewrite run_throw | rewrite run_modify
    | rewrite run_onSeats ].

Lemma run_assoc {A B C} (m : M A) (k1 : A → M B) (k2 : B → M C) db :
  ((m ≫= k1) ≫= k2) db = (m ≫= λ a, k1 a ≫= k2) db.
Proof. rewrite !run_bind. by destruct (m db) as [[e|a] db']. Qed.

Lemma run_save_bind {B} id l (k : unit → M B) db :
  (BookingsService.save id l ≫= k) db = k tt (withSeatLocks (λ m, <[id := l]> m) db).
Proof. reflexivity. Qed.

Lemma run_findById {B} id (k : option SeatLock.t → M B) db :
  (BookingsService.findById id ≫= k) db = k (seatLocks db !! id) db.
Proof. reflexivity. Qed.

Lemma run_updateBookings {B} rid f (k : unit → M B) db :
  (PaymentsService.updateBookings rid f ≫= k) db
  = k tt (withBookings (map (λ b, if String.eqb (Booking.reservationId b) rid
                                  then f b else b)) db).
Proof. reflexivity. Qed.

Ltac mrun ::=
  repeat first
    [ rewrite run_assoc
    | rewrite run_get | rewrite run_ret | rewrite run_throw | rewrite run_modify
    | rewrite run_onSeats | rewrite run_save_bind | rewrite run_findById
    | rewrite run_updateBookings ];
  cbn [BookingsService.save PaymentsService.updateBookings modify throw ret fst snd
       seatLocks seats bookings seatLockBackups events
       withSeats withSeatLocks withBookings withBackups].

(** ** Queries *)

Lemma elem_of_findDocs {A} (P : string → A → bool) (m : gmap string A) id d :
  (id, d) ∈ findDocs P m ↔ m !! id = Some d ∧ P id d = true.
Proof.
  unfold findDocs. rewrite list_elem_of_In, List.filter_In, <- list_elem_of_In.
  by rewrite elem_of_map_to_list.
Qed.

Lemma NoDup_findDocs {A} (P : string → A → bool) (m : gmap string A) :
  NoDup (findDocs P m).*1.
Proof.
  unfold findDocs. pose proof (NoDup_fst_map_to_list m) as Hnd.
  induction (map_to_list m) as [|[k d] kds IH]; [constructor|].
  rewrite fmap_cons in Hnd. apply NoDup_cons in Hnd as [Hk Hnd]. simpl.
  destruct (P k d); [|by apply IH]. rewrite fmap_cons. apply NoDup_cons. split; [|by apply IH].
  intros Hin. apply Hk. apply list_elem_of_fmap in Hin as ([k' d'] & -> & Hin).
  apply list_elem_of_In, List.filter_In in Hin as [Hin _]. apply list_elem_of_In in Hin.
  apply list_elem_of_fmap. by exists (k', d').
Qed.

(** A query that selects among the ids [ids] and matches as many documents
    as [ids] is long has matched a document for every one of them, and
    [ids] names none of them twice. *)
Lemma countDocs_all {A} (P : string → A → bool) (ids : list string) (m : gmap string A) :
  (∀ id d, P id d = true → id ∈ ids) →
  countDocs P m = length ids →
  NoDup ids ∧ ∀ id, id ∈ ids → ∃ d, m !! id = Some d ∧ P id d = true.
Proof.
  intros HP Hlen.
  assert ((findDocs P m).*1 ≡ₚ ids) as Hperm.
  { apply submseteq_length_Permutation.
    - apply NoDup_submseteq; [apply NoDup_findDocs|].
      intros k Hk. apply list_elem_of_fmap in Hk as ([k' d] & -> & Hin).
      apply elem_of_findDocs in Hin as [_ Hin]. by eapply HP.
    - unfold countDocs in Hlen. rewrite length_fmap. lia. }
  split; [rewrite <- Hperm; apply NoDup_findDocs|]. intros id Hid.
  rewrite <- Hperm in Hid. apply list_elem_of_fmap in Hid as ([k d] & -> & Hin).
  apply elem_of_findDocs in Hin. eauto.
Qed.

(** ** The bookings of a reservation *)

Lemma seatsBooked_filter rid bs :
  seatsBooked rid bs
  = map Booking.seatId (List.filter (λ b, String.eqb (Booking.reservationId b) rid) bs).
Proof.
  unfold seatsBooked, BookingsService.findBookings.
  change (imap pair bs) with (imap (λ i, pair (id i)) bs).
  generalize (@id nat). intros g. revert g.
  induction bs as [|b bs IH]; intros g; [done|].
  simpl. destruct (String.eqb _ rid); simpl; [f_equal|]; apply (IH (g ∘ S)).
Qed.

Lemma seatsBooked_app rid bs bs' :
  seatsBooked rid (bs ++ bs') = seatsBooked rid bs ++ seatsBooked rid bs'.
Proof. by rewrite !seatsBooked_filter, List.filter_app, map_app. Qed.

Lemma seatsBooked_own rid bs :
  Forall (λ b, Booking.reservationId b = rid) bs → seatsBooked rid bs = map Booking.seatId bs.
Proof.
  rewrite seatsBooked_filter. induction 1 as [|b bs Hb _ IH]; [done|].
  simpl. rewrite Hb, String.eqb_refl. simpl. by f_equal.
Qed.

Lemma seatsBooked_other rid rid' bs :
  rid' ≠ rid → Forall (λ b, Booking.reservationId b = rid) bs → seatsBooked rid' bs = [].
Proof.
  intros Hne. rewrite seatsBooked_filter. induction 1 as [|b bs Hb _ IH]; [done|].
  simpl. rewrite Hb. by destruct (String.eqb_spec rid rid').
Qed.

Lemma seatsBooked_map rid rid0 (f : Booking.t → Booking.t) bs :
  (∀ b, Booking.reservationId (f b) = Booking.reservationId b
        ∧ Booking.seatId (f b) = Booking.seatId b) →
  seatsBooked rid (map (λ b, if String.eqb (Booking.reservationId b) rid0 then f b else b) bs)
  = seatsBooked rid bs.
Proof.
  intros Hf. rewrite !seatsBooked_filter. induction bs as [|b bs IH]; [done|].
  simpl. destruct (Hf b) as [Hr Hs].
  destruct (String.eqb (Booking.reservationId b) rid0); rewrite ?Hr;
    destruct (String.eqb (Booking.reservationId b) rid); simpl; rewrite ?Hs, IH; done.
Qed.

Lemma seatsBooked_nil rid bs :
  seatsBooked rid bs = [] ↔ BookingsService.findBookings rid bs = [].
Proof. unfold seatsBooked. by destruct (BookingsService.findBookings rid bs). Qed.

(** ** The relation every call keeps *)

Lemma LocksGrow_refl m : LocksGrow m m.
Proof. split; [intros id l Hl; eauto|intros id l Hl Hn; congruence]. Qed.

Lemma LocksGrow_trans m1 m2 m3 : LocksGrow m1 m2 → LocksGrow m2 m3 → LocksGrow m1 m3.
Proof.
  intros [Ha12 Hb12] [Ha23 Hb23]. split.
  - intros id l Hl. destruct (Ha12 id l Hl) as (l2 & Hl2 & Hids2 & H2).
    destruct (Ha23 id l2 Hl2) as (l3 & Hl3 & Hids3 & H3).
    exists l3. split_and!; [done|congruence|].
    destruct H3 as [H3|H3]; [|by right]. rewrite H3. exact H2.
  - intros id l3 Hl3 Hn. destruct (m2 !! id) as [l2|] eqn:Hl2.
    + destruct (Ha23 id l2 Hl2) as (l3' & Hl3' & Hids3 & _).
      assert (l3' = l3) as -> by congruence. rewrite Hids3. by eapply Hb12.
    + by eapply Hb23.
Qed.

Lemma LocksGrow_insert m id l l' :
  m !! id = Some l →
  SeatLock.seatIds l' = SeatLock.seatIds l →
  SeatLock.numericState l' = SeatLock.numericState l ∨ SeatLock.numericState l' ≠ CART →
  LocksGrow m (<[id := l']> m).
Proof.
  intros Hl Hids Hns. split.
  - intros id0 l0 Hl0. destruct (decide (id0 = id)) as [->|Hne].
    + rewrite lookup_insert_eq. exists l'. split_and!; [done|congruence|congruence].
    + rewrite lookup_insert_ne by done. eauto.
  - intros id0 l0 Hl0 Hn. destruct (decide (id0 = id)) as [->|Hne]; [congruence|].
    rewrite lookup_insert_ne in Hl0 by done. congruence.
Qed.

Lemma LocksGrow_insert_new m id l' :
  m !! id = None → SeatLock.seatIds l' ≠ [] → LocksGrow m (<[id := l']> m).
Proof.
  intros Hl Hids. split.
  - intros id0 l0 Hl0. destruct (decide (id0 = id)) as [->|Hne]; [congruence|].
    rewrite lookup_insert_ne by done. eauto.
  - intros id0 l0 Hl0 Hn. destruct (decide (id0 = id)) as [->|Hne].
    + rewrite lookup_insert_eq in Hl0. congruence.
    + rewrite lookup_insert_ne in Hl0 by done. congruence.
Qed.

Lemma BookingsGrow_refl bs m : BookingsGrow bs bs m.
Proof. intros rid. by left. Qed.

Lemma BookingsGrow_map rid (f : Booking.t → Booking.t) bs m :
  (∀ b, Booking.reservationId (f b) = Booking.reservationId b
        ∧ Booking.seatId (f b) = Booking.seatId b) →
  BookingsGrow bs
    (map (λ b, if String.eqb (Booking.reservationId b) rid then f b else b) bs) m.
Proof. intros Hf rid'. left. by apply seatsBooked_map. Qed.

(** The bookings that a confirmation creates. *)
Lemma BookingsGrow_created rid l bs news m :
  seatsBooked rid bs = [] →
  Forall (λ b, Booking.reservationId b = rid) news →
  map Booking.seatId news = SeatLock.seatIds l →
  NoDup (SeatLock.seatIds l) →
  m !! rid = Some l →
  BookingsGrow bs (bs ++ news) m.
Proof.
  intros Hnil Hall Hids Hnd Hl rid'. rewrite seatsBooked_app.
  destruct (decide (rid' = rid)) as [->|Hne].
  - right. split; [done|]. exists l. split_and!; [done| |done].
    by rewrite Hnil, seatsBooked_own.
  - left. by rewrite (seatsBooked_other rid rid' news), app_nil_r.
Qed.

Lemma Grows_refl db : Grows db db.
Proof. split; [apply LocksGrow_refl|apply BookingsGrow_refl]. Qed.

Lemma Grows_trans db1 db2 db3 : Grows db1 db2 → Grows db2 db3 → Grows db1 db3.
Proof.
  intros [HL12 HB12] [HL23 HB23]. split; [by eapply LocksGrow_trans|].
  intros rid.
  destruct (HB12 rid) as [H12|[H12 (l2 & Hl2 & Hb2 & Hnd2)]];
    destruct (HB23 rid) as [H23|[H23 (l3 & Hl3 & Hb3 & Hnd3)]].
  - left. congruence.
  - right. split; [congruence|]. eauto.
  - right. split; [done|].
    destruct (proj1 HL23 rid l2 Hl2) as (l3 & Hl3 & Hids & _).
    exists l3. rewrite Hids. split_and!; [done|congruence|done].
  - right. split; [done|]. eauto.
Qed.

(** A call that writes neither a seat lock nor a booking. *)
Lemma Grows_same db db' :
  seatLocks db' = seatLocks db → bookings db' = bookings db → Grows db db'.
Proof. intros Hl Hb. unfold Grows. rewrite Hl, Hb. apply Grows_refl. Qed.

Lemma Grows_updateBookings rid (f : Booking.t → Booking.t) db db' :
  (∀ b, Booking.reservationId (f b) = Booking.reservationId b
        ∧ Booking.seatId (f b) = Booking.seatId b) →
  Grows db db' →
  Grows db (withBookings
              (map (λ b, if String.eqb (Booking.reservationId b) rid then f b else b)) db').
Proof.
  intros Hf H. eapply Grows_trans; [exact H|].
  split; [apply LocksGrow_refl|by apply BookingsGrow_map].
Qed.

(** A relation between the database before and after that every step of a
    loop keeps is kept by the loop. *)
Lemma mapAll_keeps {A B} (R : Db → Db → Prop) (f : A → M B) xs :
  (∀ db, R db db) → (∀ a b c, R a b → R b c → R a c) →
  (∀ x db, R db (f x db).2) → ∀ db, R db (mapAll xs f db).2.
Proof.
  intros Hrefl Htrans Hf. induction xs as [|x xs IH]; intros db; simpl.
  - apply Hrefl.
  - rewrite run_bind. pose proof (Hf x db) as Hx.
    destruct (f x db) as [[e|y] db1]; simpl in *; [done|].
    rewrite run_bind. pose proof (IH db1) as Hxs.
    destruct (mapAll xs f db1) as [[e|ys] db2]; simpl in *; eauto.
Qed.

Lemma forEach_keeps {A} (R : Db → Db → Prop) (f : A → M unit) xs :
  (∀ db, R db db) → (∀ a b c, R a b → R b c → R a c) →
  (∀ x db, R db (f x db).2) → ∀ db, R db (forEach xs f db).2.
Proof.
  intros Hrefl Htrans Hf. induction xs as [|x xs IH]; intros db; simpl.
  - apply Hrefl.
  - rewrite run_bind. pose proof (Hf x db) as Hx.
    destruct (f x db) as [[e|y] db1]; simpl in *; [done|].
    eapply Htrans; [exact Hx|apply IH].
Qed.

Lemma findOne_db id db : (SeatsService.findOne id db).2 = db.
Proof. unfold SeatsService.findOne. mrun. by destruct (seats db !! id). Qed.

Lemma EventsService_findOne_db id db : (EventsService.findOne id db).2 = db.
Proof. unfold EventsService.findOne. mrun. by destruct (events db !! id). Qed.

Lemma mapAll_findOne_db ids db : (mapAll ids SeatsService.findOne db).2 = db.
Proof.
  apply (mapAll_keeps (λ a b, b = a)); [done|congruence|]. intros. apply findOne_db.
Qed.

Lemma notifyFirebase_db env rid l db : (BookingsService.notifyFirebase env rid l db).2 = db.
Proof.
  unfold BookingsService.notifyFirebase.
  destruct (negb (truthy _)); [done|]. destruct (negb (firebaseInitialized env)); [done|].
  destruct (negb (firestoreAvailable env)); [done|].
  rewrite run_bind. pose proof (EventsService_findOne_db (SeatLock.eventId l) db) as He.
  destruct (EventsService.findOne _ db) as [[e|ev] db1]; simpl in He; subst; [done|].
  rewrite run_bind. pose proof (mapAll_findOne_db (SeatLock.seatIds l) db) as Hs.
  destruct (mapAll _ _ db) as [[e|ss] db1]; simpl in Hs; subst; [done|].
  by destruct (sendBookingMessage env) as [e|[]].
Qed.

(** ** Booking creation *)

Lemma createBooking_run rid l sid db r db' :
  BookingsService.createBooking rid l sid db = (inr r, db') →
  r.1 = length (bookings db)
  ∧ Booking.reservationId r.2 = rid ∧ Booking.seatId r.2 = sid
  ∧ bookings db' = bookings db ++ [r.2]
  ∧ seats db' = seats db ∧ seatLocks db' = seatLocks db.
Proof.
  unfold BookingsService.createBooking, SeatsService.findOne. mrun.
  destruct (seats db !! sid) as [s|]; mrun; [|done].
  by intros [= <- <-].
Qed.

Lemma createBooking_total rid l sid db :
  is_Some (seats db !! sid) →
  ∃ r db', BookingsService.createBooking rid l sid db = (inr r, db').
Proof.
  intros [s Hs]. unfold BookingsService.createBooking, SeatsService.findOne. mrun.
  rewrite Hs. mrun. eauto.
Qed.

Lemma mapAll_createBooking_run rid l ids : ∀ db created db',
  mapAll ids (BookingsService.createBooking rid l) db = (inr created, db') →
  bookings db' = bookings db ++ created.*2
  ∧ created.*1 = seq (length (bookings db)) (length ids)
  ∧ Forall (λ ib, Booking.reservationId ib.2 = rid) created
  ∧ map (λ ib, Booking.seatId ib.2) created = ids
  ∧ seats db' = seats db ∧ seatLocks db' = seatLocks db.
Proof.
  induction ids as [|sid ids IH]; intros db created db'; simpl.
  - intros [= <- <-]. by rewrite app_nil_r.
  - rewrite run_bind.
    destruct (BookingsService.createBooking rid l sid db) as [[e|r] db1] eqn:Hr; [done|].
    apply createBooking_run in Hr as (Hid & Hrid & Hsid & Hbs & Hseats & Hlocks).
    rewrite run_bind.
    destruct (mapAll ids _ db1) as [[e|rs] db2] eqn:Hrs; [done|].
    apply IH in Hrs as (Hbs2 & Hids & Hall & Hsids & Hseats2 & Hlocks2).
    intros [= <- <-]. rewrite !fmap_cons. split_and!.
    + rewrite Hbs2, Hbs, <- app_assoc. done.
    + rewrite Hid, Hids, Hbs, length_app. simpl. do 2 f_equal. lia.
    + by constructor.
    + f_equal; [exact Hsid|exact Hsids].
    + congruence.
    + congruence.
Qed.

(** When every seat exists, a booking is created for each of them. *)
Lemma mapAll_createBooking_total rid l ids : ∀ db,
  (∀ sid, sid ∈ ids → is_Some (seats db !! sid)) →
  ∃ created db', mapAll ids (BookingsService.createBooking rid l) db = (inr created, db').
Proof.
  induction ids as [|sid ids IH]; intros db Hall; simpl; [by eexists _, _|].
  destruct (createBooking_total rid l sid db) as (r & db1 & Hr).
  { apply Hall. by left. }
  rewrite run_bind, Hr.
  destruct (createBooking_run _ _ _ _ _ _ Hr) as (_ & _ & _ & _ & Hseats & _).
  destruct (IH db1) as (rs & db2 & Hrs).
  { intros sid' Hin. rewrite Hseats. apply Hall. by right. }
  rewrite run_bind, Hrs. by eexists _, _.
Qed.

(** The seats that [atomicConfirmSeats] counts, when it counts as many as
    were asked for, are all the seats asked for, and none was asked for
    twice. *)
Lemma atomicConfirmSeats_all ids rid m :
  (SeatsService.atomicConfirmSeats ids rid m).2 = length ids →
  NoDup ids
  ∧ ∀ sid, sid ∈ ids → is_Some ((SeatsService.atomicConfirmSeats ids rid m).1 !! sid).
Proof.
  unfold SeatsService.atomicConfirmSeats. simpl. intros Hcount.
  destruct (countDocs_all (SeatsService.confirmFilter ids rid) ids m) as [Hnd Hall];
    [|done|].
  - intros id s. unfold SeatsService.confirmFilter. rewrite !andb_true_iff.
    intros [[Hid _] _]. by apply includes_true.
  - split; [done|]. intros sid Hin. destruct (Hall sid Hin) as (s & Hs & _).
    rewrite lookup_updateMany, Hs. by eexists.
Qed.

(** ** Exceptions that are caught *)

Lemma tryCatch_run {A} (m : M A) h db :
  tryCatch m h db = match m db with
                    | (inr a, db') => (inr a, db')
                    | (inl e, db') => h e db'
                    end.
Proof. reflexivity. Qed.

(** The database left by a call whose result is thrown away. *)
Ltac via H :=
  rewrite run_bind;
  let Hx := fresh "Hvia" in
  pose proof H as Hx;
  match goal with
  | |- context [match ?m ?d with _ => _ end] =>
      match type of Hx with context [m d] => destruct (m d) as [[?e|?a] ?db] end
  end; simpl in Hx |- *.

Lemma ReservationStatus_eqb_eq a b : ReservationStatus_eqb a b = true ↔ a = b.
Proof. destruct a, b; simpl; split; (done || discriminate). Qed.

Lemma isStatus_true v l : SeatLock.isStatus v l = true ↔ SeatLock.status l = v.
Proof. apply ReservationStatus_eqb_eq. Qed.

(** ** confirmBooking and expiry *)

Lemma confirmBooking_expired env rid pid db l :
  seatLocks db !! rid = Some l →
  SeatLock.status l = PENDING_PAYMENT →
  SeatLock.expiresAt l < now env →
  BookingsService.confirmBooking env rid pid db
  = (inl (BadRequestException "Reservation has expired"),
     withSeatLocks (λ m, <[rid := SeatLock.setStatus CANCELLED l]> m)
       (withSeats (λ m, (SeatsService.releaseSeatsByReservation rid m).1) db)).
Proof.
  intros Hl Hst Hexp. unfold BookingsService.confirmBooking. mrun. rewrite Hl.
  unfold BookingsService.alreadyConfirmed.
  assert (SeatLock.isStatus COMPLETED l = false) as ->.
  { unfold SeatLock.isStatus. by rewrite Hst. }
  assert (SeatLock.isStatus PENDING_PAYMENT l = true) as ->.
  { unfold SeatLock.isStatus. by rewrite Hst. }
  mrun. cbn [negb andb]. rewrite bool_decide_eq_true_2 by done.
  unfold BookingsService.cancelReservation. mrun. rewrite Hl. by mrun.
Qed.

(** ** Bookings found after a creation *)

Lemma findBookings_app rid bs bs' :
  BookingsService.findBookings rid (bs ++ bs')
  = BookingsService.findBookings rid bs
    ++ List.filter (λ ib, String.eqb (Booking.reservationId ib.2) rid)
         (imap (λ i, pair (length bs + i)%nat) bs').
Proof.
  unfold BookingsService.findBookings. by rewrite imap_app, List.filter_app.
Qed.

Lemma filter_created rid n (created : list (nat * Booking.t)) :
  created.*1 = seq n (length created) →
  Forall (λ ib, Booking.reservationId ib.2 = rid) created →
  List.filter (λ ib, String.eqb (Booking.reservationId ib.2) rid)
    (imap (λ i, pair (n + i)%nat) created.*2) = created.
Proof.
  revert n. induction created as [|[i b] cs IH]; intros n Hids Hall; [done|].
  rewrite !fmap_cons in *. simpl in Hids. injection Hids as -> Hids.
  apply Forall_cons in Hall as [Hb Hcs]. simpl in Hb.
  simpl. rewrite Hb, String.eqb_refl, Nat.add_0_r. f_equal.
  rewrite <- (IH (S n)) at 2 by done. f_equal. apply imap_ext. intros. simpl.
  f_equal. lia.
Qed.

Lemma length_pos_ne_nil {A} (l : list A) : (0 <? length l)%nat = true ↔ l ≠ [].
Proof. rewrite Nat.ltb_lt. destruct l; simpl; split; (done || lia). Qed.


Lemma confirmBooking_success env rid pid db l c db1 :
  seatLocks db !! rid = Some l →
  BookingsService.confirmBooking env rid pid db = (inr c, db1) →
  Confirmed rid db l c db1.
Proof.
  intros Hl. unfold BookingsService.confirmBooking. mrun. rewrite Hl.
  unfold BookingsService.alreadyConfirmed.
  set (rest := λ early : option BookingsService.Confirmation, _).
  assert (rest None db = (inr c, db1) → Confirmed rid db l c db1) as Hrest.
  { unfold rest.
    destruct (_ && _); mrun; [done|]. destruct (bool_decide _).
    { rewrite run_bind. by destruct (BookingsService.cancelReservation rid db) as [[?|[]] ?]. }
    mrun. destruct (negb _); mrun; [done|].
    set (l1 := match pid with Some _ => _ | None => _ end).
    assert (SeatLock.status l1 = COMPLETED ∧ SeatLock.seatIds l1 = SeatLock.seatIds l)
      as [Hst1 Hids1].
    { unfold l1. destruct pid; [destruct (truthy _)|]; done. }
    match goal with |- (mbind _ _ ?d) = _ → _ => set (db2 := d) end.
    assert (seatLocks db2 !! rid = Some l1) as Hl2 by apply lookup_insert_eq.
    rewrite run_bind.
    destruct (0 <? length _)%nat eqn:Hex.
    - (* the bookings exist already *)
      mrun. rewrite run_bind. pose proof (notifyFirebase_db env rid l1 db2) as Hn.
      destruct (BookingsService.notifyFirebase env rid l1 db2) as [[e|[]] db3];
        simpl in Hn; subst db3; [done|]. mrun. intros [= <- <-].
      apply length_pos_ne_nil in Hex.
      exists l1. split_and!; try done.
      by rewrite Hids1.
    - (* the bookings are created *)
      apply Nat.ltb_ge in Hex.
      assert (BookingsService.findBookings rid (bookings db) = []) as Hnil.
      { destruct (BookingsService.findBookings _ _); [done|simpl in Hex; lia]. }
      destruct (mapAll _ _ db2) as [[e|created] db3] eqn:Hcr; [done|].
      apply mapAll_createBooking_run in Hcr as (Hbs & Hids & Hall & Hsids & Hseats & Hlocks).
      rewrite run_bind. pose proof (notifyFirebase_db env rid l1 db3) as Hn.
      destruct (BookingsService.notifyFirebase env rid l1 db3) as [[e|[]] db4];
        simpl in Hn; subst db4; [done|]. mrun. intros [= <- <-].
      assert (BookingsService.findBookings rid (bookings db3) = created) as Hfound.
      { rewrite Hbs, findBookings_app. unfold db2. mrun. rewrite Hnil. simpl.
        apply filter_created; [|done].
        rewrite Hids. unfold db2. mrun. f_equal.
        apply (f_equal length) in Hids. by rewrite length_fmap, length_seq in Hids. }
      exists l1. split_and!.
      + by rewrite Hlocks.
      + done.
      + done.
      + by rewrite Hfound, Hids1.
      + intros Hne. rewrite Hfound. intros ->. simpl in Hsids. rewrite Hids1 in Hsids.
        by symmetry in Hsids.
      + intros _. unfold seatsBooked. by rewrite Hfound, Hsids.
      + intros Hne. by destruct Hne. }
  assert (∀ c' db', rest (Some c') db' = (inr c', db')) as Hdone by done.
  clearbody rest.
  destruct (SeatLock.isStatus COMPLETED l) eqn:Hst; mrun; [|done].
  apply isStatus_true in Hst.
  destruct (0 <? length _)%nat eqn:Hex; mrun; [|done].
  apply length_pos_ne_nil in Hex.
  assert (∀ db', bookings db' = bookings db →
            (∃ l1, seatLocks db' !! rid = Some l1 ∧ SeatLock.status l1 = COMPLETED
                   ∧ SeatLock.seatIds l1 = SeatLock.seatIds l) →
            Confirmed rid db l
              (BookingsService.mkConfirmation rid
                 (BookingsService.findBookings rid (bookings db)).*1 (SeatLock.seatIds l))
              db') as Hearly.
  { intros db' Hb (l1 & Hl1 & Hst1 & Hids1). exists l1. rewrite Hb. by split_and!. }
  destruct pid as [v|]; mrun; rewrite ?Hdone.
  - destruct (truthy (Some v) && _); mrun; rewrite ?Hdone; intros [= <- <-].
    + apply Hearly; [done|]. eexists. split; [apply lookup_insert_eq|done].
    + apply Hearly; eauto.
  - intros [= <- <-]. apply Hearly; eauto.
Qed.

(** C1, the code against the claim: a reservation that is at the gateway
    (numeric state -2) and past [expiresAt] is rejected as expired by
    [confirmBooking], which also cancels it and releases its seats. *)
Theorem confirmBooking_expires_gateway_reservation env rid pid db l :
  seatLocks db !! rid = Some l →
  SeatLock.status l = PENDING_PAYMENT →
  SeatLock.numericState l = ReservationNumericState.IN_PAYMENT_GATEWAY →
  SeatLock.expiresAt l < now env →
  let call := BookingsService.confirmBooking env rid pid db in
  call.1 = inl (BadRequestException "Reservation has expired")
  ∧ SeatLock.status <$> seatLocks call.2 !! rid = Some CANCELLED
  ∧ (∀ sid s, seats db !! sid = Some s →
       Seat.state s = PAYMENT_PENDING → Seat.pendingReservationId s = Some rid →
       seats call.2 !! sid = Some (Seat.setStateUnset AVAILABLE s)).
Proof.
  intros Hl Hst _ Hexp call. unfold call.
  rewrite (confirmBooking_expired env rid pid db l Hl Hst Hexp). split_and!.
  - done.
  - mrun. by rewrite lookup_insert_eq.
  - intros sid s Hs Hstate Hheld. mrun. unfold SeatsService.releaseSeatsByReservation.
    mrun. rewrite lookup_updateMany, Hs. simpl. unfold SeatsService.releaseFilter.
    by rewrite (proj2 (heldBy_true rid s) Hheld), (proj2 (isState_true _ s) Hstate).
Qed.

(** Witness of [confirmBooking_expires_gateway_reservation]: seat [s1] is
    reserved at time 500 for ten minutes and taken to the gateway; the
    confirmation of the payment arrives after the ten minutes. *)
Lemma confirmBooking_expires_gateway_reservation_witness :
  let db := System.run Examples.openDb
              [(Examples.envAt 500, System.Create Examples.dto);
               (Examples.envAt 600,
                System.CreatePaymentIntent "reservation_u1" (Some Examples.customer))] in
  let call := BookingsService.confirmBooking (Examples.envAt 700000) "reservation_u1"
                (Some "txn1") db in
  SeatLock.numericState <$> seatLocks db !! "reservation_u1" = Some (-2)
  ∧ call.1 = inl (BadRequestException "Reservation has expired")
  ∧ SeatLock.status <$> seatLocks call.2 !! "reservation_u1" = Some CANCELLED
  ∧ seats call.2 !! "s1" = Some (Examples.seat "A1" AVAILABLE None).
Proof.
  intros db call. split; [vm_compute; reflexivity|].
  pose proof (confirmBooking_expires_gateway_reservation (Examples.envAt 700000)
                "reservation_u1" (Some "txn1") db
                (default (Examples.lock PENDING_PAYMENT (-2) None)
                   (seatLocks db !! "reservation_u1"))) as H.
  destruct H as (H1 & H2 & H3); [vm_compute; reflexivity..|].
  split_and!; [exact H1|exact H2|].
  apply (H3 "s1" (Examples.seat "A1" PAYMENT_PENDING (Some "reservation_u1")));
    vm_compute; reflexivity.
Defined.

Lemma expiredFilter_true now rid l :
  SeatLockExpiryService.expiredFilter now rid l = true
  ↔ SeatLock.status l = PENDING_PAYMENT
    ∧ SeatLock.numericState l = ReservationNumericState.CART_TO_PAYMENT
    ∧ SeatLock.expiresAt l < now.
Proof.
  unfold SeatLockExpiryService.expiredFilter.
  rewrite !andb_true_iff, isStatus_true, Z.eqb_eq, bool_decide_eq_true. tauto.
Qed.

Lemma run_expire {B} lock (k : unit → M B) db :
  (SeatLockExpiryService.expire lock ≫= k) db
  = k tt (withSeatLocks (λ m, <[lock.1 := timedOut lock.2]> m)
            (withSeats (λ m, (SeatsService.releaseSeatsByReservation lock.1 m).1) db)).
Proof. reflexivity. Qed.

Lemma forEach_expire_seats ls : ∀ db sid,
  seats (forEach ls SeatLockExpiryService.expire db).2 !! sid
  = (λ s, if heldByAny ls.*1 s then Seat.setStateUnset AVAILABLE s else s) <$> seats db !! sid.
Proof.
  induction ls as [|[r l] ls IH]; intros db sid.
  - simpl. destruct (seats db !! sid) as [s|]; simpl; [|done]. f_equal.
    unfold heldByAny, includes.
    destruct (Seat.pendingReservationId s); by rewrite ?andb_false_r.
  - simpl forEach. rewrite run_expire.
    rewrite IH. mrun. unfold SeatsService.releaseSeatsByReservation. mrun.
    rewrite lookup_updateMany. destruct (seats db !! sid) as [s|]; simpl; [|done]. f_equal.
    unfold SeatsService.releaseFilter, heldByAny, Seat.heldBy, includes.
    destruct (Seat.pendingReservationId s) as [r'|] eqn:Hr'; simpl.
    + destruct (String.eqb_spec r' r) as [->|Hne]; simpl.
      * destruct (Seat.isState PAYMENT_PENDING s) eqn:Hst; simpl.
        -- rewrite bool_decide_eq_true_2 by apply list_elem_of_here. done.
        -- rewrite Hr', Hst. done.
      * rewrite Hr'. destruct (Seat.isState PAYMENT_PENDING s); simpl; [|done].
        destruct (bool_decide (r' ∈ ls.*1)) eqn:Hin.
        -- apply bool_decide_eq_true in Hin.
           rewrite bool_decide_eq_true_2; [done|]. by apply list_elem_of_further.
        -- apply bool_decide_eq_false in Hin.
           rewrite bool_decide_eq_false_2; [done|].
           intros [?|?]%elem_of_cons; done.
    + rewrite Hr'. by rewrite !andb_false_r.
Qed.

Lemma forEach_expire_locks_other ls : ∀ db id,
  id ∉ ls.*1 →
  seatLocks (forEach ls SeatLockExpiryService.expire db).2 !! id = seatLocks db !! id.
Proof.
  induction ls as [|[r l] ls IH]; intros db id Hid; [done|].
  simpl forEach. rewrite run_expire.
  rewrite fmap_cons in Hid. apply not_elem_of_cons in Hid as [Hne Hid].
  rewrite IH by done. mrun. by rewrite lookup_insert_ne.
Qed.

Lemma forEach_expire_locks_in ls : ∀ db id l,
  NoDup ls.*1 → (id, l) ∈ ls →
  seatLocks (forEach ls SeatLockExpiryService.expire db).2 !! id = Some (timedOut l).
Proof.
  induction ls as [|[r l0] ls IH]; intros db id l Hnd Hin.
  - by apply elem_of_nil in Hin.
  - rewrite fmap_cons in Hnd. apply NoDup_cons in Hnd as [Hr Hnd].
    simpl forEach. rewrite run_expire.
    apply elem_of_cons in Hin as [[= -> ->]|Hin].
    + rewrite forEach_expire_locks_other by done. mrun. by rewrite lookup_insert_eq.
    + by apply IH.
Qed.

Lemma checkExpiredReservations_lock now db rid l :
  seatLocks db !! rid = Some l →
  seatLocks (SeatLockExpiryService.checkExpiredReservations now db).2 !! rid
  = Some (if SeatLockExpiryService.expiredFilter now rid l then timedOut l else l).
Proof.
  intros Hl. unfold SeatLockExpiryService.checkExpiredReservations. mrun.
  destruct (SeatLockExpiryService.expiredFilter now rid l) eqn:Hexp.
  - apply forEach_expire_locks_in; [apply NoDup_findDocs|]. by apply elem_of_findDocs.
  - rewrite forEach_expire_locks_other; [done|].
    intros ([id l'] & -> & Hin)%list_elem_of_fmap. apply elem_of_findDocs in Hin as [Hl' Hexp'].
    simpl in *. congruence.
Qed.

Lemma checkExpiredReservations_seat now db sid s :
  seats db !! sid = Some s →
  seats (SeatLockExpiryService.checkExpiredReservations now db).2 !! sid
  = Some (if sweptSeat now db s then Seat.setStateUnset AVAILABLE s else s).
Proof.
  intros Hs. unfold SeatLockExpiryService.checkExpiredReservations. mrun.
  rewrite forEach_expire_seats, Hs. simpl. f_equal.
  assert (heldByAny (findDocs (SeatLockExpiryService.expiredFilter now) (seatLocks db)).*1 s
          = sweptSeat now db s) as ->; [|done].
  unfold heldByAny, sweptSeat. f_equal.
  destruct (Seat.pendingReservationId s) as [r|]; [|done].
  unfold includes. apply eq_true_iff_eq. rewrite bool_decide_eq_true. split.
  - intros ([id l] & -> & Hin)%list_elem_of_fmap. apply elem_of_findDocs in Hin as [Hl Hexp].
    simpl. by rewrite Hl.
  - destruct (seatLocks db !! r) as [l|] eqn:Hl; [|done]. intros Hexp.
    apply list_elem_of_fmap. exists (r, l). split; [done|]. by apply elem_of_findDocs.
Qed.

(** C2 (amended). One pass of [checkExpiredReservations] at time [now]:
    a reservation is cancelled and timed out exactly when its status is
    [pending_payment], its numeric state is -1 and [expiresAt < now], and is
    left as it was otherwise; a seat is released exactly when it is pending
    under such a reservation; and a reservation at the gateway (-2) and the
    seats pending under it are left as they were, whatever [now] is. *)
Theorem checkExpiredReservations_sweeps now db :
  let db' := (SeatLockExpiryService.checkExpiredReservations now db).2 in
  (∀ rid l, seatLocks db !! rid = Some l →
     (SeatLock.status l = PENDING_PAYMENT
      ∧ SeatLock.numericState l = ReservationNumericState.CART_TO_PAYMENT
      ∧ SeatLock.expiresAt l < now →
      seatLocks db' !! rid = Some (timedOut l))
     ∧ (¬ (SeatLock.status l = PENDING_PAYMENT
           ∧ SeatLock.numericState l = ReservationNumericState.CART_TO_PAYMENT
           ∧ SeatLock.expiresAt l < now) →
        seatLocks db' !! rid = Some l))
  ∧ (∀ sid s, seats db !! sid = Some s →
       seats db' !! sid
       = Some (if sweptSeat now db s then Seat.setStateUnset AVAILABLE s else s))
  ∧ (∀ rid l, seatLocks db !! rid = Some l →
       SeatLock.numericState l = ReservationNumericState.IN_PAYMENT_GATEWAY →
       seatLocks db' !! rid = Some l
       ∧ ∀ sid s, seats db !! sid = Some s → Seat.pendingReservationId s = Some rid →
                  seats db' !! sid = Some s).
Proof.
  intros db'. unfold db'. split_and!.
  - intros rid l Hl. rewrite (checkExpiredReservations_lock now db rid l Hl). split.
    + intros Hexp. by rewrite (proj2 (expiredFilter_true now rid l) Hexp).
    + intros Hexp. destruct (SeatLockExpiryService.expiredFilter now rid l) eqn:E; [|done].
      by apply expiredFilter_true in E.
  - apply checkExpiredReservations_seat.
  - intros rid l Hl Hns.
    assert (SeatLockExpiryService.expiredFilter now rid l = false) as Hexp.
    { destruct (SeatLockExpiryService.expiredFilter now rid l) eqn:E; [|done].
      apply expiredFilter_true in E as (_ & E & _). rewrite Hns in E. discriminate. }
    split.
    + by rewrite (checkExpiredReservations_lock now db rid l Hl), Hexp.
    + intros sid s Hs Hheld. rewrite (checkExpiredReservations_seat now db sid s Hs).
      unfold sweptSeat. by rewrite Hheld, Hl, Hexp, andb_false_r.
Qed.

(** Witness of [checkExpiredReservations_sweeps]: long after its expiry,
    reservation [r1] at the gateway keeps its state and its seat. *)
Lemma checkExpiredReservations_sweeps_witness :
  let db := Examples.dbWith (Examples.lock PENDING_PAYMENT (-2) (Some "txn1")) in
  let db' := (SeatLockExpiryService.checkExpiredReservations 999999 db).2 in
  seatLocks db' !! "r1" = Some (Examples.lock PENDING_PAYMENT (-2) (Some "txn1"))
  ∧ seats db' !! "s1" = Some (Examples.seat "A1" PAYMENT_PENDING (Some "r1")).
Proof.
  destruct (checkExpiredReservations_sweeps 999999
              (Examples.dbWith (Examples.lock PENDING_PAYMENT (-2) (Some "txn1"))))
    as (_ & _ & Hgw).
  destruct (Hgw "r1" (Examples.lock PENDING_PAYMENT (-2) (Some "txn1")) eq_refl eq_refl)
    as [Hlock Hseat].
  split; [exact Hlock|]. by apply Hseat.
Defined.

(** C2, counterexample: a reservation whose numeric state is -1 and whose
    [expiresAt] has passed is not timed out when its status is no longer
    [pending_payment]; here a reservation that was made and then cancelled
    in the cart. *)
Lemma checkExpiredReservations_counterexample :
  ¬ (∀ now db rid l,
       seatLocks db !! rid = Some l →
       SeatLock.numericState l = ReservationNumericState.CART_TO_PAYMENT →
       SeatLock.expiresAt l < now →
       SeatLock.numericState
         <$> seatLocks (SeatLockExpiryService.checkExpiredReservations now db).2 !! rid
       = Some ReservationNumericState.TIMEOUT).
Proof.
  intros H.
  set (db := System.run Examples.openDb
               [(Examples.envAt 500, System.Create Examples.dto);
                (Examples.envAt 600, System.Cancel "reservation_u1")]).
  specialize (H 700000 db "reservation_u1"
                (default (Examples.lock CANCELLED (-1) None)
                   (seatLocks db !! "reservation_u1"))).
  vm_compute in H. specialize (H eq_refl eq_refl eq_refl). discriminate.
Qed.

(** ** Every call keeps the relation *)

(** The call has written neither a seat lock nor a booking. *)
Ltac grows_same := first [apply Grows_refl | apply Grows_same; reflexivity].

(** The call has saved a seat lock it had read, and has changed the
    bookings, if at all, by an update of their payment fields. *)
Ltac grows_save :=
  split; mrun;
  [ eapply LocksGrow_insert;
    [ first [eassumption | apply lookup_insert_eq] | done | first [by left | by right] ]
  | first [apply BookingsGrow_refl | by apply BookingsGrow_map] ].

Lemma cancelReservation_grows rid db :
  Grows db (BookingsService.cancelReservation rid db).2.
Proof.
  unfold BookingsService.cancelReservation. mrun.
  destruct (seatLocks db !! rid) as [l|] eqn:Hl; mrun; [|grows_same].
  grows_save.
Qed.

Lemma setSeatBroken_grows seatId broken db :
  Grows db (SeatsService.setSeatBroken seatId broken db).2.
Proof.
  unfold SeatsService.setSeatBroken. mrun. destruct (seats db !! seatId); mrun; grows_same.
Qed.

Lemma createReservation_grows env dto db :
  Grows db (BookingsService.createReservation env dto db).2.
Proof.
  unfold BookingsService.createReservation. rewrite tryCatch_run.
  assert (Grows db (BookingsService.createReservationBody env dto db).2) as Hbody.
  { unfold BookingsService.createReservationBody.
    destruct (String.eqb _ ""); [grows_same|].
    destruct (_ =? 0)%nat eqn:Hlen; [grows_same|].
    via (EventsService_findOne_db (CreateBookingDto.eventId dto) db);
      subst; [grows_same|].
    destruct (negb (Event.isTicketSaleEnabled a)); [grows_same|].
    destruct (negb (BookingsService.isSalePeriodActive a (now env))); [grows_same|].
    mrun. destruct (negb _); mrun; [grows_same|].
    destruct (negb _); mrun; [grows_same|].
    unfold BookingsService.insertNew. mrun.
    destruct (seatLocks db !! _) eqn:Hnew; mrun; [grows_same|].
    split; mrun; [|apply BookingsGrow_refl].
    apply LocksGrow_insert_new; [done|]. simpl.
    apply Nat.eqb_neq in Hlen. by destruct (CreateBookingDto.seatIds dto). }
  destruct (BookingsService.createReservationBody env dto db) as [[e|r] db1]; [|done].
  by destruct e.
Qed.

Lemma updateTickets_grows rid dto db :
  Grows db (BookingsService.updateTickets rid dto db).2.
Proof.
  unfold BookingsService.updateTickets. mrun.
  destruct (seatLocks db !! rid) as [l|] eqn:Hl; mrun; [|grows_same].
  destruct (negb _); mrun; [grows_same|].
  via (EventsService_findOne_db (SeatLock.eventId l) db); subst; [grows_same|].
  mrun. grows_save.
Qed.

Lemma forEach_expire_bookings ls db :
  bookings (forEach ls SeatLockExpiryService.expire db).2 = bookings db.
Proof.
  apply (forEach_keeps (λ a b, bookings b = bookings a)); [done|congruence|done].
Qed.

Lemma checkExpiredReservations_grows now db :
  Grows db (SeatLockExpiryService.checkExpiredReservations now db).2.
Proof.
  split; [split|].
  - intros rid l Hl. rewrite (checkExpiredReservations_lock now db rid l Hl).
    eexists. split; [done|].
    destruct (SeatLockExpiryService.expiredFilter now rid l); split; first [done | by left | by right].
  - intros rid l' Hl' Hnone. exfalso. revert Hl'.
    unfold SeatLockExpiryService.checkExpiredReservations. mrun.
    rewrite forEach_expire_locks_other; [congruence|].
    intros ([id l] & -> & Hin)%list_elem_of_fmap. apply elem_of_findDocs in Hin as [Hl _].
    simpl in *. congruence.
  - unfold SeatLockExpiryService.checkExpiredReservations. mrun.
    rewrite forEach_expire_bookings. apply BookingsGrow_refl.
Qed.

Lemma createPaymentIntent_grows env rid customer db :
  Grows db (PaymentsService.createPaymentIntent env rid customer db).2.
Proof.
  unfold PaymentsService.createPaymentIntent. mrun.
  destruct (seatLocks db !! rid) as [l|] eqn:Hl; mrun; [|grows_same].
  destruct (negb _); mrun; [grows_same|].
  destruct (negb _); mrun; [grows_same|].
  assert (∀ m, BookingsGrow (bookings db)
                 (map (λ b, if String.eqb (Booking.reservationId b) rid
                            then Booking.setPaymentState PENDING b else b) (bookings db)) m)
    as Hbs by (intros m; by apply BookingsGrow_map).
  destruct (gatewayConfigError env); mrun; [split; mrun; [apply LocksGrow_refl|apply Hbs]|].
  destruct customer as [c|]; mrun.
  - destruct (gatewayResponse env) as [e|[url responseId]]; mrun.
    + grows_save.
    + unfold PaymentsService.backup. mrun. split; mrun; [|apply Hbs].
      eapply LocksGrow_trans;
        [|eapply LocksGrow_insert; [apply lookup_insert_eq|done|by right]].
      eapply LocksGrow_insert; [done|done|by left].
  - destruct (gatewayResponse env) as [e|[url responseId]]; mrun.
    + split; mrun; [apply LocksGrow_refl|apply Hbs].
    + unfold PaymentsService.backup. mrun. grows_save.
Qed.

Lemma confirmBooking_grows env rid pid db :
  Grows db (BookingsService.confirmBooking env rid pid db).2.
Proof.
  unfold BookingsService.confirmBooking. mrun.
  destruct (seatLocks db !! rid) as [l|] eqn:Hl; mrun; [|grows_same].
  unfold BookingsService.alreadyConfirmed.
  assert (∀ v, Grows db (withSeatLocks (λ m, <[rid := SeatLock.setPaymentIntentId v l]> m) db))
    as Hpid.
  { intros v. grows_save. }
  set (rest := λ early : option BookingsService.Confirmation, _).
  assert (Grows db (rest None db).2) as Hrest.
  { unfold rest.
    destruct (_ && _); mrun; [grows_same|].
    destruct (bool_decide _).
    { rewrite run_bind. pose proof (cancelReservation_grows rid db) as Hc.
      by destruct (BookingsService.cancelReservation rid db) as [[e|[]] db2]. }
    mrun. destruct (negb _) eqn:Hcount; mrun; [grows_same|].
    apply negb_false_iff, Nat.eqb_eq in Hcount.
    match goal with |- context [<[rid := ?l']> _] => set (l1 := l') end.
    assert (SeatLock.numericState l1 = SeatLock.numericState l
            ∧ SeatLock.seatIds l1 = SeatLock.seatIds l) as [Hns Hids].
    { unfold l1. destruct pid; [destruct (truthy _)|]; done. }
    match goal with |- Grows _ (mbind _ _ ?d).2 => set (db2 := d) end.
    assert (Grows db db2) as H2.
    { unfold db2. grows_save. }
    rewrite run_bind.
    destruct (0 <? length _)%nat eqn:Hex.
    - (* the bookings exist already *)
      mrun. rewrite run_bind. pose proof (notifyFirebase_db env rid l1 db2) as Hn.
      by destruct (BookingsService.notifyFirebase env rid l1 db2) as [[e|[]] db3];
        simpl in Hn |- *; subst db3.
    - (* a booking is created for every seat: they were all confirmed *)
      destruct (mapAll_createBooking_total rid l1 (SeatLock.seatIds l1) db2)
        as (created & db3 & Hcr).
      { intros sid Hin. unfold db2. mrun.
        apply atomicConfirmSeats_all; [exact Hcount|by rewrite <- Hids]. }
      apply atomicConfirmSeats_all in Hcount as [Hnd _].
      rewrite Hcr.
      apply mapAll_createBooking_run in Hcr as (Hbs & _ & Hall & Hsids & _ & Hlocks).
      assert (Grows db db3) as H3.
      { split; [rewrite Hlocks; apply H2|].
        rewrite Hbs, Hlocks. unfold db2. mrun.
        apply (BookingsGrow_created rid l1).
        - apply seatsBooked_nil. apply Nat.ltb_ge in Hex. unfold db2 in Hex. simpl in Hex.
          destruct (BookingsService.findBookings _ _); [done|simpl in Hex; lia].
        - by apply Forall_fmap.
        - rewrite <- Hsids. symmetry. apply (list_fmap_compose snd Booking.seatId).
        - by rewrite Hids.
        - apply lookup_insert_eq. }
      rewrite run_bind. pose proof (notifyFirebase_db env rid l1 db3) as Hn.
      by destruct (BookingsService.notifyFirebase env rid l1 db3) as [[e|[]] db4];
        simpl in Hn |- *; subst db4. }
  assert (∀ c db1, rest (Some c) db1 = (inr c, db1)) as Hdone by done.
  clearbody rest.
  destruct (SeatLock.isStatus COMPLETED l); mrun; [|done].
  destruct (0 <? _)%nat; mrun; [|done].
  destruct pid as [v|]; mrun; rewrite ?Hdone; [|grows_same].
  destruct (truthy _ && _); mrun; rewrite ?Hdone; [apply Hpid|grows_same].
Qed.

Lemma handleDialogGenieCallback_grows env paymentId status db :
  Grows db (PaymentsService.handleDialogGenieCallback env paymentId status db).2.
Proof.
  unfold PaymentsService.handleDialogGenieCallback. mrun.
  destruct (PaymentsService.resolveByPaymentId paymentId db) as [[rid l0]|]; mrun;
    [|grows_same].
  destruct (String.eqb status "SUCCESS"); mrun;
    [|by apply Grows_updateBookings; [|apply Grows_refl]].
  destruct (seatLocks db !! rid) as [l|] eqn:Hl; mrun; [|grows_same].
  match goal with |- Grows _ (mbind _ _ ?d).2 => set (db1 := d) end.
  assert (Grows db db1) as H1.
  { unfold db1. grows_save. }
  rewrite run_bind, tryCatch_run. mrun. rewrite run_bind.
  pose proof (confirmBooking_grows env rid (Some paymentId) db1) as Hc.
  destruct (BookingsService.confirmBooking env rid (Some paymentId) db1) as [[e|c] db2];
    simpl in Hc; mrun.
  - assert (∀ db3, Grows db2 db3 →
              Grows db (withBookings
                          (map (λ b, if String.eqb (Booking.reservationId b) rid
                                     then Booking.setPayment SUCCESS paymentId b else b)) db3))
      as Hfin.
    { intros db3 H3. apply Grows_updateBookings; [done|].
      eapply Grows_trans; [exact H1|]. by eapply Grows_trans. }
    destruct (0 <? _)%nat; mrun; [|apply Hfin, Grows_refl].
    rewrite run_bind, tryCatch_run, run_bind.
    pose proof (confirmBooking_grows env rid (Some paymentId) db2) as Hc2.
    destruct (BookingsService.confirmBooking env rid (Some paymentId) db2) as [[e2|c2] db3];
      simpl in Hc2; mrun; by apply Hfin.
  - apply Grows_updateBookings; [done|]. by eapply Grows_trans.
Qed.

Lemma resolveRedirect_grows localId paymentId db :
  Grows db (PaymentsService.resolveRedirect localId paymentId db).2.
Proof.
  unfold PaymentsService.resolveRedirect.
  set (k := λ byId : option (string * SeatLock.t), _).
  assert (∀ byId db1, Grows db db1 → Grows db (k byId db1).2) as Hk.
  { intros byId db1 H1. unfold k. destruct byId, paymentId; try done.
    by destruct (truthy _). }
  clearbody k.
  destruct localId as [lid|]; mrun; [|apply Hk, Grows_refl].
  destruct (truthy (Some lid)); mrun; [|apply Hk, Grows_refl].
  destruct (seatLocks db !! lid) as [l|] eqn:Hl; mrun; [|apply Hk, Grows_refl].
  destruct paymentId as [pid|]; mrun; [|apply Hk, Grows_refl].
  destruct (truthy (Some pid) && _); mrun; [|apply Hk, Grows_refl].
  apply Hk. grows_save.
Qed.

Lemma handleDialogGenieRedirect_grows env query db :
  Grows db (PaymentsService.handleDialogGenieRedirect env query db).2.
Proof.
  unfold PaymentsService.handleDialogGenieRedirect.
  rewrite run_bind.
  match goal with |- context [PaymentsService.resolveRedirect ?a ?b db] =>
    pose proof (resolveRedirect_grows a b db) as Hr;
    destruct (PaymentsService.resolveRedirect a b db) as [[e|[[rid l]|]] db1]
  end; simpl in Hr |- *; try done.
  rewrite tryCatch_run, run_bind.
  match goal with |- context [PaymentsService.handleDialogGenieCallback env ?a ?b db1] =>
    pose proof (handleDialogGenieCallback_grows env a b db1) as Hc;
    destruct (PaymentsService.handleDialogGenieCallback env a b db1) as [[e|r] db2]
  end; simpl in Hc |- *.
  - eapply Grows_trans; eauto.
  - destruct (PaymentsService.callbackSuccess r); simpl; eapply Grows_trans; eauto.
Qed.

Lemma checkAndConfirmBooking_grows env rid paymentId db :
  Grows db (PaymentsService.checkAndConfirmBooking env rid paymentId db).2.
Proof.
  unfold PaymentsService.checkAndConfirmBooking. mrun.
  destruct (PaymentsService.resolveManual rid paymentId db) as [[foundId l]|]; mrun;
    [|grows_same].
  destruct (orElse _ _) as [pid|] eqn:Hp; [|grows_same].
  destruct (truthy (Some pid)); [|grows_same].
  rewrite run_bind.
  pose proof (handleDialogGenieCallback_grows env pid "SUCCESS" db) as Hc.
  by destruct (PaymentsService.handleDialogGenieCallback env pid "SUCCESS" db)
    as [[e|r] db2].
Qed.

Lemma step_grows db call : Grows db (System.step db call).
Proof.
  destruct call as [env op]. unfold System.step, System.after. simpl. destruct op.
  - apply createReservation_grows.
  - apply updateTickets_grows.
  - apply createPaymentIntent_grows.
  - apply confirmBooking_grows.
  - apply cancelReservation_grows.
  - apply checkExpiredReservations_grows.
  - apply handleDialogGenieCallback_grows.
  - apply handleDialogGenieRedirect_grows.
  - apply checkAndConfirmBooking_grows.
  - apply setSeatBroken_grows.
Qed.

Lemma run_grows calls db : Grows db (System.run db calls).
Proof.
  unfold System.run. revert db. induction calls as [|call calls IH]; intros db; simpl.
  - apply Grows_refl.
  - eapply Grows_trans; [apply step_grows|apply IH].
Qed.

(** The seat locks along a run. *)
Lemma run_locks calls db rid l :
  seatLocks db !! rid = Some l →
  ∃ l', seatLocks (System.run db calls) !! rid = Some l'
        ∧ SeatLock.seatIds l' = SeatLock.seatIds l
        ∧ (SeatLock.numericState l' = SeatLock.numericState l
           ∨ SeatLock.numericState l' ≠ CART).
Proof. apply (run_grows calls db). Qed.

(** ** Runs of the system *)

(** C6. Along any run of the system, a reservation whose numeric state is
    not the cart state (-1), so one at the gateway, timed out or paid, is
    still there at the end with a numeric state that is not the cart state. *)
Theorem numericState_never_back_to_cart calls db rid l :
  seatLocks db !! rid = Some l →
  SeatLock.numericState l ≠ ReservationNumericState.CART_TO_PAYMENT →
  ∃ l', seatLocks (System.run db calls) !! rid = Some l'
        ∧ SeatLock.numericState l' ≠ ReservationNumericState.CART_TO_PAYMENT.
Proof.
  intros Hl Hns. destruct (run_locks calls db rid l Hl) as (l' & Hl' & _ & Hns').
  exists l'. split; [done|]. destruct Hns' as [Hns'|Hns']; [|done]. by rewrite Hns'.
Qed.

(** Witness of [numericState_never_back_to_cart]: reservation [r1], at the
    gateway, goes through a sweep, a new payment intent, a cancellation and
    a late callback. *)
Lemma numericState_never_back_to_cart_witness :
  ∃ l', seatLocks
          (System.run (Examples.dbWith (Examples.lock PENDING_PAYMENT (-2) (Some "txn1")))
             [(Examples.envAt 2000, System.Sweep);
              (Examples.envAt 2001, System.CreatePaymentIntent "r1" None);
              (Examples.envAt 2002, System.Cancel "r1");
              (Examples.envAt 2003, System.Callback "txn1" "SUCCESS")]) !! "r1" = Some l'
        ∧ SeatLock.numericState l' ≠ ReservationNumericState.CART_TO_PAYMENT.
Proof.
  apply (numericState_never_back_to_cart _ _ "r1"
           (Examples.lock PENDING_PAYMENT (-2) (Some "txn1"))).
  - reflexivity.
  - discriminate.
Defined.

(** No call of the application removes a reservation. *)
Lemma run_keeps_reservations calls db rid :
  is_Some (seatLocks db !! rid) → is_Some (seatLocks (System.run db calls) !! rid).
Proof.
  intros [l Hl]. destruct (run_locks calls db rid l Hl) as (l' & Hl' & _). eauto.
Qed.

(** ** Confirming twice *)


(** ** The time-to-live index *)

Lemma purge_lookup idx now m rid :
  TtlIndex.purge idx now m !! rid
  = m !! rid ≫= λ l, if TtlIndex.expired idx now l then None else Some l.
Proof. unfold TtlIndex.purge. by rewrite map_lookup_imap. Qed.

(** C7, the code against the claim: the TTL index declared on the seat locks
    has no filter on the state, so a pass of the TTL monitor removes every
    reservation whose [expiresAt] has passed, whatever its status and numeric
    state, reservations at the gateway and paid ones included. *)
Theorem seatLockTtl_purges_every_state now m rid l :
  m !! rid = Some l →
  SeatLock.expiresAt l ≤ now →
  TtlIndex.purge TtlIndex.seatLockTtl now m !! rid = None.
Proof.
  intros Hl Hexp. rewrite purge_lookup, Hl. simpl.
  unfold TtlIndex.expired. simpl. rewrite bool_decide_eq_true_2; [done|lia].
Qed.

(** Witness of [seatLockTtl_purges_every_state]: a paid reservation and a
    reservation at the gateway are both removed once expired. *)
Lemma seatLockTtl_purges_every_state_witness :
  TtlIndex.purge TtlIndex.seatLockTtl 1001
    (<["r1" := Examples.lock PENDING_PAYMENT (-2) (Some "txn1")]> ∅) !! "r1" = None
  ∧ TtlIndex.purge TtlIndex.seatLockTtl 1001
      (<["r2" := Examples.lock COMPLETED 1 (Some "txn2")]> ∅) !! "r2" = None.
Proof.
  split.
  - apply (seatLockTtl_purges_every_state 1001 _ "r1"
             (Examples.lock PENDING_PAYMENT (-2) (Some "txn1"))); [reflexivity|].
    vm_compute. discriminate.
  - apply (seatLockTtl_purges_every_state 1001 _ "r2"
             (Examples.lock COMPLETED 1 (Some "txn2"))); [reflexivity|].
    vm_compute. discriminate.
Defined.

(** ** Reconciliation lookups *)

(** The lookup of the callback handler fails exactly when the payment id
    matches no seat lock and no backup that leads back to a seat lock. *)
Lemma resolveByPaymentId_None paymentId db :
  PaymentsService.resolveByPaymentId paymentId db = None ↔
  PaymentsService.findByPaymentIntent paymentId (seatLocks db) = None
  ∧ ∀ b, PaymentsService.findBackupByPaymentIntent paymentId (seatLockBackups db) = Some b →
         seatLocks db !! b.1 = None.
Proof.
  unfold PaymentsService.resolveByPaymentId.
  destruct (PaymentsService.findByPaymentIntent _ _) as [found|].
  { split; [done|]. by intros [? _]. }
  destruct (PaymentsService.findBackupByPaymentIntent _ _) as [b|].
  - destruct (seatLocks db !! b.1) as [l|] eqn:Hl.
    + split; [done|]. intros [_ H]. specialize (H b eq_refl). congruence.
    + split; [|done]. intros _. split; [done|]. by intros ? [= <-].
  - split; [|done]. intros _. by split.
Qed.

(** When that lookup fails the callback handler reports not-found and
    leaves the database as it was. *)
Lemma handleDialogGenieCallback_not_found env paymentId status db :
  PaymentsService.resolveByPaymentId paymentId db = None →
  PaymentsService.handleDialogGenieCallback env paymentId status db
  = (inl (NotFoundException ("Reservation not found for payment ID: " +:+ paymentId)), db).
Proof.
  intros Hres. unfold PaymentsService.handleDialogGenieCallback. mrun. by rewrite Hres.
Qed.

(** C8, the code against the claim: the redirect handler finds the
    reservation by the reservation id of the callback, then hands only the
    payment id to the callback handler, which looks the reservation up again
    by payment id alone. Here seat [s1] is reserved and taken to the
    gateway, whose answer carries no transaction id, so that the id made up
    by the server is stored; the gateway then redirects back with the
    reservation id and its own transaction id: not-found is reported
    although the lookup by reservation id succeeded. *)
Theorem handleDialogGenieRedirect_loses_reservation :
  let db := System.run Examples.openDb
              [(Examples.envAt 500, System.Create Examples.dto);
               (Examples.envWithoutId 600,
                System.CreatePaymentIntent "reservation_u1" (Some Examples.customer))] in
  let query := RedirectQuery.mk (Some "txn2") None None None (Some "SUCCESS") None
                 (Some "reservation_u1") None in
  SeatLock.paymentIntentId <$> seatLocks db !! "reservation_u1"
  = Some (Some "dialog_pi_reservation_u1_600")
  ∧ (PaymentsService.resolveRedirect (Some "reservation_u1") (Some "txn2") db).1
    = inr (pair "reservation_u1" <$> seatLocks db !! "reservation_u1")
  ∧ is_Some (seatLocks db !! "reservation_u1")
  ∧ (PaymentsService.handleDialogGenieRedirect (Examples.envAt 700) query db).1
    = inr (PaymentsService.ErrorPage "Reservation not found for payment ID: txn2").
Proof. split_and!; try (vm_compute; reflexivity). vm_compute. by eexists. Qed.

(** The redirect handler never consults the backups on its own: a payment
    id that only a backup knows is reported not-found when the callback
    carries no reservation id, although the lookup chain of the callback
    handler resolves it. *)
Lemma handleDialogGenieRedirect_skips_backup :
  let l := Examples.lock PENDING_PAYMENT (-2) (Some "txn2") in
  let b := SeatLockBackup.mk "ev1" None None ["s1"] (-2) 1000 None (Some "txn1")
             None None None None None None None None 400 in
  let db := withBackups (λ _, <["r1" := b]> ∅) (Examples.dbWith l) in
  let query := RedirectQuery.mk (Some "txn1") None None None (Some "SUCCESS") None None None in
  PaymentsService.resolveByPaymentId "txn1" db = Some ("r1", l)
  ∧ (PaymentsService.handleDialogGenieRedirect (Examples.envAt 500) query db).1
    = inr (PaymentsService.ErrorPage "Reservation not found. Please contact support.").
Proof. split; vm_compute; reflexivity. Qed.

(** The lookup that opens [checkAndConfirmBooking] does follow the whole
    chain: reservation id, payment id in the seat locks, payment id in the
    backups. *)
Lemma resolveManual_None rid paymentId db :
  PaymentsService.resolveManual rid paymentId db = None ↔
  seatLocks db !! rid = None
  ∧ ∀ pid, paymentId = Some pid → truthy paymentId = true →
           PaymentsService.resolveByPaymentId pid db = None.
Proof.
  unfold PaymentsService.resolveManual.
  destruct (seatLocks db !! rid) as [l|].
  { split; [done|]. by intros [? _]. }
  destruct paymentId as [pid|].
  - destruct (truthy (Some pid)) eqn:Ht.
    + split.
      * intros Hres. split; [done|]. by intros ? [= <-] _.
      * intros [_ H]. by apply H.
    + split; [|done]. intros _. split; [done|]. by intros ? [= <-] ?.
  - split; [|done]. intros _. by split.
Qed.

(** ** The seat update of createPaymentIntent *)

(** Whatever the gateway answers, [createPaymentIntent] on a reservation
    that is pending payment and priced leaves the seats that
    [setSeatsToPaymentPending] produced. *)
Lemma createPaymentIntent_seats env rid customer db l :
  seatLocks db !! rid = Some l →
  SeatLock.status l = PENDING_PAYMENT →
  is_Some (SeatLock.amountSummary l) →
  seats (PaymentsService.createPaymentIntent env rid customer db).2
  = (SeatsService.setSeatsToPaymentPending (SeatLock.seatIds l) rid (seats db)).1.
Proof.
  intros Hl Hst Hsum. unfold PaymentsService.createPaymentIntent. mrun. rewrite Hl.
  rewrite (proj2 (isStatus_true PENDING_PAYMENT l) Hst). cbn [negb].
  rewrite bool_decide_eq_true_2 by done. cbn [negb]. mrun.
  destruct (gatewayConfigError env); mrun; [done|].
  destruct customer as [c|]; mrun;
    destruct (gatewayResponse env) as [e|[url responseId]]; mrun; try done;
    unfold PaymentsService.backup; by mrun.
Qed.

(** C10. The seat update that [createPaymentIntent] makes before the
    redirect takes every seat of the reservation that is available or
    pending, without looking at the hold the seat has: whatever reservation
    held the seat, it is pending under the calling reservation afterwards. *)
Theorem createPaymentIntent_overwrites_hold env rid customer db l sid s :
  seatLocks db !! rid = Some l →
  SeatLock.status l = PENDING_PAYMENT →
  is_Some (SeatLock.amountSummary l) →
  sid ∈ SeatLock.seatIds l →
  seats db !! sid = Some s →
  Seat.state s = AVAILABLE ∨ Seat.state s = PAYMENT_PENDING →
  (SeatsService.setSeatsToPaymentPending (SeatLock.seatIds l) rid (seats db)).1 !! sid
  = Some (Seat.setHold PAYMENT_PENDING rid s)
  ∧ seats (PaymentsService.createPaymentIntent env rid customer db).2 !! sid
    = Some (Seat.setHold PAYMENT_PENDING rid s).
Proof.
  intros Hl Hst Hsum Hsid Hs Hstate.
  rewrite (createPaymentIntent_seats env rid customer db l Hl Hst Hsum).
  split; by apply setSeatsToPaymentPending_lookup.
Qed.

(** Witness of [createPaymentIntent_overwrites_hold]: seat [s1] is pending
    under reservation [r1]; the payment intent of reservation [r2], which
    lists the same seat, puts it under [r2]. *)
Lemma createPaymentIntent_overwrites_hold_witness :
  let db := mkDb Examples.heldHall (<["r2" := Examples.lock PENDING_PAYMENT (-1) None]> ∅)
              ∅ [] ∅ in
  seats db !! "s1" = Some (Examples.seat "A1" PAYMENT_PENDING (Some "r1"))
  ∧ seats (PaymentsService.createPaymentIntent (Examples.envAt 500) "r2" None db).2 !! "s1"
    = Some (Examples.seat "A1" PAYMENT_PENDING (Some "r2")).
Proof.
  split; [reflexivity|].
  apply (createPaymentIntent_overwrites_hold (Examples.envAt 500) "r2" None
           (mkDb Examples.heldHall (<["r2" := Examples.lock PENDING_PAYMENT (-1) None]> ∅)
              ∅ [] ∅)
           (Examples.lock PENDING_PAYMENT (-1) None) "s1"
           (Examples.seat "A1" PAYMENT_PENDING (Some "r1"))).
  - reflexivity.
  - reflexivity.
  - by eexists.
  - apply list_elem_of_here.
  - reflexivity.
  - by right.
Defined.

(** ** Confirming twice, with the TTL monitor at work *)














Section Pricing.

Lemma trim_empty : trim "" = "".
Proof. reflexivity. Qed.

Lemma startsWith_spec w s : startsWith w s = true ↔ w `prefix_of` s.
Proof.
  revert s. induction w as [|a w IH]; intros [|b s]; simpl.
  - split; [intros _; apply prefix_nil|done].
  - split; [intros _; apply prefix_nil|done].
  - split; [done|]. intros [k [=]].
  - rewrite andb_true_iff, IH. split.
    + intros [->%Ascii.eqb_eq Hp]. by apply prefix_cons.
    + intros [k [= -> ->]]. split; [apply Ascii.eqb_refl|by exists k].
Qed.

Lemma Run_snoc ws l w : PricingSpec.Run ws l → w ∈ ws → PricingSpec.Run ws (l ++ w).
Proof.
  induction 1 as [|w' l Hw' Hl IH]; intros Hw; simpl.
  - rewrite <- (app_nil_r w). by constructor; [|constructor].
  - rewrite <- app_assoc. constructor; [done|]. by apply IH.
Qed.

Lemma Run_rev ws l : PricingSpec.Run (map (@rev _) ws) l → PricingSpec.Run ws (rev l).
Proof.
  induction 1 as [|w l Hw Hl IH]; [constructor|].
  rewrite rev_app_distr. apply Run_snoc; [done|].
  apply list_elem_of_fmap in Hw as (w' & -> & Hw'). by rewrite rev_involutive.
Qed.

(** [dropLeading], given the fuel it is called with, removes a run of
    the characters and stops before what does not begin with one. *)
Lemma dropLeading_spec ws fuel : ∀ s,
  (∀ w, w ∈ ws → w ≠ []) →
  (length s ≤ fuel)%nat →
  ∃ l, s = l ++ dropLeading ws fuel s
       ∧ PricingSpec.Run ws l
       ∧ ∀ w, w ∈ ws → ¬ w `prefix_of` dropLeading ws fuel s.
Proof.
  induction fuel as [|fuel IH]; intros s Hne Hlen; simpl.
  - destruct s; [|simpl in Hlen; lia]. exists []. split; [done|]. split; [constructor|].
    intros w Hw [k Hk]. symmetry in Hk. apply app_eq_nil in Hk as [-> _]. by apply (Hne []).
  - destruct (List.find _ ws) as [w|] eqn:Hfind.
    + apply List.find_some in Hfind as [Hw Hp]. apply list_elem_of_In in Hw.
      apply startsWith_spec in Hp as [r ->].
      rewrite drop_app_length.
      destruct (IH r Hne) as (l & Hl & Hrun & Hstop).
      { rewrite length_app in Hlen. specialize (Hne w Hw). destruct w; [done|].
        simpl in Hlen. lia. }
      exists (w ++ l). split; [by rewrite <- app_assoc, <- Hl|]. split; [by constructor|done].
    + exists []. split; [done|]. split; [constructor|].
      intros w Hw Hp. apply startsWith_spec in Hp.
      apply list_elem_of_In in Hw.
      by rewrite (List.find_none _ _ Hfind w Hw) in Hp.
Qed.

Lemma utf8_nonempty c : utf8 c ≠ [].
Proof. unfold utf8. by repeat case_match. Qed.

(** [trim] removes the white space around a string, and nothing else. *)
Lemma trim_Trimmed t : PricingSpec.Trimmed t (trim t).
Proof.
  unfold PricingSpec.Trimmed, trim, trimEnd, trimStart.
  rewrite !String.list_ascii_of_string_of_list_ascii.
  set (cs := String.list_ascii_of_string t).
  destruct (dropLeading_spec whiteSpace (length cs) cs) as (l & Hl & Hrunl & Hstart); [|done|].
  { intros w (c & -> & _)%list_elem_of_fmap. apply utf8_nonempty. }
  set (a := dropLeading whiteSpace (length cs) cs) in *.
  destruct (dropLeading_spec (map (@rev _) whiteSpace) (length (rev a)) (rev a))
    as (r & Hr & Hrunr & Hend); [|done|].
  { intros w (w' & -> & (c & -> & _)%list_elem_of_fmap)%list_elem_of_fmap Hnil.
    apply (f_equal (@rev _)) in Hnil. rewrite rev_involutive in Hnil.
    by apply utf8_nonempty in Hnil. }
  set (b := dropLeading (map (@rev _) whiteSpace) (length (rev a)) (rev a)) in *.
  assert (a = rev b ++ rev r) as Ha.
  { rewrite <- rev_app_distr, <- Hr. by rewrite rev_involutive. }
  exists l, (rev r). split; [by rewrite <- Ha|]. split; [done|]. split; [by apply Run_rev|].
  intros c Hc. split.
  - intros Hp. apply (Hstart (utf8 c)); [by apply list_elem_of_fmap_2|].
    rewrite Ha. by apply prefix_app_r.
  - intros [k Hk]. apply (Hend (rev (utf8 c))).
    { apply list_elem_of_fmap_2. by apply list_elem_of_fmap_2. }
    exists (rev k). rewrite <- rev_app_distr, <- Hk. by rewrite rev_involutive.
Qed.

Lemma SFcompare_finite_refl s m e :
  SFcompare (S754_finite s m e) (S754_finite s m e) = Some Eq.
Proof.
  simpl. destruct s; rewrite Z.compare_refl; simpl;
    rewrite ?Pos.compare_cont_refl, ?Pos.compare_refl; done.
Qed.

(** A number greater than 0 is truthy. *)
Lemma ltb_zero_truthy p : PrimFloat.ltb 0 p = true → truthyNum p = true.
Proof.
  unfold truthyNum, is_nan. rewrite FloatAxioms.ltb_spec, !FloatAxioms.eqb_spec.
  change (Prim2SF 0) with (S754_zero false).
  destruct (Prim2SF p) as [s|s| |s m e] eqn:Hp; unfold SFltb, SFeqb.
  - simpl. discriminate.
  - destruct s; simpl; [discriminate|]. done.
  - simpl. discriminate.
  - rewrite SFcompare_finite_refl. destruct s; simpl; [discriminate|]. done.
Qed.

Lemma hasBasePrice_spec s :
  Pricing.hasBasePrice s
  = match Seat.basePrice s with
    | Some p => if PrimFloat.ltb 0 p then Some p else None
    | None => None
    end.
Proof.
  unfold Pricing.hasBasePrice. destruct (Seat.basePrice s) as [p|]; [|done].
  destruct (PrimFloat.ltb 0 p) eqn:Hp.
  - by rewrite (ltb_zero_truthy p Hp).
  - by rewrite andb_false_r.
Qed.

(** A map filled key by key holds, under a key, the value of the last
    element with that key. *)
Lemma foldl_insert_last {A V} (key : A → string) (val : A → V) (skip : A → bool)
    (l : list A) : ∀ (m : gmap string V) n,
  foldl (λ m a, if skip a then m else <[key a := val a]> m) m l !! n
  = match last (List.filter (λ a, negb (skip a) && String.eqb (key a) n) l) with
    | Some a => Some (val a)
    | None => m !! n
    end.
Proof.
  induction l as [|a l IH]; intros m n; [done|]. simpl. rewrite IH.
  destruct (skip a) eqn:Hskip; simpl.
  - done.
  - destruct (String.eqb_spec (key a) n) as [<-|Hne].
    + destruct (List.filter _ l) as [|b bs] eqn:Hf.
      * simpl. by rewrite lookup_insert_eq.
      * rewrite last_cons_cons. destruct (last (b :: bs)) eqn:Hlast; [done|].
        by apply last_None in Hlast.
    + by rewrite lookup_insert_ne.
Qed.

Lemma ticketTypeMap_lookup e n :
  n ≠ "" →
  Pricing.ticketTypeMap e !! n
  = (λ tier, (TicketType.adultPrice tier, TicketType.childPrice tier))
      <$> PricingSpec.tierNamed e n.
Proof.
  intros Hn. unfold Pricing.ticketTypeMap, PricingSpec.tierNamed.
  rewrite (foldl_insert_last TicketType.name
             (λ tier, (TicketType.adultPrice tier, TicketType.childPrice tier))
             (λ tier, String.eqb (TicketType.name tier) "")).
  rewrite lookup_empty.
  assert (List.filter (λ a, negb (String.eqb (TicketType.name a) "")
                            && String.eqb (TicketType.name a) n) (Event.ticketTypes e)
          = List.filter (λ tier, String.eqb (TicketType.name tier) n) (Event.ticketTypes e)) as ->.
  { apply List.filter_ext. intros tier.
    destruct (String.eqb_spec (TicketType.name tier) n) as [->|]; [|by rewrite andb_false_r].
    by rewrite (proj2 (String.eqb_neq n "") Hn). }
  by destruct (last _).
Qed.

Lemma assignmentMap_lookup seatAssignments id :
  default adult (Pricing.assignmentMap seatAssignments !! id)
  = PricingSpec.ageClassOf seatAssignments id.
Proof.
  unfold Pricing.assignmentMap, PricingSpec.ageClassOf.
  rewrite (foldl_insert_last SeatAssignment.seatId SeatAssignment.ticketType (λ _, false)).
  rewrite lookup_empty. simpl. by destruct (last _).
Qed.

Lemma tierOf_spec e s :
  Pricing.tierOf e s
  = (λ tier, (TicketType.adultPrice tier, TicketType.childPrice tier))
      <$> PricingSpec.assignedTier e s.
Proof.
  unfold Pricing.tierOf, Pricing.seatTicketType, PricingSpec.assignedTier.
  destruct (Seat.ticketType s) as [t|]; [|done]. simpl.
  destruct (String.eqb_spec t "") as [->|Ht]; simpl; [done|].
  destruct (String.eqb_spec (trim t) "") as [Hn|Hn]; simpl; [done|].
  by apply ticketTypeMap_lookup.
Qed.

(** The price the code gives a seat is the unit price of the amended claim. *)
Lemma assignedPrice_spec e seatAssignments seat :
  Pricing.assignedPrice e (Pricing.assignmentMap seatAssignments) seat
  = PricingSpec.unitPrice e seatAssignments seat.
Proof.
  unfold Pricing.assignedPrice, PricingSpec.unitPrice.
  rewrite tierOf_spec, assignmentMap_lookup, hasBasePrice_spec.
  destruct (PricingSpec.assignedTier e seat.2) as [tier|]; simpl.
  - by destruct (PricingSpec.ageClassOf _ _).
  - destruct (Seat.basePrice seat.2) as [p|]; [|done]. by destruct (PrimFloat.ltb 0 p).
Qed.

Lemma foldl_pointwise {A B} (f g : B → A → B) (l : list A) :
  (∀ b x, f b x = g b x) → ∀ b, foldl f b l = foldl g b l.
Proof.
  intros Hfg. induction l as [|x l IH]; intros b; [done|]. simpl. by rewrite Hfg, IH.
Qed.

Lemma commissionOf_spec e subtotal n :
  Pricing.commissionOf e subtotal n = PricingSpec.commission e subtotal n.
Proof.
  unfold Pricing.commissionOf, PricingSpec.commission.
  destruct (Event.commission e) as [[[] v]|]; done.
Qed.

(** A seat whose ticket type is [VIP] followed by a no-break space
    (U+00A0) and a line separator (U+2028) is priced as the tier [VIP]. *)
Lemma calculateAmountWithSeatAssignments_unicode_space :
  let vip := "VIP" +:+ String.string_of_list_ascii (utf8 160 ++ utf8 8232) in
  trim (" " +:+ vip) = "VIP"
  ∧ AmountSummary.subtotal
      (Pricing.calculateAmountWithSeatAssignments
         [("s1", Seat.mk "ev1" "A1" (Some vip) (Some 50%float) AVAILABLE None)]
         Examples.concert [])
    = 2000%float.
Proof. split; vm_compute; reflexivity. Qed.

(** C9 (amended). For every seat list, event and per-seat assignment, the
    summary computed by [calculateAmountWithSeatAssignments] is the one of
    the specification: each seat priced by its tier (the tier named by the
    seat's ticket type trimmed of white space) and age class, else by its
    own price when that is greater than 0, else by the event's default
    price; the subtotal their sum; the commission a percentage of the
    subtotal or a flat value per seat (nothing without a commission); the
    taxes 0; the total their sum.  The trimmed ticket type is the ticket
    type without the white space, Unicode spaces and line terminators
    included, that it begins and ends with. *)
Theorem calculateAmountWithSeatAssignments_spec seats e seatAssignments :
  Pricing.calculateAmountWithSeatAssignments seats e seatAssignments
  = PricingSpec.summaryWith (PricingSpec.unitPrice e seatAssignments) e seats
  ∧ ∀ t, PricingSpec.Trimmed t (trim t).
Proof.
  split; [|intros; apply trim_Trimmed].
  unfold Pricing.calculateAmountWithSeatAssignments, PricingSpec.summaryWith,
    Pricing.summary, PricingSpec.sum.
  rewrite foldl_fmap.
  assert (foldl (λ subtotal seat,
                   (subtotal + Pricing.assignedPrice e
                                 (Pricing.assignmentMap seatAssignments) seat)%float)
            0%float seats
          = foldl (λ b x, (b + PricingSpec.unitPrice e seatAssignments x)%float)
              0%float seats) as ->.
  { apply foldl_pointwise. intros. by rewrite assignedPrice_spec. }
  by rewrite commissionOf_spec.
Qed.

(** C9, counterexample: a seat whose own price is 0 is charged the event's
    default price, not its own price. *)
Lemma calculateAmountWithSeatAssignments_counterexample :
  ¬ (∀ seats e seatAssignments,
       Pricing.calculateAmountWithSeatAssignments seats e seatAssignments
       = PricingSpec.summaryWith (PricingSpec.claimedUnitPrice e seatAssignments) e seats).
Proof.
  intros H.
  specialize (H [("s1", Seat.mk "ev1" "A1" None (Some 0%float) AVAILABLE None)]
                Examples.concert []).
  apply (f_equal (λ a, PrimFloat.eqb (AmountSummary.subtotal a) 500)) in H.
  vm_compute in H. discriminate.
Qed.
End Pricing.

(** * Further properties of the seat store *)

Lemma atomicLockSeats_success_failed seatIds rid m :
  SeatsService.success (SeatsService.atomicLockSeats seatIds rid m).2 = true
  ↔ SeatsService.failedIds (SeatsService.lockLoop seatIds rid m) = [].
Proof.
  unfold SeatsService.atomicLockSeats.
  destruct (SeatsService.failedIds _) as [|x xs]; simpl; [done|].
  split; discriminate.
Qed.

(** X1. [atomicLockSeats] reports success exactly when the requested ids
    are pairwise distinct and each of them is a seat in state [available]:
    an id given twice, an unknown id or a seat in any other state makes the
    whole call fail. *)
Theorem atomicLockSeats_success_iff seatIds rid m :
  SeatsService.success (SeatsService.atomicLockSeats seatIds rid m).2 = true
  ↔ NoDup seatIds
    ∧ ∀ id, id ∈ seatIds → ∃ s, m !! id = Some s ∧ Seat.state s = AVAILABLE.
Proof. rewrite atomicLockSeats_success_failed. apply lockLoop_failed_nil. Qed.

(** The seats a successful [atomicLockSeats] leaves. *)
Lemma atomicLockSeats_success_lookup seatIds rid m id :
  SeatsService.success (SeatsService.atomicLockSeats seatIds rid m).2 = true →
  (SeatsService.atomicLockSeats seatIds rid m).1 !! id
  = if bool_decide (id ∈ seatIds)
    then Seat.setHold PAYMENT_PENDING rid <$> m !! id
    else m !! id.
Proof.
  intros Hok. apply atomicLockSeats_success_failed in Hok.
  pose proof Hok as [_ Hall]%lockLoop_failed_nil.
  unfold SeatsService.atomicLockSeats. rewrite Hok. simpl.
  destruct (lockLoop_spec seatIds rid m) as (Hm & _). rewrite Hm. unfold lockedView.
  unfold includes. destruct (bool_decide (id ∈ seatIds)) eqn:Hin.
  - apply bool_decide_eq_true in Hin. destruct (Hall id Hin) as (s & -> & Hav). simpl.
    by rewrite (proj2 (isState_true AVAILABLE s) Hav).
  - destruct (m !! id) as [s|]; simpl; [|done]. by rewrite andb_false_r.
Qed.

(** The seats a successful [atomicLockSeats] has locked and left. *)
Lemma atomicLockSeats_success_lock seatIds rid m :
  SeatsService.success (SeatsService.atomicLockSeats seatIds rid m).2 = true →
  (∀ id, id ∈ seatIds →
     ∃ s, m !! id = Some s ∧ Seat.state s = AVAILABLE
          ∧ (SeatsService.atomicLockSeats seatIds rid m).1 !! id
            = Some (Seat.setHold PAYMENT_PENDING rid s))
  ∧ (∀ id, id ∉ seatIds → (SeatsService.atomicLockSeats seatIds rid m).1 !! id = m !! id).
Proof.
  intros Hok.
  pose proof (λ id, atomicLockSeats_success_lookup seatIds rid m id Hok) as Hlook.
  pose proof Hok as [_ Hall]%atomicLockSeats_success_failed%lockLoop_failed_nil.
  split.
  - intros id Hid. destruct (Hall id Hid) as (s & Hs & Hav). exists s.
    split_and!; [done|done|]. by rewrite Hlook, bool_decide_eq_true_2, Hs.
  - intros id Hid. by rewrite Hlook, bool_decide_eq_false_2.
Qed.

(** X2. When [atomicLockSeats] succeeds, nothing is reported as failed,
    every requested seat is [payment_pending] under the reservation id with
    its other fields as before, and every seat that was not requested is as
    it was. *)
Theorem atomicLockSeats_holds_all seatIds rid m m' res :
  SeatsService.atomicLockSeats seatIds rid m = (m', res) →
  SeatsService.success res = true →
  SeatsService.failedSeatIds res = []
  ∧ (∀ id, id ∈ seatIds →
       ∃ s, m !! id = Some s ∧ Seat.state s = AVAILABLE
            ∧ m' !! id = Some (Seat.setHold PAYMENT_PENDING rid s))
  ∧ (∀ id, id ∉ seatIds → m' !! id = m !! id).
Proof.
  intros Hcall Hok.
  assert (SeatsService.success (SeatsService.atomicLockSeats seatIds rid m).2 = true) as Hok'
    by (by rewrite Hcall).
  pose proof (atomicLockSeats_success_lock seatIds rid m Hok') as Hlock.
  rewrite Hcall in Hlock. simpl in Hlock. split; [|exact Hlock].
  revert Hcall Hok. unfold SeatsService.atomicLockSeats.
  destruct (0 <? _)%nat; intros [= <- <-]; [discriminate|done].
Qed.

(** Witness of [atomicLockSeats_holds_all]: seat [s1] of [Examples.hall]
    is locked for [r1]; seat [s2], held by [r0], is left alone. *)
Lemma atomicLockSeats_holds_all_witness :
  let call := SeatsService.atomicLockSeats ["s1"] "r1" Examples.hall in
  call.1 !! "s1" = Some (Examples.seat "A1" PAYMENT_PENDING (Some "r1"))
  ∧ call.1 !! "s2" = Examples.hall !! "s2".
Proof.
  pose proof (atomicLockSeats_holds_all ["s1"] "r1" Examples.hall
                (SeatsService.atomicLockSeats ["s1"] "r1" Examples.hall).1
                (SeatsService.atomicLockSeats ["s1"] "r1" Examples.hall).2
                eq_refl eq_refl) as (_ & Hin & Hout).
  split.
  - destruct (Hin "s1") as (s & Hs & _ & Hs'); [apply list_elem_of_here|].
    rewrite Hs'. vm_compute in Hs. by injection Hs as <-.
  - apply Hout. intros H. apply list_elem_of_singleton in H. discriminate.
Defined.

(** ** Confirming and releasing *)

(** The seats [atomicConfirmSeats] has booked when it counts as many as
    it was asked for. *)
Lemma atomicConfirmSeats_booked seatIds rid m :
  (SeatsService.atomicConfirmSeats seatIds rid m).2 = length seatIds →
  NoDup seatIds
  ∧ (∀ id, id ∈ seatIds →
       ∃ s, m !! id = Some s ∧ Seat.state s = PAYMENT_PENDING
            ∧ Seat.pendingReservationId s = Some rid
            ∧ (SeatsService.atomicConfirmSeats seatIds rid m).1 !! id
              = Some (Seat.setStateUnset BOOKED s))
  ∧ (∀ id, id ∉ seatIds → (SeatsService.atomicConfirmSeats seatIds rid m).1 !! id = m !! id).
Proof.
  unfold SeatsService.atomicConfirmSeats. simpl. intros Hcount.
  destruct (countDocs_all (SeatsService.confirmFilter seatIds rid) seatIds m) as [Hnd Hall];
    [|done|].
  { intros id s. unfold SeatsService.confirmFilter. rewrite !andb_true_iff.
    intros [[Hid _] _]. by apply includes_true. }
  split_and!; [done| |].
  - intros id Hid. destruct (Hall id Hid) as (s & Hs & Hf). exists s.
    rewrite lookup_updateMany, Hs. simpl. rewrite Hf.
    unfold SeatsService.confirmFilter in Hf. rewrite !andb_true_iff in Hf.
    destruct Hf as [[_ Hst] Hheld]. apply isState_true in Hst. apply heldBy_true in Hheld.
    done.
  - intros id Hid. rewrite lookup_updateMany. destruct (m !! id) as [s|]; simpl; [|done].
    unfold SeatsService.confirmFilter.
    destruct (includes id seatIds) eqn:E; [by apply includes_true in E|done].
Qed.

(** X3. When [atomicConfirmSeats] returns the number of seats it was asked
    to confirm, the ids were pairwise distinct, every one of them was a seat
    pending under the reservation, and is [booked] with its hold reference
    cleared afterwards; every other seat is as it was. *)
Theorem atomicConfirmSeats_all_booked seatIds rid m :
  (SeatsService.atomicConfirmSeats seatIds rid m).2 = length seatIds →
  NoDup seatIds
  ∧ (∀ id, id ∈ seatIds →
       ∃ s, m !! id = Some s ∧ Seat.state s = PAYMENT_PENDING
            ∧ Seat.pendingReservationId s = Some rid
            ∧ (SeatsService.atomicConfirmSeats seatIds rid m).1 !! id
              = Some (Seat.setStateUnset BOOKED s))
  ∧ (∀ id, id ∉ seatIds → (SeatsService.atomicConfirmSeats seatIds rid m).1 !! id = m !! id).
Proof. apply atomicConfirmSeats_booked. Qed.

(** Witness of [atomicConfirmSeats_all_booked]: seat [s1], held by [r1],
    is confirmed. *)
Lemma atomicConfirmSeats_all_booked_witness :
  (SeatsService.atomicConfirmSeats ["s1"] "r1" Examples.heldHall).1 !! "s1"
  = Some (Examples.seat "A1" BOOKED None).
Proof.
  destruct (atomicConfirmSeats_all_booked ["s1"] "r1" Examples.heldHall eq_refl)
    as (_ & Hin & _).
  destruct (Hin "s1") as (s & Hs & _ & _ & Hs'); [apply list_elem_of_here|].
  rewrite Hs'. vm_compute in Hs. by injection Hs as <-.
Defined.

Lemma countDocs_none {A} (P : string → A → bool) (m : gmap string A) :
  (∀ id d, m !! id = Some d → P id d = false) → countDocs P m = 0%nat.
Proof.
  intros HP. unfold countDocs.
  destruct (findDocs P m) as [|[id d] ds] eqn:E; [done|].
  assert ((id, d) ∈ findDocs P m) as Hin by (rewrite E; apply list_elem_of_here).
  apply elem_of_findDocs in Hin as [Hd Hp]. rewrite (HP id d Hd) in Hp. discriminate.
Qed.

(** X4. After [releaseSeatsByReservation] no seat is pending under the
    reservation: the seats that were are [available] with their hold
    reference cleared, every other seat is as it was; and releasing again
    changes nothing and reports 0 seats. *)
Theorem releaseSeatsByReservation_releases rid m :
  let m' := (SeatsService.releaseSeatsByReservation rid m).1 in
  (∀ id s, m !! id = Some s →
     m' !! id = Some (if bool_decide (Seat.state s = PAYMENT_PENDING
                                      ∧ Seat.pendingReservationId s = Some rid)
                      then Seat.setStateUnset AVAILABLE s else s))
  ∧ (∀ id, m !! id = None → m' !! id = None)
  ∧ (∀ id s, m' !! id = Some s →
       ¬ (Seat.state s = PAYMENT_PENDING ∧ Seat.pendingReservationId s = Some rid))
  ∧ SeatsService.releaseSeatsByReservation rid m' = (m', 0%nat).
Proof.
  intros m'. unfold m', SeatsService.releaseSeatsByReservation. simpl.
  assert (∀ s, SeatsService.releaseFilter rid "" s
               = bool_decide (Seat.state s = PAYMENT_PENDING
                              ∧ Seat.pendingReservationId s = Some rid)) as Hf.
  { intros s. apply eq_true_iff_eq. unfold SeatsService.releaseFilter.
    rewrite andb_true_iff, heldBy_true, isState_true, bool_decide_eq_true. tauto. }
  assert (∀ id s, updateMany (SeatsService.releaseFilter rid) (Seat.setStateUnset AVAILABLE) m
                    !! id = Some s → SeatsService.releaseFilter rid id s = false) as Hnone.
  { intros id s. rewrite lookup_updateMany.
    destruct (m !! id) as [s0|]; simpl; [|done]. intros [= <-].
    destruct (SeatsService.releaseFilter rid id s0) eqn:E; [done|exact E]. }
  split_and!.
  - intros id s Hs. rewrite lookup_updateMany, Hs. simpl. f_equal. by rewrite <- Hf.
  - intros id Hs. by rewrite lookup_updateMany, Hs.
  - intros id s Hs [Hst Hheld]. apply Hnone in Hs. unfold SeatsService.releaseFilter in Hs.
    by rewrite (proj2 (heldBy_true rid s) Hheld), (proj2 (isState_true _ s) Hst) in Hs.
  - f_equal; [|by apply countDocs_none].
    apply map_eq. intros id. rewrite lookup_updateMany.
    destruct (updateMany _ _ m !! id) as [s|] eqn:Hs; simpl; [|done].
    by rewrite (Hnone id s Hs).
Qed.

(** * Further properties of the booking service *)

(** ** createReservation *)

(** A query that selects among the ids [ids] matches as many documents as
    [ids] is long exactly when [ids] names no id twice and every id of it
    is a document that the query matches. *)
Lemma countDocs_length_iff {A} (P : string → A → bool) (ids : list string) (m : gmap string A) :
  (∀ id d, P id d = true → id ∈ ids) →
  countDocs P m = length ids
  ↔ NoDup ids ∧ ∀ id, id ∈ ids → ∃ d, m !! id = Some d ∧ P id d = true.
Proof.
  intros HP. split; [by apply countDocs_all|]. intros [Hnd Hall].
  unfold countDocs. rewrite <- (length_fmap fst). apply Permutation_length.
  apply NoDup_Permutation; [apply NoDup_findDocs|done|].
  intros id. split.
  - intros ([id' d] & -> & Hin)%list_elem_of_fmap.
    apply elem_of_findDocs in Hin as [_ Hin]. by eapply HP.
  - intros Hid. destruct (Hall id Hid) as (d & Hd & Hp).
    apply list_elem_of_fmap. exists (id, d). split; [done|]. by apply elem_of_findDocs.
Qed.

Lemma findByEventAndIds_length eventId seatIds m :
  length (SeatsService.findByEventAndIds eventId seatIds m) = length seatIds
  ↔ NoDup seatIds
    ∧ ∀ id, id ∈ seatIds → ∃ s, m !! id = Some s ∧ Seat.eventId s = eventId.
Proof.
  unfold SeatsService.findByEventAndIds.
  change (length (findDocs ?P m)) with (countDocs P m).
  rewrite countDocs_length_iff
    by (intros id s [_ Hin]%andb_true_iff; by apply includes_true).
  split; intros [Hnd Hall]; (split; [done|]); intros id Hid;
    destruct (Hall id Hid) as (s & Hs & Hp); exists s; (split; [done|]).
  - apply andb_true_iff in Hp as [Hp _]. by apply String.eqb_eq.
  - rewrite andb_true_iff, String.eqb_eq, includes_true. done.
Qed.

Lemma length_zero_nil {A} (l : list A) : (length l =? 0)%nat = false ↔ l ≠ [].
Proof. rewrite Nat.eqb_neq. destruct l; simpl; split; (done || lia). Qed.

Lemma EventsService_findOne_run id db :
  EventsService.findOne id db
  = match events db !! id with
    | Some e => (inr e, db)
    | None => (inl (NotFoundException ("Event with ID " +:+ id +:+ " not found")), db)
    end.
Proof. unfold EventsService.findOne. mrun. by destruct (events db !! id). Qed.

(** What a request that can be reserved gets. *)
Lemma createReservationBody_run env dto db e :
  Reservable env dto db →
  events db !! CreateBookingDto.eventId dto = Some e →
  let r := reservationFor env dto db e in
  BookingsService.createReservationBody env dto db
  = (inr r,
     withSeatLocks (λ m, <[newReservationId env := seatLockFor dto r]> m)
       (withSeats (λ _, (SeatsService.atomicLockSeats (CreateBookingDto.seatIds dto)
                           (newReservationId env) (seats db)).1) db)).
Proof.
  intros (Hev & Hids & (e' & He' & Hen & Hact) & Hnd & Hseats & Hfresh) He r.
  assert (e' = e) as -> by congruence.
  unfold BookingsService.createReservationBody.
  destruct (String.eqb_spec (CreateBookingDto.eventId dto) ""); [done|].
  rewrite (proj2 (length_zero_nil _) Hids).
  rewrite run_bind, EventsService_findOne_run, He, Hen, Hact. cbn [negb]. mrun.
  assert (length (SeatsService.findByEventAndIds (CreateBookingDto.eventId dto)
                    (CreateBookingDto.seatIds dto) (seats db))
          = length (CreateBookingDto.seatIds dto)) as Hlen.
  { apply findByEventAndIds_length. split; [done|]. intros id Hid.
    destruct (Hseats id Hid) as (s & ? & ? & ?). eauto. }
  rewrite Hlen, Nat.eqb_refl. cbn [negb]. mrun.
  assert (SeatsService.success
            (SeatsService.atomicLockSeats (CreateBookingDto.seatIds dto)
               (newReservationId env) (seats db)).2 = true) as Hok.
  { apply atomicLockSeats_success_failed, lockLoop_failed_nil. split; [done|].
    intros id Hid. destruct (Hseats id Hid) as (s & ? & ? & ?). eauto. }
  fold (newReservationId env). rewrite Hok. cbn [negb].
  unfold BookingsService.insertNew. mrun. rewrite Hfresh. mrun.
  unfold r, reservationFor, seatLockFor. simpl. by rewrite Hlen.
Qed.

(** A request that gets a reservation could be reserved. *)
Lemma createReservationBody_Reservable env dto db r db' :
  BookingsService.createReservationBody env dto db = (inr r, db') →
  Reservable env dto db.
Proof.
  unfold BookingsService.createReservationBody.
  destruct (String.eqb_spec (CreateBookingDto.eventId dto) "") as [|Hev]; [done|].
  destruct (length _ =? 0)%nat eqn:Hids; [done|]. apply length_zero_nil in Hids.
  rewrite run_bind, EventsService_findOne_run.
  destruct (events db !! _) as [e|] eqn:He; [|done].
  destruct (Event.isTicketSaleEnabled e) eqn:Hen; [|done].
  destruct (BookingsService.isSalePeriodActive e (now env)) eqn:Hact; [|done].
  cbn [negb]. mrun.
  destruct (length _ =? length _)%nat eqn:Hlen; [|done].
  apply Nat.eqb_eq, findByEventAndIds_length in Hlen as [Hnd Hall].
  cbn [negb]. mrun. fold (newReservationId env).
  destruct (SeatsService.success _) eqn:Hok; [|done].
  apply atomicLockSeats_success_failed, lockLoop_failed_nil in Hok as [_ Hav].
  cbn [negb]. unfold BookingsService.insertNew. mrun.
  destruct (seatLocks db !! newReservationId env) eqn:Hfresh; [done|]. intros _.
  split_and!; try done; [by exists e|].
  intros id Hid. destruct (Hall id Hid) as (s & Hs & Hse), (Hav id Hid) as (s' & Hs' & Hs'a).
  exists s. split_and!; [done|done|congruence].
Qed.

Lemma createReservation_inr env dto db r db' :
  BookingsService.createReservation env dto db = (inr r, db')
  ↔ BookingsService.createReservationBody env dto db = (inr r, db').
Proof.
  unfold BookingsService.createReservation. rewrite tryCatch_run.
  destruct (BookingsService.createReservationBody env dto db) as [[e|r0] db0]; [|done].
  split; [by destruct e|done].
Qed.


(** X6. When [createReservation] answers with a reservation: its id is
    the generated one, it expires [holdSeconds] (600 when not given) after
    the call, it is stored once, in the cart state (-1) and pending payment,
    with the requested seats and the amount that is answered; every
    requested seat, which was available, is [payment_pending] under the new
    id; and every other seat, booking, backup and event is as it was. *)
Theorem createReservation_holds env dto db r db' :
  BookingsService.createReservation env dto db = (inr r, db') →
  let rid := newReservationId env in
  BookingsService.reservationId r = rid
  ∧ BookingsService.expiresAt r
    = now env + default 600 (CreateBookingDto.holdSeconds dto) * 1000
  ∧ BookingsService.reservedSeatIds r = CreateBookingDto.seatIds dto
  ∧ seatLocks db !! rid = None
  ∧ seatLocks db' = <[rid := seatLockFor dto r]> (seatLocks db)
  ∧ (∀ id, id ∈ CreateBookingDto.seatIds dto →
       ∃ s, seats db !! id = Some s ∧ Seat.state s = AVAILABLE
            ∧ seats db' !! id = Some (Seat.setHold PAYMENT_PENDING rid s))
  ∧ (∀ id, id ∉ CreateBookingDto.seatIds dto → seats db' !! id = seats db !! id)
  ∧ bookings db' = bookings db ∧ seatLockBackups db' = seatLockBackups db
  ∧ events db' = events db.
Proof.
  intros Hr rid. apply createReservation_inr in Hr.
  pose proof (createReservationBody_Reservable _ _ _ _ _ Hr) as Hres.
  pose proof Hres as (_ & _ & (e & He & _) & _ & _ & Hfresh).
  rewrite (createReservationBody_run env dto db e Hres He) in Hr.
  injection Hr as <- <-. mrun.
  destruct (atomicLockSeats_success_lock (CreateBookingDto.seatIds dto) rid (seats db))
    as (Hin & Hout).
  { apply atomicLockSeats_success_failed, lockLoop_failed_nil.
    destruct Hres as (_ & _ & _ & Hnd & Hseats & _). split; [done|].
    intros id Hid. destruct (Hseats id Hid) as (s & ? & ? & ?). eauto. }
  by split_and!.
Qed.

(** Witness of [createReservation_holds]: seat [s1] of the open hall is
    reserved at time 500. *)
Lemma createReservation_holds_witness :
  let call := BookingsService.createReservation (Examples.envAt 500) Examples.dto
                Examples.openDb in
  let r := reservationFor (Examples.envAt 500) Examples.dto Examples.openDb Examples.concert in
  call.1 = inr r
  ∧ BookingsService.reservationId r = "reservation_u1"
  ∧ BookingsService.expiresAt r = 600500
  ∧ seats call.2 !! "s1" = Some (Examples.seat "A1" PAYMENT_PENDING (Some "reservation_u1")).
Proof.
  intros call r.
  assert (call = (inr r, call.2)) as Hcall by (vm_compute; reflexivity).
  destruct (createReservation_holds (Examples.envAt 500) Examples.dto Examples.openDb
              r call.2 Hcall) as (H1 & H2 & _ & _ & _ & Hin & _).
  split_and!; [by rewrite Hcall|exact H1|exact H2|].
  destruct (Hin "s1") as (s & Hs & _ & Hs'); [apply list_elem_of_here|].
  rewrite Hs'. vm_compute in Hs. by injection Hs as <-.
Defined.






(** ** getReservation *)

(** X8. A reservation that [createReservation] has answered is read back
    by [getReservation] under its id: same event and seats, pending
    payment, with the expiry time and the amount that were answered. *)
Theorem getReservation_after_create env dto db r db' :
  BookingsService.createReservation env dto db = (inr r, db') →
  BookingsService.getReservation (BookingsService.reservationId r) db'
  = (inr (BookingsService.mkReservationView (BookingsService.reservationId r)
            (CreateBookingDto.eventId dto) (BookingsService.reservedSeatIds r)
            PENDING_PAYMENT (BookingsService.expiresAt r)
            (Some (BookingsService.amountEstimate r))), db').
Proof.
  intros Hr. apply createReservation_inr in Hr.
  pose proof (createReservationBody_Reservable _ _ _ _ _ Hr) as Hres.
  pose proof Hres as (_ & _ & (e & He & _) & _).
  rewrite (createReservationBody_run env dto db e Hres He) in Hr.
  injection Hr as <- <-.
  unfold BookingsService.getReservation. mrun. by rewrite lookup_insert_eq.
Qed.
Lemma getReservation_after_create_witness :
  let call := BookingsService.createReservation (Examples.envAt 500) Examples.dto
                Examples.openDb in
  ∃ v, (BookingsService.getReservation "reservation_u1" call.2).1 = inr v
       ∧ BookingsService.viewSeatIds v = ["s1"]
       ∧ BookingsService.viewStatus v = PENDING_PAYMENT
       ∧ BookingsService.viewExpiresAt v = 600500.
Proof.
  intros call.
  pose (r := reservationFor (Examples.envAt 500) Examples.dto Examples.openDb Examples.concert).
  assert (call = (inr r, call.2)) as Hcall by (vm_compute; reflexivity).
  assert (BookingsService.reservationId r = "reservation_u1") as Hid by (vm_compute; reflexivity).
  pose proof (getReservation_after_create (Examples.envAt 500) Examples.dto Examples.openDb
                r call.2 Hcall) as H.
  rewrite Hid in H.
  rewrite H.
  eexists. split; [reflexivity|]. 
  split_and!; vm_compute; reflexivity.
Defined.

Lemma getReservation_not_found rid db :
  seatLocks db !! rid = None →
  BookingsService.getReservation rid db
  = (inl (NotFoundException ("Reservation with ID " +:+ rid +:+ " not found")), db).
Proof. intros H. unfold BookingsService.getReservation. mrun. by rewrite H. Qed.

(** ** updateTickets *)

(** X9. [updateTickets] either throws and changes nothing, or stores the
    amount it answers in the reservation, which is pending payment, and
    changes nothing else: no other field of the reservation, no other
    reservation, no seat and no booking. *)
Theorem updateTickets_writes_amount_only rid dto db :
  let call := BookingsService.updateTickets rid dto db in
  match call.1 with
  | inr amount =>
      ∃ l, seatLocks db !! rid = Some l
           ∧ SeatLock.status l = PENDING_PAYMENT
           ∧ call.2 = withSeatLocks (λ m, <[rid := SeatLock.setAmountSummary amount l]> m) db
  | inl _ => call.2 = db
  end.
Proof.
  unfold BookingsService.updateTickets. mrun.
  destruct (seatLocks db !! rid) as [l|] eqn:Hl; mrun; [|done].
  destruct (SeatLock.isStatus PENDING_PAYMENT l) eqn:Hst; cbn [negb]; mrun; [|done].
  apply isStatus_true in Hst.
  rewrite run_bind, EventsService_findOne_run.
  destruct (events db !! _) as [e|]; [|done]. mrun. simpl. eauto.
Qed.

(** ** cancelReservation *)

Lemma releaseSeatsByReservation_lookup rid m id :
  (SeatsService.releaseSeatsByReservation rid m).1 !! id
  = (λ s, if bool_decide (Seat.state s = PAYMENT_PENDING
                          ∧ Seat.pendingReservationId s = Some rid)
          then Seat.setStateUnset AVAILABLE s else s) <$> m !! id.
Proof.
  unfold SeatsService.releaseSeatsByReservation. simpl. rewrite lookup_updateMany.
  destruct (m !! id) as [s|]; simpl; [|done]. f_equal.
  assert (SeatsService.releaseFilter rid id s
          = bool_decide (Seat.state s = PAYMENT_PENDING
                         ∧ Seat.pendingReservationId s = Some rid)) as ->; [|done].
  apply eq_true_iff_eq. unfold SeatsService.releaseFilter.
  rewrite andb_true_iff, heldBy_true, isState_true, bool_decide_eq_true. tauto.
Qed.

Lemma releaseSeatsByReservation_again rid m :
  (SeatsService.releaseSeatsByReservation rid (SeatsService.releaseSeatsByReservation rid m).1).1
  = (SeatsService.releaseSeatsByReservation rid m).1.
Proof.
  apply map_eq. intros id. rewrite !releaseSeatsByReservation_lookup.
  destruct (m !! id) as [s|]; simpl; [|done]. f_equal.
  destruct (bool_decide (Seat.state s = PAYMENT_PENDING ∧ _)) eqn:E.
  - rewrite bool_decide_eq_false_2; [done|]. simpl. by intros [[=] _].
  - by rewrite E.
Qed.

Lemma cancelReservation_run rid db l :
  seatLocks db !! rid = Some l →
  BookingsService.cancelReservation rid db
  = (inr tt,
     withSeatLocks (λ m, <[rid := SeatLock.setStatus CANCELLED l]> m)
       (withSeats (λ m, (SeatsService.releaseSeatsByReservation rid m).1) db)).
Proof. intros Hl. unfold BookingsService.cancelReservation. mrun. rewrite Hl. by mrun. Qed.

(** X10. [cancelReservation] of a reservation that exists, whatever its
    status, marks it cancelled and keeps its other fields (the numeric
    state among them); afterwards no seat is pending under it, while every
    seat that was not pending under it (a booked seat, a seat of another
    reservation) and every booking is as it was; and cancelling it again
    changes nothing. Without the reservation it throws not-found. *)
Theorem cancelReservation_releases rid db :
  let call := BookingsService.cancelReservation rid db in
  match seatLocks db !! rid with
  | Some l =>
      call.1 = inr tt
      ∧ seatLocks call.2 = <[rid := SeatLock.setStatus CANCELLED l]> (seatLocks db)
      ∧ (∀ id s, seats call.2 !! id = Some s →
           ¬ (Seat.state s = PAYMENT_PENDING ∧ Seat.pendingReservationId s = Some rid))
      ∧ (∀ id s, seats db !! id = Some s →
           seats call.2 !! id
           = Some (if bool_decide (Seat.state s = PAYMENT_PENDING
                                   ∧ Seat.pendingReservationId s = Some rid)
                   then Seat.setStateUnset AVAILABLE s else s))
      ∧ bookings call.2 = bookings db
      ∧ BookingsService.cancelReservation rid call.2 = (inr tt, call.2)
  | None =>
      call = (inl (NotFoundException ("Reservation with ID " +:+ rid +:+ " not found")), db)
  end.
Proof.
  intros call. unfold call. destruct (seatLocks db !! rid) as [l|] eqn:Hl.
  2:{ unfold BookingsService.cancelReservation. mrun. by rewrite Hl. }
  rewrite (cancelReservation_run rid db l Hl). split_and!; try done.
  - intros id s. mrun. rewrite releaseSeatsByReservation_lookup.
    destruct (seats db !! id) as [s0|]; simpl; [|done]. intros [= <-].
    destruct (bool_decide _) eqn:E; [simpl; by intros [[=] _]|].
    by apply bool_decide_eq_false in E.
  - intros id s Hs. mrun. by rewrite releaseSeatsByReservation_lookup, Hs.
  - erewrite cancelReservation_run by (mrun; apply lookup_insert_eq).
    f_equal. destruct db as [ss ls bk bs es]. unfold withSeatLocks, withSeats. simpl. f_equal.
    + apply releaseSeatsByReservation_again.
    + by rewrite insert_insert_eq.
Qed.

(** ** confirmBooking *)

(** The first confirmation of a reservation that is pending payment, up to
    the seat update. *)
Lemma confirmBooking_pending env rid pid db l :
  seatLocks db !! rid = Some l →
  SeatLock.status l = PENDING_PAYMENT →
  ¬ SeatLock.expiresAt l < now env →
  let confirmed := SeatsService.atomicConfirmSeats (SeatLock.seatIds l) rid (seats db) in
  let db1 := withSeats (λ _, confirmed.1) db in
  BookingsService.confirmBooking env rid pid db
  = if negb (confirmed.2 =? length (SeatLock.seatIds l))%nat
    then (inl (BadRequestException "Some seats could not be confirmed"), db1)
    else
      let seatLock' :=
        let completed := SeatLock.setStatus COMPLETED l in
        match pid with
        | Some p => if truthy pid then SeatLock.setPaymentIntentId p completed else completed
        | None => completed
        end in
      ((BookingsService.save rid seatLock';;
        existingBookings ← get (λ db, BookingsService.findBookings rid (bookings db));
        created ← (if (0 <? length existingBookings)%nat
                   then ret existingBookings
                   else mapAll (SeatLock.seatIds seatLock')
                          (BookingsService.createBooking rid seatLock'));
        BookingsService.notifyFirebase env rid seatLock';;
        ret (BookingsService.mkConfirmation rid (map fst created)
               (SeatLock.seatIds seatLock'))) : M _) db1.
Proof.
  intros Hl Hst Hexp confirmed db1. unfold BookingsService.confirmBooking. mrun. rewrite Hl.
  unfold BookingsService.alreadyConfirmed.
  assert (SeatLock.isStatus COMPLETED l = false) as ->.
  { unfold SeatLock.isStatus. by rewrite Hst. }
  assert (SeatLock.isStatus PENDING_PAYMENT l = true) as ->.
  { unfold SeatLock.isStatus. by rewrite Hst. }
  mrun. cbn [negb andb]. rewrite bool_decide_eq_false_2 by done.
  rewrite run_onSeats. fold confirmed. fold db1.
  by destruct (negb _).
Qed.

(** X11. When the confirmation of a reservation that is pending payment
    returns: the reservation had not expired, its seat ids are pairwise
    distinct, every one of its seats was pending under it and is now
    [booked] with no hold reference, every other seat is as it was, and
    the reservation is completed. *)
Theorem confirmBooking_books_seats env rid pid db l c db1 :
  seatLocks db !! rid = Some l →
  SeatLock.status l = PENDING_PAYMENT →
  BookingsService.confirmBooking env rid pid db = (inr c, db1) →
  now env ≤ SeatLock.expiresAt l
  ∧ NoDup (SeatLock.seatIds l)
  ∧ (∀ sid, sid ∈ SeatLock.seatIds l →
       ∃ s, seats db !! sid = Some s ∧ Seat.state s = PAYMENT_PENDING
            ∧ Seat.pendingReservationId s = Some rid
            ∧ seats db1 !! sid = Some (Seat.setStateUnset BOOKED s))
  ∧ (∀ sid, sid ∉ SeatLock.seatIds l → seats db1 !! sid = seats db !! sid)
  ∧ SeatLock.status <$> seatLocks db1 !! rid = Some COMPLETED.
Proof.
  intros Hl Hst Hcall.
  destruct (decide (SeatLock.expiresAt l < now env)) as [Hexp|Hexp].
  { by rewrite (confirmBooking_expired env rid pid db l Hl Hst Hexp) in Hcall. }
  pose proof (confirmBooking_success env rid pid db l c db1 Hl Hcall)
    as (l1 & Hl1 & Hst1 & _).
  rewrite (confirmBooking_pending env rid pid db l Hl Hst Hexp) in Hcall.
  destruct (negb _) eqn:Hcount; [done|]. apply negb_false_iff, Nat.eqb_eq in Hcount.
  assert (seats db1 = (SeatsService.atomicConfirmSeats (SeatLock.seatIds l) rid (seats db)).1)
    as Hseats.
  { revert Hcall. cbn zeta.
    set (l' := match pid with Some _ => _ | None => _ end).
    rewrite run_save_bind, run_get.
    match goal with |- context [mbind _ _ ?d] => set (db2 := d) end.
    rewrite run_bind.
    assert (∀ r d, (if (0 <? length (BookingsService.findBookings rid (bookings db2)))%nat
                    then ret (BookingsService.findBookings rid (bookings db2))
                    else mapAll (SeatLock.seatIds l') (BookingsService.createBooking rid l'))
                     db2 = (inr r, d) → seats d = seats db2) as Hcr.
    { intros r d. destruct (0 <? _)%nat; [by intros [= _ <-]|].
      intros H. by apply mapAll_createBooking_run in H as (_ & _ & _ & _ & Hs & _). }
    match goal with |- context [match ?m db2 with _ => _ end] =>
      destruct (m db2) as [[e|created] db3] eqn:Hm
    end; [done|].
    specialize (Hcr created db3 eq_refl).
    rewrite run_bind. pose proof (notifyFirebase_db env rid l' db3) as Hn.
    destruct (BookingsService.notifyFirebase env rid l' db3) as [[e|[]] db4];
      simpl in Hn; subst db4; [done|].
    mrun. intros [= _ <-]. by rewrite Hcr. }
  rewrite Hseats, Hl1. simpl. rewrite Hst1.
  destruct (atomicConfirmSeats_booked (SeatLock.seatIds l) rid (seats db) Hcount)
    as (Hnd & Hin & Hout).
  split_and!; [lia|done|done|done|done].
Qed.

(** Witness of [confirmBooking_books_seats]: reservation [r1] of seat [s1],
    at the gateway and not yet expired, is confirmed. *)
Lemma confirmBooking_books_seats_witness :
  let db := Examples.dbWith (Examples.lock PENDING_PAYMENT (-2) (Some "txn1")) in
  let call := BookingsService.confirmBooking (Examples.envAt 500) "r1" (Some "txn1") db in
  seats call.2 !! "s1" = Some (Examples.seat "A1" BOOKED None)
  ∧ SeatLock.status <$> seatLocks call.2 !! "r1" = Some COMPLETED.
Proof.
  intros db call.
  assert (call = (inr (BookingsService.mkConfirmation "r1" [0%nat] ["s1"]), call.2)) as Hcall
    by (vm_compute; reflexivity).
  destruct (confirmBooking_books_seats (Examples.envAt 500) "r1" (Some "txn1") db
              (Examples.lock PENDING_PAYMENT (-2) (Some "txn1"))
              (BookingsService.mkConfirmation "r1" [0%nat] ["s1"]) call.2 eq_refl eq_refl Hcall)
    as (_ & _ & Hin & _ & Hst).
  split; [|exact Hst].
  destruct (Hin "s1") as (s & Hs & _ & _ & Hs'); [apply list_elem_of_here|].
  rewrite Hs'. vm_compute in Hs. by injection Hs as <-.
Defined.

(** X12. A confirmation is not undone when it fails half way: when the
    reservation is pending payment and not expired but some seat of it is no
    longer pending under it, [confirmBooking] throws "Some seats could not be
    confirmed", leaves the reservation and the bookings as they were, and
    leaves every seat of the reservation that was pending under it
    [booked]. *)
Theorem confirmBooking_partial_not_undone env rid pid db l :
  seatLocks db !! rid = Some l →
  SeatLock.status l = PENDING_PAYMENT →
  now env ≤ SeatLock.expiresAt l →
  (SeatsService.atomicConfirmSeats (SeatLock.seatIds l) rid (seats db)).2
  ≠ length (SeatLock.seatIds l) →
  let call := BookingsService.confirmBooking env rid pid db in
  call.1 = inl (BadRequestException "Some seats could not be confirmed")
  ∧ seatLocks call.2 = seatLocks db
  ∧ bookings call.2 = bookings db
  ∧ (∀ sid s, sid ∈ SeatLock.seatIds l → seats db !! sid = Some s →
       Seat.state s = PAYMENT_PENDING → Seat.pendingReservationId s = Some rid →
       seats call.2 !! sid = Some (Seat.setStateUnset BOOKED s)).
Proof.
  intros Hl Hst Hexp Hcount call. unfold call.
  rewrite (confirmBooking_pending env rid pid db l Hl Hst) by lia.
  apply Nat.eqb_neq in Hcount. rewrite Hcount. cbn [negb]. split_and!; try done.
  intros sid s Hsid Hs Hstate Hheld. mrun. unfold SeatsService.atomicConfirmSeats. simpl.
  rewrite lookup_updateMany, Hs. simpl. unfold SeatsService.confirmFilter.
  by rewrite (proj2 (includes_true _ _) Hsid), (proj2 (isState_true _ s) Hstate),
    (proj2 (heldBy_true rid s) Hheld).
Qed.

(** Witness of [confirmBooking_partial_not_undone]: reservation [r1] lists
    seats [s1] and [s2]; [s1] is pending under it, [s2] has been set
    available by the organiser. *)
Lemma confirmBooking_partial_not_undone_witness :
  let l := SeatLock.mk "ev1" None None ["s1"; "s2"] PENDING_PAYMENT (-2) 1000 None
             (Some "txn1") (Some "0771234567") None None None None None None None in
  let db := mkDb (<["s1" := Examples.seat "A1" PAYMENT_PENDING (Some "r1")]>
                    (<["s2" := Examples.seat "A2" AVAILABLE (Some "r1")]> ∅))
              (<["r1" := l]> ∅) ∅ [] (<["ev1" := Examples.concert]> ∅) in
  let call := BookingsService.confirmBooking (Examples.envAt 500) "r1" (Some "txn1") db in
  call.1 = inl (BadRequestException "Some seats could not be confirmed")
  ∧ SeatLock.status <$> seatLocks call.2 !! "r1" = Some PENDING_PAYMENT
  ∧ seats call.2 !! "s1" = Some (Examples.seat "A1" BOOKED None).
Proof.
  intros l db call.
  assert (seatLocks db !! "r1" = Some l) as Hl by (vm_compute; reflexivity).
  assert ((SeatsService.atomicConfirmSeats (SeatLock.seatIds l) "r1" (seats db)).2
          ≠ length (SeatLock.seatIds l)) as Hcount by (vm_compute; discriminate).
  assert (now (Examples.envAt 500) ≤ SeatLock.expiresAt l) as Hexp by (vm_compute; discriminate).
  destruct (confirmBooking_partial_not_undone (Examples.envAt 500) "r1" (Some "txn1") db l
              Hl eq_refl Hexp Hcount) as (H1 & H2 & _ & H4).
  split_and!; [exact H1| |].
  - change (seatLocks call.2) with
      (seatLocks (BookingsService.confirmBooking (Examples.envAt 500) "r1" (Some "txn1") db).2).
    rewrite H2, Hl. reflexivity.
  - apply (H4 "s1" (Examples.seat "A1" PAYMENT_PENDING (Some "r1")));
      [apply list_elem_of_here|vm_compute; reflexivity|reflexivity|reflexivity].
Defined.

(** X13. Cancelling after a confirmation does not give the seats back:
    when a reservation that was pending payment has been confirmed and is
    then cancelled, it is marked cancelled, but its seats stay [booked] and
    its bookings stay as they are. *)
Theorem cancelReservation_after_confirm env rid pid db l c db1 :
  seatLocks db !! rid = Some l →
  SeatLock.status l = PENDING_PAYMENT →
  BookingsService.confirmBooking env rid pid db = (inr c, db1) →
  let call := BookingsService.cancelReservation rid db1 in
  call.1 = inr tt
  ∧ SeatLock.status <$> seatLocks call.2 !! rid = Some CANCELLED
  ∧ (∀ sid, sid ∈ SeatLock.seatIds l →
       Seat.state <$> seats call.2 !! sid = Some BOOKED)
  ∧ bookings call.2 = bookings db1.
Proof.
  intros Hl Hst Hcall call. unfold call.
  destruct (decide (SeatLock.expiresAt l < now env)) as [Hexp|Hexp].
  { by rewrite (confirmBooking_expired env rid pid db l Hl Hst Hexp) in Hcall. }
  pose proof (confirmBooking_success env rid pid db l c db1 Hl Hcall)
    as (l1 & Hl1 & Hst1 & _).
  rewrite (cancelReservation_run rid db1 l1 Hl1). mrun. rewrite lookup_insert_eq.
  split_and!; [done|done| |done].
  intros sid Hsid. rewrite releaseSeatsByReservation_lookup.
  cut (∃ s, seats db1 !! sid = Some s ∧ Seat.state s = BOOKED).
  { intros (s & -> & Hs). simpl. rewrite bool_decide_eq_false_2; [by rewrite Hs|].
    rewrite Hs. by intros [[=] _]. }
  rewrite (confirmBooking_pending env rid pid db l Hl Hst Hexp) in Hcall.
  destruct (negb _) eqn:Hcount; [done|]. apply negb_false_iff, Nat.eqb_eq in Hcount.
  destruct (atomicConfirmSeats_booked (SeatLock.seatIds l) rid (seats db) Hcount)
    as (_ & Hin & _).
  destruct (Hin sid Hsid) as (s & _ & _ & _ & Hs').
  exists (Seat.setStateUnset BOOKED s). split; [|done].
  revert Hcall. cbn zeta.
  set (l' := match pid with Some _ => _ | None => _ end).
  rewrite run_save_bind, run_get.
  match goal with |- context [mbind _ _ ?d] => set (db2 := d) end.
  rewrite run_bind.
  assert (∀ r d, (if (0 <? length (BookingsService.findBookings rid (bookings db2)))%nat
                  then ret (BookingsService.findBookings rid (bookings db2))
                  else mapAll (SeatLock.seatIds l') (BookingsService.createBooking rid l'))
                   db2 = (inr r, d) → seats d = seats db2) as Hcr.
  { intros r d. destruct (0 <? _)%nat; [by intros [= _ <-]|].
    intros H. by apply mapAll_createBooking_run in H as (_ & _ & _ & _ & Hs & _). }
  match goal with |- context [match ?m db2 with _ => _ end] =>
    destruct (m db2) as [[e|created] db3] eqn:Hm
  end; [done|].
  specialize (Hcr created db3 eq_refl).
  rewrite run_bind. pose proof (notifyFirebase_db env rid l' db3) as Hn.
  destruct (BookingsService.notifyFirebase env rid l' db3) as [[e|[]] db4];
    simpl in Hn; subst db4; [done|].
  mrun. intros [= _ <-]. rewrite Hcr. exact Hs'.
Qed.

(** Witness of [cancelReservation_after_confirm]: reservation [r1] of seat
    [s1] is confirmed at time 500 and then cancelled. *)
Lemma cancelReservation_after_confirm_witness :
  let db := Examples.dbWith (Examples.lock PENDING_PAYMENT (-2) (Some "txn1")) in
  let first := BookingsService.confirmBooking (Examples.envAt 500) "r1" (Some "txn1") db in
  let call := BookingsService.cancelReservation "r1" first.2 in
  SeatLock.status <$> seatLocks call.2 !! "r1" = Some CANCELLED
  ∧ Seat.state <$> seats call.2 !! "s1" = Some BOOKED
  ∧ length (bookings call.2) = 1%nat.
Proof.
  intros db first call.
  assert (first = (inr (BookingsService.mkConfirmation "r1" [0%nat] ["s1"]), first.2)) as Hfirst
    by (vm_compute; reflexivity).
  destruct (cancelReservation_after_confirm (Examples.envAt 500) "r1" (Some "txn1") db
              (Examples.lock PENDING_PAYMENT (-2) (Some "txn1"))
              (BookingsService.mkConfirmation "r1" [0%nat] ["s1"]) first.2
              eq_refl eq_refl Hfirst) as (_ & Hst & Hseats & Hbs).
  split_and!; [exact Hst|apply Hseats, list_elem_of_here|].
  unfold call. rewrite Hbs. vm_compute. reflexivity.
Defined.

(** * Further properties: the hold invariant, the sweep, the listings *)

(** X14. Every operation of the seat store that the reservation flow uses
    to lock, confirm, re-hold or release seats keeps the hold invariant: a
    seat has a hold reference exactly when it is [payment_pending]. *)
Theorem seat_store_keeps_hold_invariant seatIds rid m :
  HoldInvariant m →
  HoldInvariant (SeatsService.atomicLockSeats seatIds rid m).1
  ∧ HoldInvariant (SeatsService.atomicConfirmSeats seatIds rid m).1
  ∧ HoldInvariant (SeatsService.setSeatsToPaymentPending seatIds rid m).1
  ∧ HoldInvariant (SeatsService.releaseSeatsByReservation rid m).1.
Proof.
  intros Hm. split_and!.
  - by apply atomicLockSeats_preserves.
  - by apply atomicConfirmSeats_preserves.
  - by apply setSeatsToPaymentPending_preserves.
  - by apply releaseSeatsByReservation_preserves.
Qed.

(** Witness of [seat_store_keeps_hold_invariant]: the hall in which seat
    [s1] is held by reservation [r1]. *)
Lemma seat_store_keeps_hold_invariant_witness :
  HoldInvariant (SeatsService.atomicLockSeats ["s1"] "r2" Examples.heldHall).1
  ∧ HoldInvariant (SeatsService.releaseSeatsByReservation "r1" Examples.heldHall).1.
Proof.
  destruct (seat_store_keeps_hold_invariant ["s1"] "r2" Examples.heldHall) as (H1 & _ & _ & _).
  { intros id s. unfold Examples.heldHall.
    destruct (decide (id = "s1")) as [->|Hne].
    - rewrite lookup_insert_eq. intros [= <-]. unfold holdConsistent. simpl. split; eauto.
    - rewrite lookup_insert_ne by done. by rewrite lookup_empty. }
  split; [exact H1|].
  destruct (seat_store_keeps_hold_invariant [] "r1" Examples.heldHall) as (_ & _ & _ & H4);
    [|exact H4].
  intros id s. unfold Examples.heldHall.
  destruct (decide (id = "s1")) as [->|Hne].
  - rewrite lookup_insert_eq. intros [= <-]. unfold holdConsistent. simpl. split; eauto.
  - rewrite lookup_insert_ne by done. by rewrite lookup_empty.
Defined.

(** ** The sweep, twice *)

Lemma findDocs_none {A} (P : string → A → bool) (m : gmap string A) :
  (∀ id d, m !! id = Some d → P id d = false) → findDocs P m = [].
Proof.
  intros HP. apply nil_length_inv. by apply (countDocs_none P m).
Qed.

(** X15. A sweep leaves nothing for a sweep at the same or an earlier time:
    after [checkExpiredReservations] at time [now], a second run at a time
    [now'] not after [now] selects no reservation and changes nothing. *)
Theorem checkExpiredReservations_again now now' db :
  now' ≤ now →
  let db' := (SeatLockExpiryService.checkExpiredReservations now db).2 in
  SeatLockExpiryService.checkExpiredReservations now' db' = (inr tt, db').
Proof.
  intros Hle db'.
  unfold SeatLockExpiryService.checkExpiredReservations at 1. mrun.
  rewrite findDocs_none; [done|].
  intros rid l' Hl'. destruct (seatLocks db !! rid) as [l|] eqn:Hl.
  - unfold db' in Hl'. rewrite (checkExpiredReservations_lock now db rid l Hl) in Hl'.
    injection Hl' as <-.
    destruct (SeatLockExpiryService.expiredFilter now rid l) eqn:Hexp; [done|].
    apply not_true_iff_false. apply not_true_iff_false in Hexp.
    rewrite expiredFilter_true in Hexp |- *. intros (? & ? & ?). apply Hexp.
    split_and!; [done|done|lia].
  - exfalso. revert Hl'. unfold db', SeatLockExpiryService.checkExpiredReservations. mrun.
    rewrite forEach_expire_locks_other; [congruence|].
    intros ([id l] & -> & Hin)%list_elem_of_fmap. apply elem_of_findDocs in Hin as [Hin _].
    simpl in *. congruence.
Qed.

(** Witness of [checkExpiredReservations_again]: a reservation in the cart
    state that expired at time 1000 is swept at time 2000; a second sweep at
    that time changes nothing. *)
Lemma checkExpiredReservations_again_witness :
  let db' := (SeatLockExpiryService.checkExpiredReservations 2000
                (Examples.dbWith (Examples.lock PENDING_PAYMENT (-1) None))).2 in
  SeatLock.status <$> seatLocks db' !! "r1" = Some CANCELLED
  ∧ SeatLockExpiryService.checkExpiredReservations 2000 db' = (inr tt, db').
Proof.
  split; [vm_compute; reflexivity|].
  apply (checkExpiredReservations_again 2000 2000
           (Examples.dbWith (Examples.lock PENDING_PAYMENT (-1) None))).
  lia.
Defined.

(** ** Listings *)


(** * Further properties: prices, row names, phone numbers, lookups *)

(** ** The two price computations *)

Lemma foldl_map {A B C} (f : B → C → B) (g : A → C) (l : list A) : ∀ b,
  foldl f b (map g l) = foldl (λ b x, f b (g x)) b l.
Proof. induction l as [|x l IH]; intros b; simpl; [done|apply IH]. Qed.

(** X17. With one person for each seat, or with no person given, the
    price summary of [calculateAmount] is the one that
    [calculateAmountWithSeatAssignments] gives when no seat has an
    assignment, every seat then counting as an adult. *)
Theorem calculateAmount_one_person_per_seat seats e adults kids :
  PrimFloat.eqb (adults + kids) (floatOfNat (length seats)) = true
  ∨ PrimFloat.ltb 0 (adults + kids) = false →
  Pricing.calculateAmount seats e adults kids
  = Pricing.calculateAmountWithSeatAssignments seats e [].
Proof.
  intros Hpersons. unfold Pricing.calculateAmount, Pricing.calculateAmountWithSeatAssignments.
  assert (PrimFloat.ltb 0 (adults + kids)
          && negb (PrimFloat.eqb (adults + kids) (floatOfNat (length seats))) = false) as ->.
  { destruct Hpersons as [H | H]; rewrite H; first [apply andb_false_r|done]. }
  f_equal. rewrite foldl_map. apply foldl_pointwise. intros sum seat.
  (* without assignments the seat counts as an adult *)
  reflexivity.
Qed.

(** Witness of [calculateAmount_one_person_per_seat]: one adult for the one
    seat [s1]. *)
Lemma calculateAmount_one_person_per_seat_witness :
  Pricing.calculateAmount [("s1", Examples.seat "A1" AVAILABLE None)] Examples.concert 1 0
  = Pricing.calculateAmountWithSeatAssignments
      [("s1", Examples.seat "A1" AVAILABLE None)] Examples.concert [].
Proof.
  apply calculateAmount_one_person_per_seat. left. vm_compute. reflexivity.
Defined.

(** ** Row names *)

Lemma append_assoc (a b c : string) : (a +:+ b) +:+ c = a +:+ (b +:+ c).
Proof.
  induction a as [|x a IH]; [done|].
  change (String x ((a +:+ b) +:+ c) = String x (a +:+ (b +:+ c))). by rewrite IH.
Qed.

Lemma rowNameLoop_S fuel num result :
  SeatsService.rowNameLoop (S fuel) num result
  = if num <? 0 then result
    else if num / 26 - 1 <? 0 then String (SeatsService.letter (num mod 26)) result
         else SeatsService.rowNameLoop fuel (num / 26 - 1)
                (String (SeatsService.letter (num mod 26)) result).
Proof. reflexivity. Qed.

Lemma rowNameLoop_acc fuel : ∀ num result,
  SeatsService.rowNameLoop fuel num result = SeatsService.rowNameLoop fuel num "" +:+ result.
Proof.
  induction fuel as [|fuel IH]; intros num result; simpl; [done|].
  destruct (num <? 0); [done|]. destruct (num / 26 - 1 <? 0); [done|].
  rewrite IH, (IH _ (String _ "")). by rewrite append_assoc.
Qed.

Lemma rowNameLoop_fuel fuel : ∀ fuel' num result,
  0 ≤ num → num < Z.of_nat fuel → num < Z.of_nat fuel' →
  SeatsService.rowNameLoop fuel num result = SeatsService.rowNameLoop fuel' num result.
Proof.
  induction fuel as [|fuel IH]; intros fuel' num result H0 Hf Hf'; [lia|].
  destruct fuel' as [|fuel']; [lia|]. simpl.
  destruct (num <? 0); [done|].
  destruct (Z.ltb_spec (num / 26 - 1) 0) as [|Hnext]; [done|].
  assert (num / 26 ≤ num) by (apply Z.div_le_upper_bound; lia).
  apply IH; lia.
Qed.

(** X18. [getRowName] names the rows as a spreadsheet names its columns:
    the first 26 rows by the letters A to Z, and the row of index
    [26 * (q + 1) + r], with [r] below 26, by the name of row [q] followed
    by the letter of [r]; so rows 26, 27, ... are AA, AB, ... *)
Theorem getRowName_spreadsheet q r :
  0 ≤ q → 0 ≤ r < 26 →
  SeatsService.getRowName r = String (SeatsService.letter r) ""
  ∧ SeatsService.getRowName (26 * (q + 1) + r)
    = SeatsService.getRowName q +:+ String (SeatsService.letter r) "".
Proof.
  intros Hq Hr. unfold SeatsService.getRowName. split.
  - simpl. destruct (Z.ltb_spec r 0) as [|_]; [lia|].
    rewrite Z.mod_small, Z.div_small by lia. done.
  - rewrite (rowNameLoop_S (Z.to_nat (26 * (q + 1) + r))).
    destruct (Z.ltb_spec (26 * (q + 1) + r) 0) as [|_]; [lia|].
    rewrite <- (Z.mod_unique_pos (26 * (q + 1) + r) 26 (q + 1) r) by lia.
    rewrite <- (Z.div_unique_pos (26 * (q + 1) + r) 26 (q + 1) r) by lia.
    replace (q + 1 - 1) with q by lia.
    destruct (Z.ltb_spec q 0) as [|_]; [lia|].
    rewrite rowNameLoop_acc. f_equal. apply rowNameLoop_fuel; lia.
Qed.

(** Witness of [getRowName_spreadsheet]: row 27 is AB. *)
Lemma getRowName_spreadsheet_witness :
  SeatsService.getRowName 1 = "B" ∧ SeatsService.getRowName 27 = "AB".
Proof.
  destruct (getRowName_spreadsheet 0 1) as [H1 H2]; [lia|lia|].
  split; [exact H1|]. exact H2.
Defined.

(** ** Phone numbers *)

Lemma removeNonDigits_digits s :
  (∀ c, c ∈ String.list_ascii_of_string s → DialogEsmsService.isDigit c = true) →
  DialogEsmsService.removeNonDigits s = s.
Proof.
  induction s as [|c s IH]; intros Hs; simpl; [done|].
  rewrite (Hs c) by apply list_elem_of_here.
  rewrite IH; [done|]. intros c' Hc'. apply Hs. simpl. by apply list_elem_of_further.
Qed.

Lemma removeNonDigits_all s c :
  c ∈ String.list_ascii_of_string (DialogEsmsService.removeNonDigits s) →
  DialogEsmsService.isDigit c = true.
Proof.
  induction s as [|c' s IH]; simpl; [by intros ?%elem_of_nil|].
  destruct (DialogEsmsService.isDigit c') eqn:Hc'; [|done].
  simpl. intros [->|?]%elem_of_cons; [done|by apply IH].
Qed.

Lemma substring_all n : ∀ s c,
  c ∈ String.list_ascii_of_string (DialogEsmsService.substring n s) →
  c ∈ String.list_ascii_of_string s.
Proof.
  induction n as [|n IH]; intros s c; [by destruct s|].
  destruct s as [|c' s]; simpl; [done|]. intros Hc. apply list_elem_of_further. by apply IH.
Qed.

Lemma prefix_char (a : Ascii.ascii) s :
  String.prefix (String a "") s = true ↔ ∃ s', s = String a s'.
Proof.
  destruct s as [|b s]; simpl.
  - split; [done|]. by intros [? [=]].
  - destruct (Ascii.ascii_dec a b) as [->|Hne].
    + split; [eauto|]. by destruct s.
    + split; [done|]. intros [? [= ?]]. done.
Qed.

(** X19. What [sendSmsViaDialog] accepts as a phone number is, once
    formatted, nine digits of which the first is 7. *)
Theorem formatPhone_result phone p :
  DialogEsmsService.formatPhone phone = inr p →
  String.length p = 9%nat
  ∧ (∃ rest, p = "7" +:+ rest)
  ∧ ∀ c, c ∈ String.list_ascii_of_string p → DialogEsmsService.isDigit c = true.
Proof.
  unfold DialogEsmsService.formatPhone.
  set (digits := DialogEsmsService.removeNonDigits phone).
  set (p' := if negb (DialogEsmsService.isLocalMobile digits) then _ else _).
  assert (∀ c, c ∈ String.list_ascii_of_string p' → DialogEsmsService.isDigit c = true) as Hp'.
  { intros c Hc. apply (removeNonDigits_all phone). fold digits. revert Hc. unfold p'.
    destruct (negb _); [|done].
    destruct (String.prefix "94" digits && _); destruct (String.prefix "0" _);
      intros Hc; repeat (apply substring_all in Hc); done. }
  clearbody p'.
  destruct (String.length p' =? 9)%nat eqn:Hlen; [|done].
  destruct (String.prefix "7" p') eqn:H7; [|done].
  simpl. intros [= <-]. apply Nat.eqb_eq in Hlen. apply prefix_char in H7 as [rest ->].
  split_and!; [done|by exists rest|done].
Qed.

(** Witness of [formatPhone_result]: a number written with the country
    code and blanks. *)
Lemma formatPhone_result_witness :
  DialogEsmsService.formatPhone "+94 77 123 4567" = inr "771234567"
  ∧ String.length "771234567" = 9%nat.
Proof.
  split; [vm_compute; reflexivity|].
  apply (formatPhone_result "+94 77 123 4567" "771234567"). vm_compute. reflexivity.
Defined.

(** X20. A mobile number of nine digits that begins with 7 is accepted as
    it is, after a leading 0, after the country code 94, and after +94. *)
Theorem formatPhone_accepts d :
  String.length d = 9%nat →
  String.prefix "7" d = true →
  (∀ c, c ∈ String.list_ascii_of_string d → DialogEsmsService.isDigit c = true) →
  DialogEsmsService.formatPhone d = inr d
  ∧ DialogEsmsService.formatPhone ("0" +:+ d) = inr d
  ∧ DialogEsmsService.formatPhone ("94" +:+ d) = inr d
  ∧ DialogEsmsService.formatPhone ("+94" +:+ d) = inr d.
Proof.
  intros Hlen H7 Hd.
  assert (String.prefix "0" d = false) as H0.
  { apply prefix_char in H7 as [d' ->]. done. }
  assert (DialogEsmsService.removeNonDigits d = d) as Hrm by (by apply removeNonDigits_digits).
  assert (String.prefix "" d = true) as Hnil by (by destruct d).
  split_and!; cbv beta iota delta [String.append];
    unfold DialogEsmsService.formatPhone, DialogEsmsService.isLocalMobile;
    simpl; rewrite Hrm; simpl; rewrite ?Hnil, ?Hlen, ?H7, ?H0; simpl;
    rewrite ?Hnil, ?Hlen, ?H7, ?H0; simpl; rewrite ?Hnil, ?Hlen, ?H7, ?H0; done.
Qed.

(** Witness of [formatPhone_accepts]. *)
Lemma formatPhone_accepts_witness :
  DialogEsmsService.formatPhone "0771234567" = inr "771234567".
Proof.
  destruct (formatPhone_accepts "771234567") as (_ & H & _); [reflexivity|reflexivity| |exact H].
  intros c Hc. simpl in Hc. set_unfold in Hc. by repeat destruct Hc as [->|Hc].
Defined.

(** ** The hash of the transaction ids *)

Lemma toInt32_range z : - 2 ^ 31 ≤ DialogEsmsService.toInt32 z < 2 ^ 31.
Proof.
  unfold DialogEsmsService.toInt32.
  pose proof (Z.mod_pos_bound (z + 2 ^ 31) (2 ^ 32)). lia.
Qed.

(** X21. [hashString] gives a whole number between 0 and 2^31, whatever
    the string; the empty string gives 0. *)
Theorem hashString_range str :
  0 ≤ DialogEsmsService.hashString str ≤ 2 ^ 31
  ∧ DialogEsmsService.hashString [] = 0.
Proof.
  split; [|done]. unfold DialogEsmsService.hashString.
  assert (∀ h, - 2 ^ 31 ≤ h < 2 ^ 31 →
               - 2 ^ 31 ≤ foldl DialogEsmsService.hashStep h str < 2 ^ 31) as Hfold.
  { induction str as [|c str IH]; intros h Hh; [done|]. simpl. apply IH.
    unfold DialogEsmsService.hashStep. apply toInt32_range. }
  specialize (Hfold 0). lia.
Qed.

(** ** Looking a reservation up by its payment id *)

Lemma findOneDoc_Some {A} (P : string → A → bool) (m : gmap string A) id d :
  findOneDoc P m = Some (id, d) → m !! id = Some d ∧ P id d = true.
Proof. intros H%head_Some_elem_of. by apply elem_of_findDocs in H. Qed.

Lemma findOneDoc_None {A} (P : string → A → bool) (m : gmap string A) id d :
  findOneDoc P m = None → m !! id = Some d → P id d = false.
Proof.
  intros H%head_None Hd. destruct (P id d) eqn:HP; [|done].
  assert ((id, d) ∈ findDocs P m) as Hin by (by apply elem_of_findDocs).
  rewrite H in Hin. by apply elem_of_nil in Hin.
Qed.

(** X22. [findReservationByPaymentId] writes nothing. When it answers, the
    reservation it names is stored, the status, phone number and customer
    name answered are its own, and it carries the payment id itself or its
    backup does. When it throws, the error is not-found and no stored
    reservation carries the payment id. *)
Theorem findReservationByPaymentId_finds paymentId db :
  let call := PaymentsService.findReservationByPaymentId paymentId db in
  call.2 = db
  ∧ match call.1 with
    | inr f =>
        PaymentsService.found f = true
        ∧ PaymentsService.foundPaymentId f = paymentId
        ∧ ∃ l, seatLocks db !! PaymentsService.foundReservationId f = Some l
               ∧ PaymentsService.foundStatus f = SeatLock.status l
               ∧ PaymentsService.foundPhoneNumber f = SeatLock.phoneNumber l
               ∧ PaymentsService.foundCustomerName f = SeatLock.customerName l
               ∧ (SeatLock.paymentIntentId l = Some paymentId
                  ∨ ∃ b, seatLockBackups db !! PaymentsService.foundReservationId f = Some b
                         ∧ SeatLockBackup.paymentIntentId b = Some paymentId)
    | inl error =>
        error = NotFoundException ("Reservation with payment ID " +:+ paymentId +:+ " not found")
        ∧ ∀ id l, seatLocks db !! id = Some l → SeatLock.paymentIntentId l ≠ Some paymentId
    end.
Proof.
  unfold PaymentsService.findReservationByPaymentId. mrun.
  destruct (PaymentsService.findByPaymentIntent paymentId (seatLocks db)) as [[id l]|] eqn:Hf.
  - mrun. simpl. split; [done|]. split_and!; [done|done|].
    apply findOneDoc_Some in Hf as [Hl Hp]. exists l. split_and!; [done..|]. left.
    destruct (SeatLock.paymentIntentId l) as [p|]; [|done]. by apply String.eqb_eq in Hp as ->.
  - assert (∀ id l, seatLocks db !! id = Some l → SeatLock.paymentIntentId l ≠ Some paymentId)
      as Hnone.
    { intros id l Hl Hp. pose proof (findOneDoc_None _ _ id l Hf Hl) as H. simpl in H.
      rewrite Hp, String.eqb_refl in H. done. }
    mrun.
    destruct (PaymentsService.findBackupByPaymentIntent paymentId (seatLockBackups db))
      as [[id b]|] eqn:Hb; mrun; [|done].
    unfold BookingsService.findById. mrun. simpl.
    destruct (seatLocks db !! id) as [l|] eqn:Hl; mrun; simpl; [|done].
    split; [done|]. split_and!; [done|done|]. exists l. split_and!; [done..|]. right.
    apply findOneDoc_Some in Hb as [Hb Hp]. exists b. split; [done|].
    destruct (SeatLockBackup.paymentIntentId b) as [p|]; [|done].
    by apply String.eqb_eq in Hp as ->.
Qed.
